(** * The evaluation pipeline of the interview-preparation application

    A shallow embedding of
      - [src/lib/types/evaluation.types.ts]       (result records, SCORE_BOUNDS),
      - [src/lib/validation/evaluation-validator.ts]
                                                  (response recovery, score repair,
                                                   recovery strategy, default result),
      - the LLM client service                    (EvaluationClient.evaluate),
      - the evaluate-answer edge function         (weighted scoring block),
    followed by the properties of the specification that concern them.

    The values that [JSON.parse] builds are modelled with the exception
    that their conversion can raise: [Number] and [String] throw a
    [TypeError] on an object with an own property [toString].  The
    weighted score of the edge function is computed in binary64. *)

From Stdlib Require Import ZArith QArith Qround Qabs String Ascii List Bool Lia Lqa Btauto.
From Stdlib Require Import SpecFloat.
Import ListNotations.

Set Warnings "-register-all".

Local Open Scope string_scope.

(* ===================================================================== *)
(** ** JavaScript values                                                  *)
(* ===================================================================== *)

Module JS.

(** A JavaScript number.  Every finite double is a rational, so the finite
    numbers are embedded in [Q]; the three special values are kept apart.
    [-0] is identified with [0]: the code below never tells them apart
    (it only compares with [<], [>], [!==] and adds). *)
Inductive num : Type :=
| NaN
| PosInf
| NegInf
| Fin (q : Q).

Definition of_Z (z : Z) : num := Fin (inject_Z z).
Definition of_nat (n : nat) : num := of_Z (Z.of_nat n).

(** [isNaN] on a number. *)
Definition isNaN (n : num) : bool :=
  match n with NaN => true | _ => false end.

(** [Number.isInteger]: finite with no fractional part. *)
Definition isInteger (n : num) : bool :=
  match n with
  | Fin q => (Qnum q mod Zpos (Qden q) =? 0)%Z
  | _ => false
  end.

(** [Math.round]: the nearest integer, ties towards +infinity. *)
Definition round (n : num) : num :=
  match n with
  | Fin q => Fin (inject_Z (Qfloor (q + (1 # 2))))
  | _ => n
  end.

(** [a < b]. *)
Definition lt (a b : num) : bool :=
  match a, b with
  | NaN, _ | _, NaN => false
  | _, NegInf => false
  | PosInf, _ => false
  | NegInf, _ => true
  | Fin _, PosInf => true
  | Fin p, Fin q => negb (Qle_bool q p)
  end.

(** [a > b]. *)
Definition gt (a b : num) : bool := lt b a.

(** [a === b] on numbers. *)
Definition strict_eq (a b : num) : bool :=
  match a, b with
  | PosInf, PosInf => true
  | NegInf, NegInf => true
  | Fin p, Fin q => Qeq_bool p q
  | _, _ => false
  end.

(** [a + b] on numbers. *)
Definition add (a b : num) : num :=
  match a, b with
  | NaN, _ | _, NaN => NaN
  | PosInf, NegInf | NegInf, PosInf => NaN
  | PosInf, _ | _, PosInf => PosInf
  | NegInf, _ | _, NegInf => NegInf
  | Fin p, Fin q => Fin (p + q)
  end.

Definition sign_of (q : Q) : comparison := (0 ?= q)%Q.

(** [a / b] on numbers. *)
Definition div (a b : num) : num :=
  let by_zero (q : Q) : num :=
    match sign_of q with
    | Eq => NaN
    | Lt => PosInf
    | Gt => NegInf
    end in
  let inf_over (pos : bool) (q : Q) : num :=
    match sign_of q with
    | Gt => if pos then NegInf else PosInf
    | _ => if pos then PosInf else NegInf
    end in
  match a, b with
  | NaN, _ | _, NaN => NaN
  | PosInf, Fin q => inf_over true q
  | NegInf, Fin q => inf_over false q
  | Fin _, PosInf | Fin _, NegInf => Fin 0
  | Fin p, Fin q => if Qeq_bool q 0 then by_zero p else Fin (p / q)
  | _, _ => NaN
  end.

(** [Math.ceil]. *)
Definition ceil (n : num) : num :=
  match n with
  | Fin q => Fin (inject_Z (Qceiling q))
  | _ => n
  end.

(** Truthiness of a number: [0] and [NaN] are falsy. *)
Definition num_truthy (n : num) : bool :=
  match n with
  | NaN => false
  | Fin q => negb (Qeq_bool q 0)
  | _ => true
  end.

(** [n || d] on numbers. *)
Definition num_or (n d : num) : num := if num_truthy n then n else d.

(** A value as [JSON.parse] can produce it, plus [undefined] for a
    property that is absent.  An object keeps its properties in insertion
    order. *)
Inductive value : Type :=
| VUndefined
| VNull
| VBool (b : bool)
| VNum (n : num)
| VStr (s : string)
| VArr (items : list value)
| VObj (props : list (string * value)).

Fixpoint lookup (k : string) (props : list (string * value)) : option value :=
  match props with
  | [] => None
  | (k', v) :: rest => if String.eqb k k' then Some v else lookup k rest
  end.

(** [k in data], for a name that is neither an index nor a property of a
    prototype; [None] is the [TypeError] that [in] throws when its right
    operand is not an object. *)
Definition has_prop (data : value) (k : string) : option bool :=
  match data with
  | VObj props => Some match lookup k props with Some _ => true | None => false end
  | VArr _ => Some false
  | _ => None
  end.

(** [data.k] for a property name that no prototype defines (the seven
    field names of the evaluation schema): an own property of an object,
    [undefined] on anything else. *)
Definition get (data : value) (k : string) : value :=
  match data with
  | VObj props => match lookup k props with Some v => v | None => VUndefined end
  | _ => VUndefined
  end.

(** [v === undefined || v === null]. *)
Definition nullish (v : value) : bool :=
  match v with VUndefined | VNull => true | _ => false end.

(** Truthiness, as [!v] tests it. *)
Definition truthy (v : value) : bool :=
  match v with
  | VUndefined | VNull => false
  | VBool b => b
  | VNum n => num_truthy n
  | VStr s => negb (String.eqb s EmptyString)
  | VArr _ | VObj _ => true
  end.

(** [a ?? b]. *)
Definition coalesce (a b : value) : value := if nullish a then b else a.

Section Conversions.

(** The two conversions between text and numbers belong to the
    language runtime, not to the repository: they are parameters.
    [StringToNumber] is [Number(s)] on a string, [NumberToString] is
    [String(n)] on a number. *)
Variable StringToNumber : string -> num.
Variable NumberToString : num -> string.

(** An object that [JSON.parse] built converts to a primitive through the
    inherited [toString], unless it has an own property of that name: a
    value of JSON is no function, so that neither [valueOf] nor [toString]
    gives a primitive and the conversion throws a [TypeError].  An array
    converts through [join], which converts each element that is not
    [null] or [undefined]. *)
Fixpoint convertible (v : value) : bool :=
  match v with
  | VObj props =>
      match lookup "toString" props with
      | Some _ => false
      | None => true
      end
  | VArr items => forallb convertible items
  | _ => true
  end.

(** The number that [Number(v)] gives when the conversion does not
    throw.  An array is converted through its text: the empty array reads
    as the empty string, a one-element array as its element (a number
    prints and reads back as itself, [null] and [undefined] print as the
    empty string, a boolean or an object prints as a word that is no
    numeric literal), and a longer array contains a comma, which no
    numeric literal does. *)
Fixpoint number_of (v : value) : num :=
  match v with
  | VUndefined => NaN
  | VNull => of_Z 0
  | VBool b => if b then of_Z 1 else of_Z 0
  | VNum n => n
  | VStr s => StringToNumber s
  | VArr [] => StringToNumber EmptyString
  | VArr [x] =>
      match x with
      | VUndefined | VNull => StringToNumber EmptyString
      | VBool _ => NaN
      | VNum n => n
      | VStr s => StringToNumber s
      | VArr _ => number_of x
      | VObj _ => NaN
      end
  | VArr (_ :: _ :: _) => NaN
  | VObj _ => NaN
  end.

(** [Number(v)]; [None] is the [TypeError]. *)
Definition ToNumber (v : value) : option num :=
  if convertible v then Some (number_of v) else None.

Fixpoint join (sep : string) (parts : list string) : string :=
  match parts with
  | [] => EmptyString
  | [p] => p
  | p :: rest => p ++ sep ++ join sep rest
  end.

(** The text that [String(v)] gives when the conversion does not throw. *)
Fixpoint text_of (v : value) : string :=
  match v with
  | VUndefined => "undefined"
  | VNull => "null"
  | VBool b => if b then "true" else "false"
  | VNum n => NumberToString n
  | VStr s => s
  | VArr items =>
      join "," (map (fun x => match x with
                              | VUndefined | VNull => EmptyString
                              | _ => text_of x
                              end) items)
  | VObj _ => "[object Object]"
  end.

(** [String(v)]; [None] is the [TypeError]. *)
Definition ToString (v : value) : option string :=
  if convertible v then Some (text_of v) else None.

End Conversions.

End JS.

(* ===================================================================== *)
(** ** Text operations used by the response recoverer                     *)
(* ===================================================================== *)

(** JavaScript strings are modelled by [string]: sequences of code units
    below 256.  The regular expressions of the source are embedded as the
    scanning functions they denote. *)

Module Text.

Local Open Scope char_scope.

(** The class [\s] (and the characters [trim] removes), below 256. *)
Definition is_space (c : ascii) : bool :=
  let n := nat_of_ascii c in
  ((9 <=? n) && (n <=? 13) || (n =? 32) || (n =? 160))%nat.

(** The class [[\x00-\x1F\x7F]]. *)
Definition is_control (c : ascii) : bool :=
  let n := nat_of_ascii c in
  ((n <=? 31) || (n =? 127))%nat.

Fixpoint drop (n : nat) (s : string) : string :=
  match n, s with
  | O, _ => s
  | S _, EmptyString => EmptyString
  | S n', String _ s' => drop n' s'
  end.

(** [s.substring(0, n)]. *)
Definition take (n : nat) (s : string) : string := substring 0 n s.

(** Greedy [\s*] at the head of [s]: what remains. *)
Fixpoint skip_spaces (s : string) : string :=
  match s with
  | String c s' => if is_space c then skip_spaces s' else s
  | EmptyString => EmptyString
  end.

Fixpoint trim_right (s : string) : string :=
  match s with
  | EmptyString => EmptyString
  | String c s' =>
      match trim_right s' with
      | EmptyString => if is_space c then EmptyString else String c EmptyString
      | t => String c t
      end
  end.

(** [s.trim()]. *)
Definition trim (s : string) : string := trim_right (skip_spaces s).

(** The first occurrence of [p] in [s]: the text before it and after it. *)
Fixpoint split_at_first (p s : string) : option (string * string) :=
  if prefix p s then Some (EmptyString, drop (String.length p) s)
  else
    match s with
    | EmptyString => None
    | String c s' =>
        match split_at_first p s' with
        | Some (before, after) => Some (String c before, after)
        | None => None
        end
    end.

Definition fence : string := "```"%string.

(** Capture group 1 of the first match of
    [/```(?:json)?\s*([\s\S]*?)```/]: the opening fence is the first
    fence of the text, the optional tag and the blanks are taken greedily,
    and the lazy group stops at the next fence. *)
Definition match_code_block (s : string) : option string :=
  match split_at_first fence s with
  | None => None
  | Some (_, rest) =>
      let rest := if prefix "json" rest then drop 4 rest else rest in
      let rest := skip_spaces rest in
      match split_at_first fence rest with
      | None => None
      | Some (body, _) => Some body
      end
  end.

Fixpoint from_first (c : ascii) (s : string) : option string :=
  match s with
  | EmptyString => None
  | String d s' => if Ascii.eqb d c then Some s else from_first c s'
  end.

(** The longest prefix of [s] that ends with [c]. *)
Fixpoint upto_last (c : ascii) (s : string) : option string :=
  match s with
  | EmptyString => None
  | String d s' =>
      match upto_last c s' with
      | Some t => Some (String d t)
      | None => if Ascii.eqb d c then Some (String d EmptyString) else None
      end
  end.

(** The first match of [/\{[\s\S]*\}/]: from the first opening brace to
    the last closing brace. *)
Definition match_object (s : string) : option string :=
  match from_first "{" s with
  | None => None
  | Some t => upto_last "}" t
  end.

Fixpoint filter_chars (keep : ascii -> bool) (s : string) : string :=
  match s with
  | EmptyString => EmptyString
  | String c s' =>
      if keep c then String c (filter_chars keep s') else filter_chars keep s'
  end.

Fixpoint map_chars (f : ascii -> ascii) (s : string) : string :=
  match s with
  | EmptyString => EmptyString
  | String c s' => String (f c) (map_chars f s')
  end.

(** [s.replace(/,\s*X/g, 'X')] for a closing bracket [X], scanning from
    the left; [fuel] bounds the number of characters looked at. *)
Fixpoint replace_comma_before (close : ascii) (fuel : nat) (s : string) : string :=
  match fuel with
  | O => s
  | S fuel' =>
      match s with
      | EmptyString => EmptyString
      | String c s' =>
          if Ascii.eqb c "," then
            match skip_spaces s' with
            | String d rest =>
                if Ascii.eqb d close
                then String close (replace_comma_before close fuel' rest)
                else String c (replace_comma_before close fuel' s')
            | EmptyString => String c (replace_comma_before close fuel' s')
            end
          else String c (replace_comma_before close fuel' s')
      end
  end.

Definition dquote : ascii := "034".

(** The sanitizing chain of step 4 of the recoverer. *)
Definition sanitize (rawResponse : string) : string :=
  let s1 := filter_chars (fun c => negb (is_control c)) rawResponse in
  let s2 := replace_comma_before "}" (String.length s1) s1 in
  let s3 := replace_comma_before "]" (String.length s2) s2 in
  let s4 := map_chars (fun c => if Ascii.eqb c "'" then dquote else c) s3 in
  trim s4.

End Text.

(* ===================================================================== *)
(** ** Types of the evaluation pipeline (evaluation.types.ts)             *)
(* ===================================================================== *)

Record RubricCriterion := {
  max_score : JS.num;
  weight_description : string
}.

Record EvaluationRubricInput := {
  rubric_concept_accuracy : RubricCriterion;
  rubric_example_usage : RubricCriterion;
  rubric_edge_cases : RubricCriterion;
  rubric_clarity : RubricCriterion
}.

Record EvaluationInput := {
  question_text : string;
  ideal_answer : string;
  rubric : EvaluationRubricInput;
  user_answer : string
}.

Record EvaluationResult := {
  concept_accuracy : JS.num;
  example_usage : JS.num;
  edge_cases : JS.num;
  clarity : JS.num;
  final_score : JS.num;
  overall_feedback : string;
  improvement_tips : string
}.

Record TokenUsage := {
  prompt_tokens : JS.num;
  completion_tokens : JS.num;
  total_tokens : JS.num
}.

(** The keys of [SCORE_BOUNDS]. *)
Inductive ScoreField :=
| F_concept_accuracy
| F_example_usage
| F_edge_cases
| F_clarity
| F_final_score.

Definition field_name (f : ScoreField) : string :=
  match f with
  | F_concept_accuracy => "concept_accuracy"
  | F_example_usage => "example_usage"
  | F_edge_cases => "edge_cases"
  | F_clarity => "clarity"
  | F_final_score => "final_score"
  end.

Record Bounds := { bmin : Z; bmax : Z }.

Definition SCORE_BOUNDS (f : ScoreField) : Bounds :=
  match f with
  | F_concept_accuracy => {| bmin := 0; bmax := 4 |}
  | F_example_usage => {| bmin := 0; bmax := 3 |}
  | F_edge_cases => {| bmin := 0; bmax := 2 |}
  | F_clarity => {| bmin := 0; bmax := 1 |}
  | F_final_score => {| bmin := 0; bmax := 10 |}
  end.

(* ===================================================================== *)
(** ** The validator (evaluation-validator.ts)                            *)
(* ===================================================================== *)

Record ValidationError := {
  err_field : string;
  err_message : string;
  err_received : JS.value;
  err_expected : string
}.

Record ValidationWarning := {
  warn_field : string;
  warn_message : string;
  warn_action : string
}.

Record ValidationResult := {
  isValid : bool;
  data : option EvaluationResult;
  errors : list ValidationError;
  warnings : list ValidationWarning;
  wasRepaired : bool
}.

(** The two arrays [errors] and [warnings] that the helpers push to. *)
Record Log := {
  log_errors : list ValidationError;
  log_warnings : list ValidationWarning
}.

Definition empty_log : Log := {| log_errors := []; log_warnings := [] |}.

(** Where the run time system raises a [TypeError] in this code: at the
    conversion of a value that has no primitive, and at the use, as a
    provider, of a member that the registry object inherits. *)
Inductive TypeErrorSite :=
| ToPrimitive
| InheritedMember (member : string).

(** How a call ends: it returns, or a [TypeError] leaves it. *)
Inductive Completed (A : Type) :=
| Returned (a : A)
| Threw (site : TypeErrorSite).

Arguments Returned {A} a.
Arguments Threw {A} site.

(** A computation of the validator: it may push to the two arrays, and a
    conversion in it may throw.  Nothing in the validator catches. *)
Definition Validating (A : Type) : Type := Log -> Completed (A * Log).

Definition vret {A} (a : A) : Validating A := fun l => Returned (a, l).

Definition vbind {A B} (m : Validating A) (k : A -> Validating B) : Validating B :=
  fun l => match m l with
           | Returned (a, l') => k a l'
           | Threw site => Threw site
           end.

Definition errors_push (e : ValidationError) : Validating unit :=
  fun l => Returned (tt, {| log_errors := log_errors l ++ [e];
                            log_warnings := log_warnings l |}).

Definition warnings_push (w : ValidationWarning) : Validating unit :=
  fun l => Returned (tt, {| log_errors := log_errors l;
                            log_warnings := log_warnings l ++ [w] |}).

(** The outcome of [Number(v)] or [String(v)] within the validator. *)
Definition converted {A} (c : option A) : Validating A :=
  fun l => match c with
           | Some a => Returned (a, l)
           | None => Threw ToPrimitive
           end.

Declare Scope validating_scope.
Delimit Scope validating_scope with validating.
Notation "x <- m ;; k" := (vbind m (fun x => k))
  (at level 61, m at next level, right associativity) : validating_scope.
Notation "m ;;; k" := (vbind m (fun _ => k))
  (at level 61, right associativity) : validating_scope.

(** The outcome of [parseEvaluationResponse]: [{success: true, data}] or
    [{success: false, error}]. *)
Inductive ParseResult :=
| ParseOk (parsed : JS.value)
| ParseFail (error : string).

Record ScoreResult := { score : JS.num; scoreRepaired : bool }.
Record TextResult := { text : string; textRepaired : bool }.

Definition RecoveryStrategy_values : list string :=
  ["retry_same_prompt"; "retry_simplified"; "use_default_scores"; "fail"].

Inductive RecoveryStrategy :=
| RETRY_SAME_PROMPT
| RETRY_SIMPLIFIED
| USE_DEFAULT_SCORES
| FAIL.

Definition critical_fields : list string :=
  ["concept_accuracy"; "example_usage"; "edge_cases"; "clarity"].

(** [names.includes(f)]. *)
Definition includes (names : list string) (f : string) : bool :=
  existsb (String.eqb f) names.

(** [s || d] on strings: the empty string is falsy. *)
Definition str_or (s d : string) : string :=
  if String.eqb s EmptyString then d else s.

Definition default_text : string := "No feedback provided.".

(** The result returned when no usable object could be parsed. *)
Definition parse_failure (message : string) (rawResponse : string)
  : ValidationResult :=
  {| isValid := false;
     data := None;
     errors := [ {| err_field := "response";
                    err_message := message;
                    err_received := JS.VStr (Text.take 200 rawResponse);
                    err_expected := "Valid JSON object" |} ];
     warnings := [];
     wasRepaired := false |}.

Definition requiredFields : list string :=
  ["concept_accuracy"; "example_usage"; "edge_cases"; "clarity";
   "final_score"; "overall_feedback"; "improvement_tips"].

Section Validator.

Variable StringToNumber : string -> JS.num.
Variable NumberToString : JS.num -> string.
(** [JSON.parse]: [None] when it throws. *)
Variable JSON_parse : string -> option JS.value.

Local Open Scope validating_scope.

(** The four recovery steps, first success wins. *)
Definition parseEvaluationResponse (rawResponse : string) : ParseResult :=
  (* Step 1: direct parsing *)
  match JSON_parse rawResponse with
  | Some parsed => ParseOk parsed
  | None =>
  (* Step 2: markdown code block *)
  match match Text.match_code_block rawResponse with
        | Some block => JSON_parse (Text.trim block)
        | None => None
        end with
  | Some parsed => ParseOk parsed
  | None =>
  (* Step 3: object pattern *)
  match match Text.match_object rawResponse with
        | Some obj => JSON_parse obj
        | None => None
        end with
  | Some parsed => ParseOk parsed
  | None =>
  (* Step 4: common JSON issues *)
  let sanitized := Text.sanitize rawResponse in
  match match Text.match_object sanitized with
        | Some obj => JSON_parse obj
        | None => None
        end with
  | Some parsed => ParseOk parsed
  | None =>
      ParseFail "Failed to parse response as JSON after all recovery attempts"
  end end end end.

Definition expected_number (bounds : Bounds) : string :=
  "number between " ++ NumberToString (JS.of_Z (bmin bounds)) ++
  " and " ++ NumberToString (JS.of_Z (bmax bounds)).

Definition validateAndRepairScore (value : JS.value) (field : ScoreField)
  : Validating ScoreResult :=
  let bounds := SCORE_BOUNDS field in
  (* Handle missing value *)
  if JS.nullish value then
    errors_push {| err_field := field_name field;
                   err_message := "Missing required field";
                   err_received := value;
                   err_expected := expected_number bounds |} ;;;
    vret {| score := JS.of_Z 0; scoreRepaired := true |}
  else
  (* Convert to number *)
  score0 <- converted match value with
                      | JS.VNum n => Some n
                      | _ => JS.ToNumber StringToNumber value
                      end ;;
  (* Handle NaN *)
  if JS.isNaN score0 then
    errors_push {| err_field := field_name field;
                   err_message := "Invalid number";
                   err_received := value;
                   err_expected := expected_number bounds |} ;;;
    vret {| score := JS.of_Z 0; scoreRepaired := true |}
  else
  (* Round to integer *)
  r1 <- (if negb (JS.isInteger score0) then
           warnings_push {| warn_field := field_name field;
                            warn_message := "Score was not an integer";
                            warn_action := "Rounded " ++ NumberToString score0 ++
                                           " to " ++ NumberToString (JS.round score0) |} ;;;
           vret {| score := JS.round score0; scoreRepaired := true |}
         else vret {| score := score0; scoreRepaired := false |}) ;;
  (* Clamp to bounds *)
  r2 <- (if JS.lt (score r1) (JS.of_Z (bmin bounds)) then
           warnings_push {| warn_field := field_name field;
                            warn_message := "Score below minimum";
                            warn_action := "Clamped " ++ NumberToString (score r1) ++
                                           " to " ++ NumberToString (JS.of_Z (bmin bounds)) |} ;;;
           vret {| score := JS.of_Z (bmin bounds); scoreRepaired := true |}
         else vret r1) ;;
  r3 <- (if JS.gt (score r2) (JS.of_Z (bmax bounds)) then
           warnings_push {| warn_field := field_name field;
                            warn_message := "Score above maximum";
                            warn_action := "Clamped " ++ NumberToString (score r2) ++
                                           " to " ++ NumberToString (JS.of_Z (bmax bounds)) |} ;;;
           vret {| score := JS.of_Z (bmax bounds); scoreRepaired := true |}
         else vret r2) ;;
  vret r3.

Definition validateStringField (value : JS.value) (field : string)
  (maxLength : nat) : Validating TextResult :=
  if JS.nullish value then
    errors_push {| err_field := field;
                   err_message := "Missing required field";
                   err_received := value;
                   err_expected := "non-empty string" |} ;;;
    vret {| text := default_text; textRepaired := true |}
  else
  text0 <- converted (JS.ToString NumberToString value) ;;
  r1 <- (if (String.length text0 =? 0)%nat then
           warnings_push {| warn_field := field;
                            warn_message := "Empty string";
                            warn_action := "Set default value" |} ;;;
           vret {| text := default_text; textRepaired := true |}
         else vret {| text := text0; textRepaired := false |}) ;;
  r2 <- (if (maxLength <? String.length (text r1))%nat then
           warnings_push {| warn_field := field;
                            warn_message := "String exceeds maximum length";
                            warn_action :=
                              "Truncated from " ++
                              NumberToString (JS.of_nat (String.length (text r1))) ++
                              " to " ++ NumberToString (JS.of_nat maxLength) ++
                              " characters" |} ;;;
           vret {| text := Text.take maxLength (text r1) ++ "...";
                   textRepaired := true |}
         else vret r1) ;;
  vret r2.

(** The [final_score] block of [validateEvaluationResult]: the value the
    response provides is only compared with the computed sum; the block
    returns the updated [wasRepaired]. *)
Definition check_final_score (parsed : JS.value)
  (calculatedFinalScore : JS.num) (wasRepaired : bool) : Validating bool :=
  match JS.get parsed "final_score" with
  | JS.VUndefined => vret wasRepaired
  | provided =>
      providedFinal <- converted (JS.ToNumber StringToNumber provided) ;;
      if negb (JS.isNaN providedFinal) &&
         negb (JS.strict_eq providedFinal calculatedFinalScore)
      then
        warnings_push
          {| warn_field := "final_score";
             warn_message :=
               "Provided final_score doesn't match sum of individual scores";
             warn_action := "Corrected from " ++ NumberToString providedFinal ++
                            " to " ++ NumberToString calculatedFinalScore |} ;;;
        vret true
      else vret wasRepaired
  end.

(** The body of [validateEvaluationResult] once [data] is at hand: the
    validated result and the [wasRepaired] flag, pushing to the arrays. *)
Definition validate_fields (parsed : JS.value)
  : Validating (EvaluationResult * bool) :=
  (* Validate and repair individual scores *)
  conceptResult <-
    validateAndRepairScore (JS.get parsed "concept_accuracy") F_concept_accuracy ;;
  exampleResult <-
    validateAndRepairScore (JS.get parsed "example_usage") F_example_usage ;;
  edgeResult <-
    validateAndRepairScore (JS.get parsed "edge_cases") F_edge_cases ;;
  clarityResult <-
    validateAndRepairScore (JS.get parsed "clarity") F_clarity ;;
  let wasRepaired1 :=
    false || scoreRepaired conceptResult || scoreRepaired exampleResult ||
    scoreRepaired edgeResult || scoreRepaired clarityResult in
  (* Calculate expected final score *)
  let calculatedFinalScore :=
    JS.add (JS.add (JS.add (score conceptResult) (score exampleResult))
                   (score edgeResult))
           (score clarityResult) in
  (* Validate final_score *)
  let finalScore := calculatedFinalScore in
  wasRepaired2 <- check_final_score parsed calculatedFinalScore wasRepaired1 ;;
  (* Validate string fields *)
  feedbackResult <-
    validateStringField (JS.get parsed "overall_feedback") "overall_feedback" 1000 ;;
  tipsResult <-
    validateStringField (JS.get parsed "improvement_tips") "improvement_tips" 1000 ;;
  let wasRepaired3 :=
    wasRepaired2 || textRepaired feedbackResult || textRepaired tipsResult in
  (* Build validated result *)
  vret ({| concept_accuracy := score conceptResult;
           example_usage := score exampleResult;
           edge_cases := score edgeResult;
           clarity := score clarityResult;
           final_score := finalScore;
           overall_feedback := text feedbackResult;
           improvement_tips := text tipsResult |}, wasRepaired3).

(** [validateEvaluationResult]: the arrays start empty; a [TypeError] of a
    conversion leaves the function. *)
Definition validateEvaluationResult (rawResponse : string)
  (_rubric : option EvaluationRubricInput) : Completed ValidationResult :=
  match parseEvaluationResponse rawResponse with
  | ParseFail error =>
      Returned (parse_failure (str_or error "Invalid JSON") rawResponse)
  | ParseOk parsed =>
      if negb (JS.truthy parsed) then
        Returned (parse_failure "Invalid JSON" rawResponse)
      else
        match validate_fields parsed empty_log with
        | Threw site => Threw site
        | Returned (validatedResult, repaired, log) =>
            (* no critical errors, only warnings/repairs *)
            let hasCriticalErrors :=
              existsb (fun e => includes critical_fields (err_field e))
                      (log_errors log) in
            Returned {| isValid := negb hasCriticalErrors;
                        data := Some validatedResult;
                        errors := log_errors log;
                        warnings := log_warnings log;
                        wasRepaired := repaired |}
        end
  end.

(** [fields.every(field => field in data)]: the fields are tested in
    order up to the first that is absent; [None] when [in] throws. *)
Fixpoint every_in (parsed : JS.value) (fields : list string) : option bool :=
  match fields with
  | [] => Some true
  | field :: rest =>
      match JS.has_prop parsed field with
      | None => None
      | Some false => Some false
      | Some true => every_in parsed rest
      end
  end.

(** [quickValidate]; [None] when it throws. *)
Definition quickValidate (rawResponse : string) : option bool :=
  match parseEvaluationResponse rawResponse with
  | ParseFail _ => Some false
  | ParseOk parsed =>
      if negb (JS.truthy parsed) then Some false
      else every_in parsed requiredFields
  end.

End Validator.

(** *** The runs of the validator that return *)

(** A computation that pushes to the two arrays and returns.  The
    validator's functions are written a second time in it, with the
    conversions replaced by the values they give when they do not throw;
    they serve the proofs, which relate them to the functions above. *)
Definition Logged (A : Type) : Type := Log -> A * Log.

Definition ret {A} (a : A) : Logged A := fun l => (a, l).

Definition bind {A B} (m : Logged A) (k : A -> Logged B) : Logged B :=
  fun l => let (a, l') := m l in k a l'.

Definition push_error (e : ValidationError) : Logged unit :=
  fun l => (tt, {| log_errors := log_errors l ++ [e];
                   log_warnings := log_warnings l |}).

Definition push_warning (w : ValidationWarning) : Logged unit :=
  fun l => (tt, {| log_errors := log_errors l;
                   log_warnings := log_warnings l ++ [w] |}).

Declare Scope logged_scope.
Delimit Scope logged_scope with logged.
Notation "x <- m ;; k" := (bind m (fun x => k))
  (at level 61, m at next level, right associativity) : logged_scope.
Notation "m ;;; k" := (bind m (fun _ => k))
  (at level 61, right associativity) : logged_scope.

Section ValidatorReturns.

Variable StringToNumber : string -> JS.num.
Variable NumberToString : JS.num -> string.
Variable JSON_parse : string -> option JS.value.

Local Open Scope logged_scope.

Definition validateAndRepairScore_total (value : JS.value) (field : ScoreField)
  : Logged ScoreResult :=
  let bounds := SCORE_BOUNDS field in
  if JS.nullish value then
    push_error {| err_field := field_name field;
                  err_message := "Missing required field";
                  err_received := value;
                  err_expected := expected_number NumberToString bounds |} ;;;
    ret {| score := JS.of_Z 0; scoreRepaired := true |}
  else
  let score0 := match value with
                | JS.VNum n => n
                | _ => JS.number_of StringToNumber value
                end in
  if JS.isNaN score0 then
    push_error {| err_field := field_name field;
                  err_message := "Invalid number";
                  err_received := value;
                  err_expected := expected_number NumberToString bounds |} ;;;
    ret {| score := JS.of_Z 0; scoreRepaired := true |}
  else
  r1 <- (if negb (JS.isInteger score0) then
           push_warning {| warn_field := field_name field;
                           warn_message := "Score was not an integer";
                           warn_action := "Rounded " ++ NumberToString score0 ++
                                          " to " ++ NumberToString (JS.round score0) |} ;;;
           ret {| score := JS.round score0; scoreRepaired := true |}
         else ret {| score := score0; scoreRepaired := false |}) ;;
  r2 <- (if JS.lt (score r1) (JS.of_Z (bmin bounds)) then
           push_warning {| warn_field := field_name field;
                           warn_message := "Score below minimum";
                           warn_action := "Clamped " ++ NumberToString (score r1) ++
                                          " to " ++ NumberToString (JS.of_Z (bmin bounds)) |} ;;;
           ret {| score := JS.of_Z (bmin bounds); scoreRepaired := true |}
         else ret r1) ;;
  r3 <- (if JS.gt (score r2) (JS.of_Z (bmax bounds)) then
           push_warning {| warn_field := field_name field;
                           warn_message := "Score above maximum";
                           warn_action := "Clamped " ++ NumberToString (score r2) ++
                                          " to " ++ NumberToString (JS.of_Z (bmax bounds)) |} ;;;
           ret {| score := JS.of_Z (bmax bounds); scoreRepaired := true |}
         else ret r2) ;;
  ret r3.

Definition validateStringField_total (value : JS.value) (field : string)
  (maxLength : nat) : Logged TextResult :=
  if JS.nullish value then
    push_error {| err_field := field;
                  err_message := "Missing required field";
                  err_received := value;
                  err_expected := "non-empty string" |} ;;;
    ret {| text := default_text; textRepaired := true |}
  else
  let text0 := JS.text_of NumberToString value in
  r1 <- (if (String.length text0 =? 0)%nat then
           push_warning {| warn_field := field;
                           warn_message := "Empty string";
                           warn_action := "Set default value" |} ;;;
           ret {| text := default_text; textRepaired := true |}
         else ret {| text := text0; textRepaired := false |}) ;;
  r2 <- (if (maxLength <? String.length (text r1))%nat then
           push_warning {| warn_field := field;
                           warn_message := "String exceeds maximum length";
                           warn_action :=
                             "Truncated from " ++
                             NumberToString (JS.of_nat (String.length (text r1))) ++
                             " to " ++ NumberToString (JS.of_nat maxLength) ++
                             " characters" |} ;;;
           ret {| text := Text.take maxLength (text r1) ++ "...";
                  textRepaired := true |}
         else ret r1) ;;
  ret r2.

Definition check_final_score_total (parsed : JS.value)
  (calculatedFinalScore : JS.num) (wasRepaired : bool) : Logged bool :=
  match JS.get parsed "final_score" with
  | JS.VUndefined => ret wasRepaired
  | provided =>
      let providedFinal := JS.number_of StringToNumber provided in
      if negb (JS.isNaN providedFinal) &&
         negb (JS.strict_eq providedFinal calculatedFinalScore)
      then
        push_warning
          {| warn_field := "final_score";
             warn_message :=
               "Provided final_score doesn't match sum of individual scores";
             warn_action := "Corrected from " ++ NumberToString providedFinal ++
                            " to " ++ NumberToString calculatedFinalScore |} ;;;
        ret true
      else ret wasRepaired
  end.

Definition validate_fields_total (parsed : JS.value)
  : Logged (EvaluationResult * bool) :=
  conceptResult <-
    validateAndRepairScore_total (JS.get parsed "concept_accuracy") F_concept_accuracy ;;
  exampleResult <-
    validateAndRepairScore_total (JS.get parsed "example_usage") F_example_usage ;;
  edgeResult <-
    validateAndRepairScore_total (JS.get parsed "edge_cases") F_edge_cases ;;
  clarityResult <-
    validateAndRepairScore_total (JS.get parsed "clarity") F_clarity ;;
  let wasRepaired1 :=
    false || scoreRepaired conceptResult || scoreRepaired exampleResult ||
    scoreRepaired edgeResult || scoreRepaired clarityResult in
  let calculatedFinalScore :=
    JS.add (JS.add (JS.add (score conceptResult) (score exampleResult))
                   (score edgeResult))
           (score clarityResult) in
  let finalScore := calculatedFinalScore in
  wasRepaired2 <- check_final_score_total parsed calculatedFinalScore wasRepaired1 ;;
  feedbackResult <-
    validateStringField_total (JS.get parsed "overall_feedback") "overall_feedback" 1000 ;;
  tipsResult <-
    validateStringField_total (JS.get parsed "improvement_tips") "improvement_tips" 1000 ;;
  let wasRepaired3 :=
    wasRepaired2 || textRepaired feedbackResult || textRepaired tipsResult in
  ret ({| concept_accuracy := score conceptResult;
          example_usage := score exampleResult;
          edge_cases := score edgeResult;
          clarity := score clarityResult;
          final_score := finalScore;
          overall_feedback := text feedbackResult;
          improvement_tips := text tipsResult |}, wasRepaired3).

Definition validateEvaluationResult_total (rawResponse : string)
  (_rubric : option EvaluationRubricInput) : ValidationResult :=
  match parseEvaluationResponse JSON_parse rawResponse with
  | ParseFail error => parse_failure (str_or error "Invalid JSON") rawResponse
  | ParseOk parsed =>
      if negb (JS.truthy parsed) then parse_failure "Invalid JSON" rawResponse
      else
        let '(validatedResult, repaired, log) := validate_fields_total parsed empty_log in
        let hasCriticalErrors :=
          existsb (fun e => includes critical_fields (err_field e)) (log_errors log) in
        {| isValid := negb hasCriticalErrors;
           data := Some validatedResult;
           errors := log_errors log;
           warnings := log_warnings log;
           wasRepaired := repaired |}
  end.

End ValidatorReturns.

(** The selector works with its own [maxRetries = 2]. *)
Definition determineRecoveryStrategy (validationResult : ValidationResult)
  (retryCount : nat) : RecoveryStrategy :=
  let maxRetries := 2%nat in
  (* If valid (even with repairs), accept it *)
  if isValid validationResult then RETRY_SAME_PROMPT
  (* If JSON parsing completely failed *)
  else if existsb (fun e => String.eqb (err_field e) "response")
                  (errors validationResult) then
    if (retryCount <? maxRetries)%nat then
      if (retryCount =? 0)%nat then RETRY_SAME_PROMPT else RETRY_SIMPLIFIED
    else USE_DEFAULT_SCORES
  (* If individual field errors *)
  else if (retryCount <? maxRetries)%nat then RETRY_SIMPLIFIED
  else USE_DEFAULT_SCORES.

Definition getDefaultEvaluationResult (reason : string) : EvaluationResult :=
  {| concept_accuracy := JS.of_Z 0;
     example_usage := JS.of_Z 0;
     edge_cases := JS.of_Z 0;
     clarity := JS.of_Z 0;
     final_score := JS.of_Z 0;
     overall_feedback :=
       "Evaluation could not be completed: " ++ reason ++
       ". Please try again or contact support.";
     improvement_tips :=
       "Unable to provide specific improvement tips at this time." |}.

(* ===================================================================== *)
(** ** A reference [JSON.parse]                                           *)
(* ===================================================================== *)

(** The validator is stated for any [JSON.parse]; the scenarios that run
    the recoverer on concrete text use this reader of the JSON grammar.
    A number literal is read as the exact rational it denotes (past the
    range of doubles, as an infinity); a [\u] escape above 255 lies outside
    the modelled strings and is refused. *)

Module Json.

Local Open Scope char_scope.
Local Open Scope Z_scope.

(** JSON white space: space, tab, line feed, carriage return. *)
Definition is_ws (c : ascii) : bool :=
  let n := nat_of_ascii c in
  ((n =? 32) || (n =? 9) || (n =? 10) || (n =? 13))%nat.

Fixpoint skip_ws (s : string) : string :=
  match s with
  | String c s' => if is_ws c then skip_ws s' else s
  | EmptyString => EmptyString
  end.

Definition digit_of (c : ascii) : option Z :=
  let n := Z.of_nat (nat_of_ascii c) in
  if (48 <=? n) && (n <=? 57) then Some (n - 48) else None.

Definition hex_of (c : ascii) : option Z :=
  let n := Z.of_nat (nat_of_ascii c) in
  if (48 <=? n) && (n <=? 57) then Some (n - 48)
  else if (65 <=? n) && (n <=? 70) then Some (n - 55)
  else if (97 <=? n) && (n <=? 102) then Some (n - 87)
  else None.

(** The digits at the head of [s]: their value continuing [acc], how many
    there are, and the rest. *)
Fixpoint digits (s : string) (acc : Z) (count : nat) : Z * nat * string :=
  match s with
  | String c s' =>
      match digit_of c with
      | Some d => digits s' (10 * acc + d) (S count)
      | None => (acc, count, s)
      end
  | EmptyString => (acc, count, s)
  end.

(** Magnitudes from here on round to an infinity. *)
Definition overflow_threshold : Q := inject_Z (2 ^ 1024 - 2 ^ 970).

Definition to_num (q : Q) : JS.num :=
  if Qle_bool overflow_threshold (Qabs q)
  then (if Qle_bool 0 q then JS.PosInf else JS.NegInf)
  else JS.Fin (Qred q).

Definition scale (mantissa : Z) (exp10 : Z) : Q :=
  if 0 <=? exp10 then inject_Z (mantissa * 10 ^ exp10)
  else Qmake mantissa (Z.to_pos (10 ^ (- exp10))).

(** [-? int frac? exp?] *)
Definition parse_number (s : string) : option (JS.num * string) :=
  let '(neg, s1) := match s with
                    | String "-" r => (true, r)
                    | _ => (false, s)
                    end in
  let '(ipart, icount, s2) := digits s1 0 O in
  let leading_zero := match s1 with
                      | String "0" _ => true
                      | _ => false
                      end in
  if (icount =? 0)%nat || (leading_zero && (1 <? icount)%nat) then None
  else
    let frac := match s2 with
                | String "." r =>
                    let '(m, fcount, s3) := digits r ipart O in
                    if (fcount =? 0)%nat then None else Some (m, fcount, s3)
                | _ => Some (ipart, O, s2)
                end in
    match frac with
    | None => None
    | Some (mant, fcount, s3) =>
        let expo := match s3 with
                    | String e r =>
                        if Ascii.eqb e "e" || Ascii.eqb e "E" then
                          let '(eneg, r1) := match r with
                                             | String "-" r' => (true, r')
                                             | String "+" r' => (false, r')
                                             | _ => (false, r)
                                             end in
                          let '(ev, ecount, s4) := digits r1 0 O in
                          if (ecount =? 0)%nat then None
                          else Some ((if eneg then - ev else ev), s4)
                        else Some (0, s3)
                    | EmptyString => Some (0, s3)
                    end in
        match expo with
        | None => None
        | Some (ev, s4) =>
            let q := scale mant (ev - Z.of_nat fcount) in
            Some (to_num (if neg then Qopp q else q), s4)
        end
    end.

(** The characters of a string literal after its opening quote, up to
    the closing quote. *)
Fixpoint parse_string_body (s : string) : option (string * string) :=
  match s with
  | EmptyString => None
  | String c s' =>
      if Ascii.eqb c Text.dquote then Some (EmptyString, s')
      else if Ascii.eqb c "\" then
        match s' with
        | String e r =>
            let simple (d : ascii) :=
              match parse_string_body r with
              | Some (t, rest) => Some (String d t, rest)
              | None => None
              end in
            if Ascii.eqb e Text.dquote then simple Text.dquote
            else if Ascii.eqb e "\" then simple "\"
            else if Ascii.eqb e "/" then simple "/"
            else if Ascii.eqb e "b" then simple "008"
            else if Ascii.eqb e "f" then simple "012"
            else if Ascii.eqb e "n" then simple "010"
            else if Ascii.eqb e "r" then simple "013"
            else if Ascii.eqb e "t" then simple "009"
            else if Ascii.eqb e "u" then
              match r with
              | String h1 (String h2 (String h3 (String h4 r'))) =>
                  match hex_of h1, hex_of h2, hex_of h3, hex_of h4 with
                  | Some a, Some b, Some c', Some d =>
                      let code := 4096 * a + 256 * b + 16 * c' + d in
                      if code <? 256 then
                        match parse_string_body r' with
                        | Some (t, rest) =>
                            Some (String (ascii_of_nat (Z.to_nat code)) t, rest)
                        | None => None
                        end
                      else None
                  | _, _, _, _ => None
                  end
              | _ => None
              end
            else None
        | EmptyString => None
        end
      else if (nat_of_ascii c <? 32)%nat then None
      else
        match parse_string_body s' with
        | Some (t, rest) => Some (String c t, rest)
        | None => None
        end
  end.

(** Defining a property: a repeated key keeps its place and takes the
    later value. *)
Fixpoint obj_set (k : string) (v : JS.value) (props : list (string * JS.value))
  : list (string * JS.value) :=
  match props with
  | [] => [(k, v)]
  | (k', v') :: rest =>
      if String.eqb k k' then (k', v) :: rest else (k', v') :: obj_set k v rest
  end.

Definition literal (word : string) (v : JS.value) (s : string)
  : option (JS.value * string) :=
  if prefix word s then Some (v, Text.drop (String.length word) s) else None.

Fixpoint parse_value (fuel : nat) (s : string) : option (JS.value * string) :=
  match fuel with
  | O => None
  | S fuel' =>
      match skip_ws s with
      | EmptyString => None
      | String c r as s0 =>
          if Ascii.eqb c "{" then
            match skip_ws r with
            | String "}" r' => Some (JS.VObj [], r')
            | r0 => parse_members fuel' r0 []
            end
          else if Ascii.eqb c "[" then
            match skip_ws r with
            | String "]" r' => Some (JS.VArr [], r')
            | r0 => parse_elements fuel' r0 []
            end
          else if Ascii.eqb c Text.dquote then
            match parse_string_body r with
            | Some (t, rest) => Some (JS.VStr t, rest)
            | None => None
            end
          else if Ascii.eqb c "t" then literal "true" (JS.VBool true) s0
          else if Ascii.eqb c "f" then literal "false" (JS.VBool false) s0
          else if Ascii.eqb c "n" then literal "null" JS.VNull s0
          else
            match parse_number s0 with
            | Some (n, rest) => Some (JS.VNum n, rest)
            | None => None
            end
      end
  end

with parse_elements (fuel : nat) (s : string) (acc : list JS.value)
  : option (JS.value * string) :=
  match fuel with
  | O => None
  | S fuel' =>
      match parse_value fuel' s with
      | None => None
      | Some (v, r) =>
          match skip_ws r with
          | String "," r' => parse_elements fuel' r' (acc ++ [v])
          | String "]" r' => Some (JS.VArr (acc ++ [v]), r')
          | _ => None
          end
      end
  end

with parse_members (fuel : nat) (s : string) (acc : list (string * JS.value))
  : option (JS.value * string) :=
  match fuel with
  | O => None
  | S fuel' =>
      match skip_ws s with
      | String q r =>
          if Ascii.eqb q Text.dquote then
            match parse_string_body r with
            | None => None
            | Some (k, r1) =>
                match skip_ws r1 with
                | String ":" r2 =>
                    match parse_value fuel' r2 with
                    | None => None
                    | Some (v, r3) =>
                        match skip_ws r3 with
                        | String "," r4 => parse_members fuel' r4 (obj_set k v acc)
                        | String "}" r4 => Some (JS.VObj (obj_set k v acc), r4)
                        | _ => None
                        end
                    end
                | _ => None
                end
            end
          else None
      | EmptyString => None
      end
  end.

(** [JSON.parse(text)]; [None] stands for the [SyntaxError]. *)
Definition parse (text : string) : option JS.value :=
  match parse_value (2 * String.length text + 2) text with
  | Some (v, rest) =>
      match skip_ws rest with
      | EmptyString => Some v
      | _ => None
      end
  | None => None
  end.

End Json.

(* ===================================================================== *)
(** ** The LLM client service                                             *)
(* ===================================================================== *)

Record LLMConfig := {
  provider : string;
  model : string;
  temperature : JS.num;
  max_tokens : JS.num
}.

Definition DEFAULT_LLM_CONFIG : LLMConfig :=
  {| provider := "openai";
     model := "gpt-4o-mini";
     temperature := JS.Fin (1 # 10);
     max_tokens := JS.of_Z 1024 |}.

(** The user prompt handed to the provider.  Its text is a template
    filled from the input; the model keeps which of the two builders of
    [llm-prompts.ts] produced it, and from which input. *)
Inductive UserPrompt :=
| buildEvaluationPrompt (input : EvaluationInput)
| buildFallbackPrompt (input : EvaluationInput).

Definition EVALUATION_SYSTEM_PROMPT : string :=
"You are an expert technical interviewer and answer evaluator. Your task is to evaluate interview answers against a rubric with STRICT scoring rules.

CRITICAL RULES:
1. You MUST return ONLY valid JSON - no markdown, no explanations outside JSON
2. You MUST NOT exceed the max_score for any criterion
3. You MUST be objective and consistent
4. You MUST base scores ONLY on what the candidate wrote, not assumptions
5. final_score MUST equal the sum of all individual scores
6. Scores MUST be integers (whole numbers only)

SCORING PHILOSOPHY:
- Score based on demonstrated knowledge, not assumed knowledge
- Partial credit is encouraged when concepts are partially correct
- Missing information should reduce scores proportionally
- Incorrect information should significantly reduce scores
- Do not infer or assume the candidate knows more than what they wrote".

Record LLMProviderResponse := {
  content : string;
  usage : option TokenUsage;
  finishReason : option string
}.

(** What a [catch] clause receives: an [Error] with its message, or any
    other thrown value. *)
Inductive Thrown :=
| ErrorObject (message : string)
| OtherThrown.

(** How one call of a provider ends, as seen from the race against the
    deadline: it resolves in time, it rejects in time, or the deadline
    passes first. *)
Inductive ProviderBehaviour :=
| Responds (response : LLMProviderResponse)
| Throws (e : Thrown)
| DeadlineFirst.

(** A provider.  [call] is an oracle: its first argument is the number of
    calls made before this one within the evaluation, so that successive
    attempts may end differently. *)
Record LLMProvider := {
  name : string;
  call : nat -> string -> UserPrompt -> LLMConfig -> ProviderBehaviour
}.

(** The module-level registry [providers], a plain object: its own
    properties, the latest assignment first. *)
Definition Registry := list (string * LLMProvider).

(** The own property of the registry under a key. *)
Fixpoint own_property (providers : Registry) (nm : string) : option LLMProvider :=
  match providers with
  | [] => None
  | (k, p) :: rest => if String.eqb nm k then Some p else own_property rest nm
  end.

(** The members that a plain object inherits from [Object.prototype]:
    functions, and the object that [__proto__] reads.  Each of them is
    truthy. *)
Definition Object_prototype_members : list string :=
  ["constructor"; "__defineGetter__"; "__defineSetter__"; "hasOwnProperty";
   "__lookupGetter__"; "__lookupSetter__"; "isPrototypeOf";
   "propertyIsEnumerable"; "toString"; "valueOf"; "__proto__";
   "toLocaleString"].

(** What [providers[name]] finds when it is truthy: a provider that was
    stored under the key, or an inherited member. *)
Inductive Found :=
| Registered (p : LLMProvider)
| Inherited (member : string).

(** [registerProvider].  The assignment [providers[provider.name] =
    provider] makes an own property, except under the key [__proto__]:
    there it runs the inherited setter, which replaces the prototype of
    the registry.  The model of the registry does not follow that case and
    answers [None]. *)
Definition registerProvider (p : LLMProvider) (providers : Registry)
  : option Registry :=
  if String.eqb (name p) "__proto__" then None
  else Some ((name p, p) :: providers).

(** [getProvider]; [inr] is the thrown error.  The lookup goes through
    the prototype chain, and the test [!provider] lets an inherited member
    pass. *)
Definition getProvider (providers : Registry) (nm : string) : Found + Thrown :=
  match own_property providers nm with
  | Some p => inl (Registered p)
  | None =>
      if existsb (String.eqb nm) Object_prototype_members then inl (Inherited nm)
      else inr (ErrorObject ("Unknown LLM provider: " ++ nm))
  end.

Record EvaluationClientOptions := {
  opt_config : option LLMConfig;
  opt_maxRetries : option nat;
  opt_timeoutMs : option Z
}.

Record EvaluationClient := {
  config : LLMConfig;
  maxRetries : nat;
  timeoutMs : Z
}.

(** The constructor: [maxRetries ?? 2], [timeoutMs ?? 30000]. *)
Definition new_EvaluationClient (options : EvaluationClientOptions)
  : EvaluationClient :=
  {| config := match opt_config options with
               | Some c => c
               | None => DEFAULT_LLM_CONFIG
               end;
     maxRetries := match opt_maxRetries options with
                   | Some n => n
                   | None => 2%nat
                   end;
     timeoutMs := match opt_timeoutMs options with
                  | Some n => n
                  | None => 30000%Z
                  end |}.

Definition no_options : EvaluationClientOptions :=
  {| opt_config := None; opt_maxRetries := None; opt_timeoutMs := None |}.

(** The two clock readings of the source ([evaluation_timestamp],
    [processing_time_ms]) are not part of the model. *)
Record EvaluationMetadata := {
  model_used : string;
  model_version : string;
  token_usage : option TokenUsage;
  retry_count : nat
}.

Record EvaluationError := {
  code : string;
  error_message : string
}.

Record EvaluationResponse := {
  success : bool;
  resp_data : option EvaluationResult;
  resp_metadata : option EvaluationMetadata;
  resp_error : option EvaluationError
}.

(** How the promise returned by [evaluate] settles. *)
Inductive Completion :=
| Resolved (r : EvaluationResponse)
| Rejected (e : Thrown).

(** One run of [evaluate]: how it settled and the user prompts it sent to
    the provider, in order. *)
Record Run := {
  completion : Completion;
  sent : list UserPrompt
}.

(** The local variables of [evaluate] that the loop updates. *)
Record LoopState := {
  retryCount : nat;
  lastError : option string;
  tokenUsage : option TokenUsage;
  prompts : list UserPrompt
}.

(** How one iteration of the [while] loop ends. *)
Inductive Iteration :=
| Return (r : EvaluationResponse) (st : LoopState)
| Break (st : LoopState)
| Continue (st : LoopState).

(** [callWithTimeout]: the race of the provider's promise against the
    timer. *)
Definition callWithTimeout (b : ProviderBehaviour) : LLMProviderResponse + Thrown :=
  match b with
  | Responds r => inl r
  | Throws e => inr e
  | DeadlineFirst => inr (ErrorObject "Request timeout")
  end.

(** [e instanceof Error ? e.message : 'Unknown error']. *)
Definition message_of (e : Thrown) : string :=
  match e with
  | ErrorObject m => m
  | OtherThrown => "Unknown error"
  end.

(** [s || d] where [s] may be [undefined]. *)
Definition opt_or (s : option string) (d : string) : string :=
  match s with
  | Some m => str_or m d
  | None => d
  end.

Section Client.

Variable StringToNumber : string -> JS.num.
Variable NumberToString : JS.num -> string.
Variable JSON_parse : string -> option JS.value.

(** The message of a [TypeError], which the engine words. *)
Variable TypeError_message : TypeErrorSite -> string.

Variable client : EvaluationClient.
Variable the_provider : Found.
Variable input : EvaluationInput.

(** [provider.call(systemPrompt, userPrompt, config)], seen as the way the
    awaited call ends.  An inherited member is no provider.  Used as one,
    it has the attempt end in the [catch] clause with a [TypeError], and
    [tokenUsage] stays [undefined]: [__proto__] reads an object without a
    [call]; [__defineGetter__] and [__defineSetter__] refuse the
    configuration as an accessor function; [__lookupGetter__] and
    [__lookupSetter__] return [undefined], whose [usage] cannot be read;
    the other members are functions that return a text, a truth value or
    a wrapped text, whose [usage] and [content] are [undefined], and the
    recoverer calls [match] on that content. *)
Definition provider_call (k : nat) (systemPrompt : string)
  (userPrompt : UserPrompt) (llmConfig : LLMConfig) : ProviderBehaviour :=
  match the_provider with
  | Registered p => call p k systemPrompt userPrompt llmConfig
  | Inherited member =>
      Throws (ErrorObject (TypeError_message (InheritedMember member)))
  end.

Definition metadata_at (st : LoopState) : EvaluationMetadata :=
  {| model_used := provider (config client);
     model_version := model (config client);
     token_usage := tokenUsage st;
     retry_count := retryCount st |}.

(** The body of the [while] loop, [try] and [catch] included. *)
Definition iteration (st : LoopState) : Iteration :=
  (* Build prompt (use fallback on retry) *)
  let userPrompt := if (retryCount st =? 0)%nat
                    then buildEvaluationPrompt input
                    else buildFallbackPrompt input in
  let st_called := {| retryCount := retryCount st;
                      lastError := lastError st;
                      tokenUsage := tokenUsage st;
                      prompts := prompts st ++ [userPrompt] |} in
  (* Call LLM with timeout *)
  match callWithTimeout
          (provider_call (List.length (prompts st))
             EVALUATION_SYSTEM_PROMPT userPrompt (config client)) with
  | inr error =>
      (* catch *)
      Continue {| retryCount := S (retryCount st);
                  lastError := Some (message_of error);
                  tokenUsage := tokenUsage st;
                  prompts := prompts st_called |}
  | inl llmResponse =>
      let st_usage := {| retryCount := retryCount st;
                         lastError := lastError st;
                         tokenUsage := usage llmResponse;
                         prompts := prompts st_called |} in
      (* Validate response *)
      match validateEvaluationResult StringToNumber NumberToString JSON_parse
              (content llmResponse) None with
      | Threw site =>
          (* catch *)
          Continue {| retryCount := S (retryCount st);
                      lastError := Some (message_of (ErrorObject (TypeError_message site)));
                      tokenUsage := usage llmResponse;
                      prompts := prompts st_called |}
      | Returned validation =>
          match isValid validation, data validation with
          | true, Some d =>
              Return {| success := true;
                        resp_data := Some d;
                        resp_metadata := Some (metadata_at st_usage);
                        resp_error := None |} st_usage
          | _, _ =>
              (* Determine recovery strategy *)
              match determineRecoveryStrategy validation (retryCount st) with
              | USE_DEFAULT_SCORES => Break st_usage
              | _ =>
                  Continue {| retryCount := S (retryCount st);
                              lastError :=
                                Some (str_or match errors validation with
                                             | e :: _ => err_message e
                                             | [] => EmptyString
                                             end "Validation failed");
                              tokenUsage := usage llmResponse;
                              prompts := prompts st_called |}
              end
          end
      end
  end.

(** The statement after the loop: all retries exhausted. *)
Definition exhausted (st : LoopState) : EvaluationResponse :=
  {| success := false;
     resp_data :=
       Some (getDefaultEvaluationResult (opt_or (lastError st) "Evaluation failed"));
     resp_metadata := Some (metadata_at st);
     resp_error :=
       Some {| code := "EVALUATION_FAILED";
               error_message :=
                 opt_or (lastError st) "Failed to evaluate answer after retries" |} |}.

(** The [while (retryCount <= this.maxRetries)] loop.  [fuel] bounds the
    number of iterations; [None] means the bound was reached with the loop
    still running. *)
Fixpoint loop (fuel : nat) (st : LoopState) : option (EvaluationResponse * LoopState) :=
  if (retryCount st <=? maxRetries client)%nat then
    match fuel with
    | O => None
    | S fuel' =>
        match iteration st with
        | Return r st' => Some (r, st')
        | Break st' => Some (exhausted st', st')
        | Continue st' => loop fuel' st'
        end
    end
  else Some (exhausted st, st).

Definition initial_state : LoopState :=
  {| retryCount := 0; lastError := None; tokenUsage := None; prompts := [] |}.

End Client.

(** [EvaluationClient.evaluate]: the provider is looked up first, outside
    any [try]; the loop follows.  The loop can run [maxRetries + 1] times. *)
Definition evaluate (StringToNumber : string -> JS.num)
  (NumberToString : JS.num -> string)
  (JSON_parse : string -> option JS.value)
  (TypeError_message : TypeErrorSite -> string)
  (providers : Registry) (client : EvaluationClient) (input : EvaluationInput)
  : option Run :=
  match getProvider providers (provider (config client)) with
  | inr e => Some {| completion := Rejected e; sent := [] |}
  | inl p =>
      match loop StringToNumber NumberToString JSON_parse TypeError_message
                 client p input (S (maxRetries client)) initial_state with
      | Some (r, st) => Some {| completion := Resolved r; sent := prompts st |}
      | None => None
      end
  end.

(* ===================================================================== *)
(** ** The evaluate-answer edge function: scoring block                   *)
(* ===================================================================== *)

(** The numbers of the scoring block are doubles: IEEE 754 binary64, as
    [SpecFloat] of the Standard Library specifies its operations. *)
Module F64.

Local Open Scope Z_scope.

Definition prec : Z := 53.
Definition emax : Z := 1024.

(** The double nearest to a rational, ties to even: what reading a
    decimal literal gives.  The quotient is taken with more than 53
    significant bits below every exponent of the format, and its last bit
    records whether the division left a remainder. *)
Definition of_Q (q : Q) : spec_float :=
  let n := Qnum q in
  let d := Zpos (Qden q) in
  if n =? 0 then S754_zero false
  else
    let k := 1140 + Z.log2 d in
    let m := (Z.abs n * 2 ^ k) / d in
    let sticky := if (Z.abs n * 2 ^ k) mod d =? 0 then 0 else 1 in
    binary_normalize prec emax (Z.sgn n * (2 * m + sticky)) (- k - 1) false.

Definition of_num (n : JS.num) : spec_float :=
  match n with
  | JS.NaN => S754_nan
  | JS.PosInf => S754_infinity false
  | JS.NegInf => S754_infinity true
  | JS.Fin q => of_Q q
  end.

(** The value of a double. *)
Definition to_num (x : spec_float) : JS.num :=
  match x with
  | S754_nan => JS.NaN
  | S754_infinity false => JS.PosInf
  | S754_infinity true => JS.NegInf
  | S754_zero _ => JS.of_Z 0
  | S754_finite s m e =>
      let v := if 0 <=? e then inject_Z (Zpos m * 2 ^ e)
               else Qmake (Zpos m) (Z.to_pos (2 ^ (- e))) in
      JS.Fin (if s then Qopp v else v)
  end.

Definition mul (a b : spec_float) : spec_float := SFmul prec emax a b.
Definition add (a b : spec_float) : spec_float := SFadd prec emax a b.

(** [Math.min(a, b)]. *)
Definition min (a b : spec_float) : spec_float :=
  match SFcompare b a with
  | None => S754_nan
  | Some Lt => b
  | Some _ => a
  end.

End F64.

Section EdgeFunction.

Variable StringToNumber : string -> JS.num.

(** [rubric?.k ?? d]. *)
Definition weight_of (rubric : JS.value) (k : string) (d : JS.num) : JS.value :=
  JS.coalesce (if JS.nullish rubric then JS.VUndefined else JS.get rubric k)
              (JS.VNum d).

(** [Number(parsed.k) || 0]; [None] is a [TypeError]: the property of
    [null] cannot be read, or the conversion throws. *)
Definition criterion_of (parsed : JS.value) (k : string) : option JS.num :=
  if JS.nullish parsed then None
  else match JS.ToNumber StringToNumber (JS.get parsed k) with
       | Some n => Some (JS.num_or n (JS.of_Z 0))
       | None => None
       end.

(** [x * w], where the weight is converted to a number first. *)
Definition times (x : JS.num) (w : JS.value) : option spec_float :=
  match JS.ToNumber StringToNumber w with
  | Some y => Some (F64.mul (F64.of_num x) (F64.of_num y))
  | None => None
  end.

(** [rawScore]: the weighted sum, in doubles. *)
Definition rawScore (parsed rubric : JS.value) : option spec_float :=
  match criterion_of parsed "concept_accuracy" with None => None | Some concept =>
  match criterion_of parsed "clarity" with None => None | Some clarity =>
  match criterion_of parsed "example_usage" with None => None | Some example =>
  match criterion_of parsed "edge_cases" with None => None | Some edge =>
  let weights_concept_accuracy := weight_of rubric "concept_accuracy" (JS.Fin (4 # 10)) in
  let weights_clarity := weight_of rubric "clarity" (JS.Fin (3 # 10)) in
  let weights_example_usage := weight_of rubric "example_usage" (JS.Fin (2 # 10)) in
  let weights_edge_cases := weight_of rubric "edge_cases" (JS.Fin (1 # 10)) in
  match times concept weights_concept_accuracy with None => None | Some a =>
  match times clarity weights_clarity with None => None | Some b =>
  match times example weights_example_usage with None => None | Some c =>
  match times edge weights_edge_cases with None => None | Some d =>
  Some (F64.add (F64.add (F64.add a b) c) d)
  end end end end end end end end.

(** [finalScore]; [None] when the block throws. *)
Definition finalScore (parsed rubric : JS.value) : option JS.num :=
  match rawScore parsed rubric with
  | None => None
  | Some raw =>
      let normalized := F64.min raw (F64.of_num (JS.of_Z 1)) in
      Some (JS.round (F64.to_num (F64.mul normalized (F64.of_num (JS.of_Z 10)))))
  end.

End EdgeFunction.

(* ===================================================================== *)
(** ** Token estimation (llm-prompts.ts)                                  *)
(* ===================================================================== *)

(** [Math.ceil(text.length / 4)]. *)
Definition estimateTokenCount (text : string) : JS.num :=
  JS.ceil (JS.div (JS.of_nat (String.length text)) (JS.of_Z 4)).

(* ===================================================================== *)
(** ** The face analysis helper: frame counters                           *)
(* ===================================================================== *)

Module Face.

Record BoundingBox := { xCenter : JS.num; yCenter : JS.num }.

(** What the detector reports for a frame: the bounding boxes of the
    detections, in order. *)
Record Results := { detections : list BoundingBox }.

(** The four module-level counters. *)
Record Counters := {
  faceDetectedFrames : nat;
  centeredFrames : nat;
  stableFrames : nat;
  totalFrames : nat
}.

Definition initial : Counters :=
  {| faceDetectedFrames := 0; centeredFrames := 0;
     stableFrames := 0; totalFrames := 0 |}.

(** The callback registered with [onResults]. *)
Definition onResults (results : Results) (c : Counters) : Counters :=
  let total := S (totalFrames c) in
  match detections results with
  | [] =>
      {| faceDetectedFrames := faceDetectedFrames c;
         centeredFrames := centeredFrames c;
         stableFrames := stableFrames c;
         totalFrames := total |}
  | box :: _ =>
      let centerX := xCenter box in
      let centerY := yCenter box in
      let centered :=
        JS.gt centerX (JS.Fin (4 # 10)) && JS.lt centerX (JS.Fin (6 # 10)) &&
        JS.gt centerY (JS.Fin (3 # 10)) && JS.lt centerY (JS.Fin (7 # 10)) in
      {| faceDetectedFrames := S (faceDetectedFrames c);
         centeredFrames := if centered then S (centeredFrames c)
                           else centeredFrames c;
         stableFrames := S (stableFrames c);
         totalFrames := total |}
  end.

(** The counters after the callback has run on each of the frames. *)
Definition after_frames (frames : list Results) (c : Counters) : Counters :=
  fold_left (fun acc r => onResults r acc) frames c.

End Face.

(* ===================================================================== *)
(** ** Vocabulary of the properties                                       *)
(* ===================================================================== *)

(** [n] is the integer [z]. *)
Definition is_int (n : JS.num) (z : Z) : Prop :=
  match n with
  | JS.Fin q => q == inject_Z z
  | _ => False
  end.

(** [n] is an integer of the range [[lo, hi]]. *)
Definition int_in (lo hi : Z) (n : JS.num) : Prop :=
  exists z, is_int n z /\ (lo <= z <= hi)%Z.

(** The sum of the four criterion scores of a result, added in the order
    of the source. *)
Definition criteria_sum (r : EvaluationResult) : JS.num :=
  JS.add (JS.add (JS.add (concept_accuracy r) (example_usage r)) (edge_cases r))
         (clarity r).

(** Rounding, where the number is not an integer already. *)
Definition nearest_integer (n : JS.num) : JS.num :=
  if JS.isInteger n then n else JS.round n.

(** Clamping into the bounds of a field. *)
Definition clamp (b : Bounds) (n : JS.num) : JS.num :=
  if JS.lt n (JS.of_Z (bmin b)) then JS.of_Z (bmin b)
  else if JS.gt n (JS.of_Z (bmax b)) then JS.of_Z (bmax b)
  else n.

(** The repaired value of a criterion, in the words of the specification:
    round, then clamp. *)
Definition repaired_score (f : ScoreField) (n : JS.num) : JS.num :=
  clamp (SCORE_BOUNDS f) (nearest_integer n).

(** [n] lies outside the bounds of [f]. *)
Definition out_of_bounds (f : ScoreField) (n : JS.num) : bool :=
  JS.lt n (JS.of_Z (bmin (SCORE_BOUNDS f))) ||
  JS.gt n (JS.of_Z (bmax (SCORE_BOUNDS f))).

(** The four criteria. *)
Definition is_criterion (f : ScoreField) : bool :=
  match f with F_final_score => false | _ => true end.

(** The criterion score of a result, by field. *)
Definition score_in (r : EvaluationResult) (f : ScoreField) : JS.num :=
  match f with
  | F_concept_accuracy => concept_accuracy r
  | F_example_usage => example_usage r
  | F_edge_cases => edge_cases r
  | F_clarity => clarity r
  | F_final_score => final_score r
  end.

(** A structurally valid [EvaluationResult]: four integer criterion scores
    within their bounds, and a final score that is their sum, hence an
    integer between 0 and 10. *)
Definition well_formed (r : EvaluationResult) : Prop :=
  int_in 0 4 (concept_accuracy r) /\
  int_in 0 3 (example_usage r) /\
  int_in 0 2 (edge_cases r) /\
  int_in 0 1 (clarity r) /\
  final_score r = criteria_sum r /\
  int_in 0 10 (final_score r).

Definition text_fields : list string := ["overall_feedback"; "improvement_tips"].

(** The text of a result, by field name. *)
Definition text_in (r : EvaluationResult) (field : string) : string :=
  if String.eqb field "overall_feedback" then overall_feedback r
  else improvement_tips r.

Definition has_error (field message : string) (es : list ValidationError) : Prop :=
  exists e, In e es /\ err_field e = field /\ err_message e = message.

Definition has_warning (field message : string) (ws : list ValidationWarning) : Prop :=
  exists w, In w ws /\ warn_field w = field /\ warn_message w = message.

Definition no_error_on (field : string) (es : list ValidationError) : Prop :=
  forall e, In e es -> err_field e <> field.

Definition no_warning_on (field : string) (ws : list ValidationWarning) : Prop :=
  forall w, In w ws -> warn_field w <> field.

Section Vocabulary.

Variable StringToNumber : string -> JS.num.

(** The value is present and coerces to a number.  (A value whose
    conversion throws does not: [JS.number_of] reads it as [NaN].) *)
Definition numeric (v : JS.value) : bool :=
  negb (JS.nullish v) && negb (JS.isNaN (JS.number_of StringToNumber v)).

(** All four criterion fields of the parsed value are present and numeric. *)
Definition all_numeric (parsed : JS.value) : bool :=
  numeric (JS.get parsed "concept_accuracy") &&
  numeric (JS.get parsed "example_usage") &&
  numeric (JS.get parsed "edge_cases") &&
  numeric (JS.get parsed "clarity").

(** The criterion value of the parsed object, coerced and repaired; 0
    where it is missing or not a number. *)
Definition criterion_score (parsed : JS.value) (f : ScoreField) : JS.num :=
  let v := JS.get parsed (field_name f) in
  if numeric v then repaired_score f (JS.number_of StringToNumber v)
  else JS.of_Z 0.

(** The response provides a final score that is a number and differs
    from the computed sum. *)
Definition provided_disagrees (parsed : JS.value) (sum : JS.num) : bool :=
  match JS.get parsed "final_score" with
  | JS.VUndefined => false
  | provided =>
      negb (JS.isNaN (JS.number_of StringToNumber provided)) &&
      negb (JS.strict_eq (JS.number_of StringToNumber provided) sum)
  end.

End Vocabulary.

(** Every field that the validator converts does convert to a primitive:
    none is an object with an own [toString], or an array that holds
    one. *)
Definition fields_convert (parsed : JS.value) : bool :=
  forallb (fun k => JS.convertible (JS.get parsed k)) requiredFields.

(** Every conversion of the scoring block of the edge function succeeds:
    the four criteria and the four weights convert to a primitive. *)
Definition scoring_converts (parsed rubric : JS.value) : bool :=
  forallb (fun k => JS.convertible (JS.get parsed k)) critical_fields &&
  forallb (fun k => JS.convertible (weight_of rubric k (JS.of_Z 0))) critical_fields.

(** The response reaches a conversion that throws: it parses to a truthy
    value, one of whose fields does not convert. *)
Definition reaches_throw (JSON_parse : string -> option JS.value)
  (raw : string) : bool :=
  match parseEvaluationResponse JSON_parse raw with
  | ParseOk parsed => JS.truthy parsed && negb (fields_convert parsed)
  | ParseFail _ => false
  end.

(** Appending what a computation pushed to the arrays it started from. *)
Definition log_app (l d : Log) : Log :=
  {| log_errors := log_errors l ++ log_errors d;
     log_warnings := log_warnings l ++ log_warnings d |}.

(** A computation only appends to the arrays: started from any arrays it
    returns what it returns from empty ones, and pushes the same entries. *)
Definition appends_only {A} (m : Logged A) : Prop :=
  forall l, m l = (fst (m empty_log), log_app l (snd (m empty_log))).

(** The prompt of the attempt made at retry count [k], and the prompts of
    the first [n] attempts. *)
Definition prompt_at (input : EvaluationInput) (k : nat) : UserPrompt :=
  if (k =? 0)%nat then buildEvaluationPrompt input else buildFallbackPrompt input.

Definition prompts_upto (input : EvaluationInput) (n : nat) : list UserPrompt :=
  map (prompt_at input) (seq 0 n).

(** Every call of the provider ends in the [catch] clause: it rejects or
    the deadline passes first. *)
Definition always_fails (TypeError_message : TypeErrorSite -> string)
  (p : Found) : Prop :=
  forall k sys up cfg,
    exists e, callWithTimeout (provider_call TypeError_message p k sys up cfg) = inr e.

(** A response as the caller may receive it from the loop in state [st]:
    data that is well formed, the metadata of the state, and on failure
    the default response built after the loop. *)
Definition acceptable (client : EvaluationClient) (r : EvaluationResponse)
  (st : LoopState) : Prop :=
  (exists d, resp_data r = Some d /\ well_formed d) /\
  resp_metadata r = Some (metadata_at client st) /\
  (success r = true -> resp_error r = None) /\
  (success r = false -> r = exhausted client st).

(** A character occurs in a text. *)
Fixpoint occurs (c : ascii) (s : string) : Prop :=
  match s with
  | EmptyString => False
  | String d s' => d = c \/ occurs c s'
  end.

(** The array has an entry. *)
Definition any_entry {A} (l : list A) : bool :=
  match l with
  | [] => false
  | _ :: _ => true
  end.

(** Every call of the provider resolves in time with a text that the
    validator does not accept. *)
Definition always_invalid (StringToNumber : string -> JS.num)
  (NumberToString : JS.num -> string) (JSON_parse : string -> option JS.value)
  (p : LLMProvider) : Prop :=
  forall k sys up cfg, exists resp v,
    call p k sys up cfg = Responds resp /\
    validateEvaluationResult StringToNumber NumberToString JSON_parse
      (content resp) None = Returned v /\
    isValid v = false.

(** The value is an object or an array, on which [in] is defined. *)
Definition is_object_like (v : JS.value) : bool :=
  match v with
  | JS.VObj _ | JS.VArr _ => true
  | _ => false
  end.

(** *** Sample runtime and inputs *)

(** A runtime in which no text reads as a number and every number prints
    as one sign: enough to run the code on the sample inputs, which carry
    their numbers as numbers. *)
Definition sample_StringToNumber : string -> JS.num := fun _ => JS.NaN.
Definition sample_NumberToString : JS.num -> string := fun _ => "#".
Definition sample_TypeError_message : TypeErrorSite -> string :=
  fun site => match site with
              | ToPrimitive => "Cannot convert object to primitive value"
              | InheritedMember _ => "provider.call is not a function"
              end.

(** Writes a text whose double quotes are typed as single quotes. *)
Definition quoted (s : string) : string :=
  Text.map_chars (fun c => if Ascii.eqb c "'"%char then Text.dquote else c) s.

Definition newline : string := String "010"%char EmptyString.

(** The sample response of the specification, in its three encodings. *)
Definition sample_bare : string :=
  quoted "{'concept_accuracy':3,'example_usage':2,'edge_cases':1,'clarity':1,'final_score':7,'overall_feedback':'ok','improvement_tips':'ok'}".

Definition sample_fenced : string :=
  "Sure! Here is the result:" ++ newline ++ "```json" ++ newline ++
  sample_bare ++ newline ++ "```" ++ newline ++ "Let me know if you need more.".

Definition sample_sloppy : string :=
  "{'concept_accuracy':3,'example_usage':2,'edge_cases':1,'clarity':1,'final_score':7,'overall_feedback':'ok','improvement_tips':'ok',}".

Definition sample_object : JS.value :=
  JS.VObj [("concept_accuracy", JS.VNum (JS.of_Z 3));
           ("example_usage", JS.VNum (JS.of_Z 2));
           ("edge_cases", JS.VNum (JS.of_Z 1));
           ("clarity", JS.VNum (JS.of_Z 1));
           ("final_score", JS.VNum (JS.of_Z 7));
           ("overall_feedback", JS.VStr "ok");
           ("improvement_tips", JS.VStr "ok")].

(** Scenario B: a concept score of 7 against a maximum of 4. *)
Definition sample_over : string :=
  quoted "{'concept_accuracy':7,'example_usage':2,'edge_cases':1,'clarity':1,'final_score':11,'overall_feedback':'ok','improvement_tips':'ok'}".

(** A response without the field [overall_feedback]. *)
Definition sample_no_feedback : string :=
  quoted "{'concept_accuracy':3,'example_usage':2,'edge_cases':1,'clarity':1,'final_score':7,'improvement_tips':'ok'}".

(** A response of the weighted scheme, and the rubric of a question in the
    shape of [EvaluationRubric] (question.types.ts). *)
Definition sample_weighted : JS.value :=
  JS.VObj [("concept_accuracy", JS.VNum (JS.Fin (8 # 10)));
           ("example_usage", JS.VNum (JS.Fin (5 # 10)));
           ("edge_cases", JS.VNum (JS.Fin (5 # 10)));
           ("clarity", JS.VNum (JS.Fin (9 # 10)));
           ("overall_feedback", JS.VStr "ok");
           ("improvement_tips", JS.VStr "ok")].

Definition sample_rubric : JS.value :=
  let c (m : Z) := JS.VObj [("max_score", JS.VNum (JS.of_Z m));
                            ("weight_description", JS.VStr "weight")] in
  JS.VObj [("concept_accuracy", c 4%Z); ("example_usage", c 3%Z);
           ("edge_cases", c 2%Z); ("clarity", c 1%Z)].

(** A response of the weighted scheme whose weighted sum is one quarter. *)
Definition sample_quarter : JS.value :=
  JS.VObj [("concept_accuracy", JS.VNum (JS.of_Z 0));
           ("clarity", JS.VNum (JS.Fin (5 # 10)));
           ("example_usage", JS.VNum (JS.Fin (35 # 100)));
           ("edge_cases", JS.VNum (JS.Fin (3 # 10)))].

(** A response of the weighted scheme with a negative criterion. *)
Definition sample_negative : JS.value :=
  JS.VObj [("concept_accuracy", JS.VNum (JS.of_Z (-5)));
           ("example_usage", JS.VNum (JS.of_Z 0));
           ("edge_cases", JS.VNum (JS.of_Z 0));
           ("clarity", JS.VNum (JS.of_Z 0))].

(** A response whose final score is an object with a property
    [toString]. *)
Definition sample_final_object : string :=
  quoted "{'concept_accuracy':3,'example_usage':2,'edge_cases':1,'clarity':1,'final_score':{'toString':1},'overall_feedback':'ok','improvement_tips':'ok'}".

(** A response without the field [clarity]. *)
Definition sample_no_clarity : string :=
  quoted "{'concept_accuracy':3,'example_usage':2,'edge_cases':1,'final_score':6,'overall_feedback':'ok','improvement_tips':'ok'}".

(** The validated data of the sample response. *)
Definition sample_result : EvaluationResult :=
  {| concept_accuracy := JS.of_Z 3; example_usage := JS.of_Z 2;
     edge_cases := JS.of_Z 1; clarity := JS.of_Z 1;
     final_score :=
       JS.add (JS.add (JS.add (JS.of_Z 3) (JS.of_Z 2)) (JS.of_Z 1)) (JS.of_Z 1);
     overall_feedback := "ok"; improvement_tips := "ok" |}.

Definition sample_input : EvaluationInput :=
  let c (m : Z) := {| max_score := JS.of_Z m; weight_description := "weight" |} in
  {| question_text := "What is a closure?";
     ideal_answer := "A function together with its lexical environment.";
     rubric := {| rubric_concept_accuracy := c 4%Z;
                  rubric_example_usage := c 3%Z;
                  rubric_edge_cases := c 2%Z;
                  rubric_clarity := c 1%Z |};
     user_answer := "A function that remembers variables." |}.

(** A provider that gives the same behaviour on every call. *)
Definition constant_provider (b : ProviderBehaviour) : LLMProvider :=
  {| name := "openai"; call := fun _ _ _ _ => b |}.

Definition text_response (s : string) : ProviderBehaviour :=
  Responds {| content := s; usage := None; finishReason := None |}.

Definition default_client : EvaluationClient := new_EvaluationClient no_options.

(* ===================================================================== *)
(** ** Numbers                                                            *)
(* ===================================================================== *)

Section NumberFacts.

Lemma isInteger_is_int (q : Q) :
  JS.isInteger (JS.Fin q) = true ->
  is_int (JS.Fin q) (Qnum q / Zpos (Qden q)).
Proof.
  destruct q as [a d]. simpl. intros H.
  apply Z.eqb_eq in H.
  unfold Qeq. simpl.
  rewrite Z.mul_1_r.
  rewrite (Z.div_mod a (Zpos d)) at 1 by discriminate.
  rewrite H. ring.
Qed.

Lemma round_is_int (q : Q) :
  is_int (JS.round (JS.Fin q)) (Qfloor (q + (1 # 2))).
Proof. simpl. reflexivity. Qed.

Lemma nearest_integer_is_int (q : Q) :
  exists z, is_int (nearest_integer (JS.Fin q)) z.
Proof.
  unfold nearest_integer.
  destruct (JS.isInteger (JS.Fin q)) eqn:E.
  - eexists. apply isInteger_is_int, E.
  - eexists. apply round_is_int.
Qed.

Lemma of_Z_is_int (z : Z) : is_int (JS.of_Z z) z.
Proof. simpl. reflexivity. Qed.

Lemma lt_of_Z_false (n : JS.num) (z lo : Z) :
  is_int n z -> JS.lt n (JS.of_Z lo) = false -> (lo <= z)%Z.
Proof.
  destruct n as [| | |q]; simpl; try contradiction.
  intros Hq H. apply negb_false_iff, Qle_bool_iff in H.
  rewrite Hq in H. rewrite <- Zle_Qle in H. exact H.
Qed.

Lemma gt_of_Z_false (n : JS.num) (z hi : Z) :
  is_int n z -> JS.gt n (JS.of_Z hi) = false -> (z <= hi)%Z.
Proof.
  destruct n as [| | |q]; simpl; try contradiction.
  intros Hq H. apply negb_false_iff, Qle_bool_iff in H.
  rewrite Hq in H. rewrite <- Zle_Qle in H. exact H.
Qed.

Lemma gt_of_Z_of_Z (a b : Z) : (a <= b)%Z -> JS.gt (JS.of_Z a) (JS.of_Z b) = false.
Proof.
  intros H. unfold JS.gt, JS.of_Z. simpl.
  apply negb_false_iff, Qle_bool_iff. rewrite <- Zle_Qle. exact H.
Qed.

Lemma lt_of_Z_of_Z (a b : Z) : (b <= a)%Z -> JS.lt (JS.of_Z a) (JS.of_Z b) = false.
Proof.
  intros H. unfold JS.of_Z. simpl.
  apply negb_false_iff, Qle_bool_iff. rewrite <- Zle_Qle. exact H.
Qed.

(** Clamping a number that is not [NaN], after rounding, gives an integer
    within the bounds. *)
Lemma clamp_nearest_in_bounds (b : Bounds) (n : JS.num) :
  (bmin b <= bmax b)%Z ->
  JS.isNaN n = false ->
  int_in (bmin b) (bmax b) (clamp b (nearest_integer n)).
Proof.
  intros Hb Hn. unfold clamp.
  destruct (JS.lt (nearest_integer n) (JS.of_Z (bmin b))) eqn:Elo.
  { exists (bmin b). split; [apply of_Z_is_int | lia]. }
  destruct (JS.gt (nearest_integer n) (JS.of_Z (bmax b))) eqn:Ehi.
  { exists (bmax b). split; [apply of_Z_is_int | lia]. }
  destruct n as [| | |q]; try discriminate.
  destruct (nearest_integer_is_int q) as [z Hz].
  exists z. split; [exact Hz|].
  split; [eapply lt_of_Z_false | eapply gt_of_Z_false]; eauto.
Qed.

Lemma bounds_ordered (f : ScoreField) :
  (bmin (SCORE_BOUNDS f) <= 0 <= bmax (SCORE_BOUNDS f))%Z.
Proof. destruct f; simpl; lia. Qed.

Lemma repaired_score_in_bounds (f : ScoreField) (n : JS.num) :
  JS.isNaN n = false ->
  int_in (bmin (SCORE_BOUNDS f)) (bmax (SCORE_BOUNDS f)) (repaired_score f n).
Proof.
  intros Hn. apply clamp_nearest_in_bounds; [|exact Hn].
  pose proof (bounds_ordered f). lia.
Qed.

Lemma add_is_int (a b : JS.num) (x y : Z) :
  is_int a x -> is_int b y -> is_int (JS.add a b) (x + y).
Proof.
  destruct a as [| | |p], b as [| | |q]; simpl; try contradiction.
  intros Hp Hq. rewrite Hp, Hq, inject_Z_plus. reflexivity.
Qed.

Lemma add_int_in (a b : JS.num) (la ha lb hb : Z) :
  int_in la ha a -> int_in lb hb b -> int_in (la + lb) (ha + hb) (JS.add a b).
Proof.
  intros [x [Hx ?]] [y [Hy ?]]. exists (x + y)%Z.
  split; [apply add_is_int; assumption | lia].
Qed.

End NumberFacts.

(* ===================================================================== *)
(** ** The helpers only append to the arrays                              *)
(* ===================================================================== *)

Create HintDb logged discriminated.

Lemma log_app_empty_l (d : Log) : log_app empty_log d = d.
Proof. destruct d; reflexivity. Qed.

Lemma log_app_empty_r (l : Log) : log_app l empty_log = l.
Proof. destruct l; unfold log_app; simpl; rewrite !app_nil_r; reflexivity. Qed.

Lemma log_app_assoc (a b c : Log) :
  log_app (log_app a b) c = log_app a (log_app b c).
Proof. unfold log_app; simpl; rewrite !app_assoc; reflexivity. Qed.

Lemma appends_only_ret {A} (a : A) : appends_only (ret a).
Proof. intros l. unfold ret. simpl. rewrite log_app_empty_r. reflexivity. Qed.

Lemma appends_only_push_error (e : ValidationError) : appends_only (push_error e).
Proof.
  intros l. unfold push_error, log_app. simpl. rewrite app_nil_r. reflexivity.
Qed.

Lemma appends_only_push_warning (w : ValidationWarning) :
  appends_only (push_warning w).
Proof.
  intros l. unfold push_warning, log_app. simpl. rewrite app_nil_r. reflexivity.
Qed.

Lemma appends_only_bind {A B} (m : Logged A) (k : A -> Logged B) :
  appends_only m -> (forall a, appends_only (k a)) -> appends_only (bind m k).
Proof.
  intros Hm Hk l. unfold bind.
  rewrite (Hm l).
  destruct (m empty_log) as [a d] eqn:E. simpl.
  rewrite (Hk a (log_app l d)), (Hk a d).
  simpl. rewrite log_app_assoc. reflexivity.
Qed.

Lemma appends_only_if {A} (c : bool) (m1 m2 : Logged A) :
  appends_only m1 -> appends_only m2 -> appends_only (if c then m1 else m2).
Proof. destruct c; auto. Qed.

#[local] Hint Resolve appends_only_ret appends_only_push_error
  appends_only_push_warning appends_only_if : logged.
#[local] Hint Extern 2 (appends_only (bind _ _)) =>
  apply appends_only_bind; [| intro] : logged.

Section HelpersAppend.

Variable StringToNumber : string -> JS.num.
Variable NumberToString : JS.num -> string.

Lemma validateAndRepairScore_appends (v : JS.value) (f : ScoreField) :
  appends_only (validateAndRepairScore_total StringToNumber NumberToString v f).
Proof.
  unfold validateAndRepairScore_total.
  repeat (apply appends_only_if); auto 10 with logged.
Qed.

Lemma validateStringField_appends (v : JS.value) (field : string) (n : nat) :
  appends_only (validateStringField_total NumberToString v field n).
Proof.
  unfold validateStringField_total.
  repeat (apply appends_only_if); auto 10 with logged.
Qed.

End HelpersAppend.

(* ===================================================================== *)
(** ** Score repair                                                       *)
(* ===================================================================== *)

Section ScoreRepair.

Variable StringToNumber : string -> JS.num.
Variable NumberToString : JS.num -> string.

Local Abbreviation to_number := (JS.number_of StringToNumber).
Local Abbreviation repair := (validateAndRepairScore_total StringToNumber NumberToString).
Local Abbreviation is_numeric := (numeric StringToNumber).

#[local] Opaque JS.lt JS.gt JS.of_Z JS.round JS.isInteger String.append.

Lemma coercion_is_number_of (v : JS.value) :
  match v with JS.VNum n => n | _ => to_number v end = to_number v.
Proof. destruct v; reflexivity. Qed.

(** A value that is missing or does not coerce to a number: one error on
    the field, the score 0, no warning. *)
Lemma validateAndRepairScore_not_numeric (v : JS.value) (f : ScoreField) :
  is_numeric v = false ->
  exists e,
    repair v f empty_log =
      ({| score := JS.of_Z 0; scoreRepaired := true |},
       {| log_errors := [e]; log_warnings := [] |}) /\
    err_field e = field_name f /\
    (err_message e = "Missing required field" \/ err_message e = "Invalid number").
Proof.
  unfold numeric, validateAndRepairScore_total. intros H.
  rewrite coercion_is_number_of.
  destruct (JS.nullish v) eqn:En.
  - eexists. split; [reflexivity|]. simpl. auto.
  - simpl in H. apply negb_false_iff in H. rewrite H.
    eexists. split; [reflexivity|]. simpl. auto.
Qed.

(** A value that is present and numeric: no error, the score rounded and
    clamped, a warning for each correction. *)
Lemma validateAndRepairScore_numeric (v : JS.value) (f : ScoreField) :
  is_numeric v = true ->
  let n := to_number v in
  exists ws,
    repair v f empty_log =
      ({| score := repaired_score f n;
          scoreRepaired :=
            negb (JS.isInteger n) || out_of_bounds f (nearest_integer n) |},
       {| log_errors := []; log_warnings := ws |}) /\
    Forall (fun w => warn_field w = field_name f) ws /\
    (JS.isInteger n = false ->
       has_warning (field_name f) "Score was not an integer" ws) /\
    (out_of_bounds f (nearest_integer n) = true ->
       has_warning (field_name f) "Score below minimum" ws \/
       has_warning (field_name f) "Score above maximum" ws).
Proof.
  intros H n. unfold numeric in H. unfold validateAndRepairScore_total.
  apply andb_true_iff in H. destruct H as [Hp Hn].
  apply negb_true_iff in Hp, Hn.
  rewrite coercion_is_number_of. fold n. fold n in Hn. rewrite Hp, Hn.
  pose proof (bounds_ordered f) as Hb.
  assert (Hmm : JS.gt (JS.of_Z (bmin (SCORE_BOUNDS f)))
                      (JS.of_Z (bmax (SCORE_BOUNDS f))) = false)
    by (apply gt_of_Z_of_Z; lia).
  unfold repaired_score, clamp, out_of_bounds, nearest_integer, has_warning.
  unfold bind, ret, push_warning, empty_log.
  destruct (JS.isInteger n) eqn:Ei; cbn [negb score scoreRepaired orb].
  - destruct (JS.lt n (JS.of_Z (bmin (SCORE_BOUNDS f)))) eqn:Elo;
      cbn [score scoreRepaired log_errors log_warnings app orb].
    + rewrite Hmm. eexists. split; [reflexivity|].
      split; [repeat constructor|]. split; [discriminate|]. intros _.
      left. eexists. split; [left; reflexivity | split; reflexivity].
    + destruct (JS.gt n (JS.of_Z (bmax (SCORE_BOUNDS f)))) eqn:Ehi;
        cbn [score scoreRepaired log_errors log_warnings app orb];
        eexists; (split; [reflexivity|]);
        (split; [repeat constructor|]); (split; [discriminate|]);
        [intros _ | discriminate].
      right. eexists. split; [left; reflexivity | split; reflexivity].
  - destruct (JS.lt (JS.round n) (JS.of_Z (bmin (SCORE_BOUNDS f)))) eqn:Elo;
      cbn [score scoreRepaired log_errors log_warnings app orb].
    + rewrite Hmm. eexists. split; [reflexivity|].
      split; [repeat constructor|].
      split; intros _.
      * eexists. split; [left; reflexivity | split; reflexivity].
      * left. eexists. split; [right; left; reflexivity | split; reflexivity].
    + destruct (JS.gt (JS.round n) (JS.of_Z (bmax (SCORE_BOUNDS f)))) eqn:Ehi;
        cbn [score scoreRepaired log_errors log_warnings app orb];
        eexists; (split; [reflexivity|]);
        (split; [repeat constructor|]);
        (split; [intros _; eexists; split;
                 [left; reflexivity | split; reflexivity]|]);
        [intros _ | discriminate].
      right. eexists. split; [right; left; reflexivity | split; reflexivity].
Qed.

End ScoreRepair.

(* ===================================================================== *)
(** ** Text fields and the final score check                              *)
(* ===================================================================== *)

Section FieldFacts.

Variable StringToNumber : string -> JS.num.
Variable NumberToString : JS.num -> string.

Local Abbreviation to_text := (JS.text_of NumberToString).
Local Abbreviation check_text := (validateStringField_total NumberToString).
Local Abbreviation check_final := (check_final_score_total StringToNumber NumberToString).
Local Abbreviation repair := (validateAndRepairScore_total StringToNumber NumberToString).

(** A missing text: the default text and one error on the field. *)
Lemma validateStringField_missing (v : JS.value) (field : string) (maxLength : nat) :
  JS.nullish v = true ->
  check_text v field maxLength empty_log =
    ({| text := default_text; textRepaired := true |},
     {| log_errors := [ {| err_field := field;
                           err_message := "Missing required field";
                           err_received := v;
                           err_expected := "non-empty string" |} ];
        log_warnings := [] |}).
Proof.
  intros H. unfold validateStringField_total. rewrite H. reflexivity.
Qed.

(** A text that is present: no error; the default text for the empty
    string, the first [maxLength] characters and an ellipsis for a text
    that is too long, each with a warning; the text itself otherwise. *)
Lemma validateStringField_present (v : JS.value) (field : string) (maxLength : nat) :
  JS.nullish v = false ->
  (String.length default_text <= maxLength)%nat ->
  let s := to_text v in
  exists ws,
    check_text v field maxLength empty_log =
      ({| text := if (String.length s =? 0)%nat then default_text
                  else if (maxLength <? String.length s)%nat
                       then Text.take maxLength s ++ "..."
                       else s;
          textRepaired := (String.length s =? 0)%nat ||
                          (maxLength <? String.length s)%nat |},
       {| log_errors := []; log_warnings := ws |}) /\
    Forall (fun w => warn_field w = field) ws /\
    ((String.length s =? 0)%nat = true -> has_warning field "Empty string" ws) /\
    ((maxLength <? String.length s)%nat = true ->
       has_warning field "String exceeds maximum length" ws) /\
    ((String.length s =? 0)%nat = false ->
     (maxLength <? String.length s)%nat = false -> ws = []).
Proof.
  intros H Hd s. unfold validateStringField_total. rewrite H. fold s.
  unfold bind, ret, push_warning, empty_log, has_warning.
  destruct (String.length s =? 0)%nat eqn:E0;
    cbn [text textRepaired log_errors log_warnings app orb].
  - assert (Hs : (maxLength <? String.length s)%nat = false).
    { apply Nat.eqb_eq in E0. rewrite E0. apply Nat.ltb_ge. lia. }
    assert (Hdt : (maxLength <? String.length default_text)%nat = false)
      by (apply Nat.ltb_ge; exact Hd).
    rewrite Hdt, Hs. cbn [text textRepaired].
    eexists. split; [reflexivity|].
    split; [repeat constructor|].
    split; [intros _; eexists; split; [left; reflexivity | split; reflexivity]|].
    split; discriminate.
  - destruct (maxLength <? String.length s)%nat eqn:E1;
      cbn [text textRepaired log_errors log_warnings app];
      eexists; (split; [reflexivity|]);
      (split; [repeat constructor|]); (split; [discriminate|]);
      split; try discriminate; try reflexivity.
    intros _. eexists. split; [left; reflexivity | split; reflexivity].
Qed.

Lemma check_final_score_appends (parsed : JS.value) (sum : JS.num) (r : bool) :
  appends_only (check_final parsed sum r).
Proof.
  unfold check_final_score_total.
  destruct (JS.get parsed "final_score"); auto 10 with logged.
Qed.

(** The check of the provided final score never records an error; it
    records one warning exactly when the provided value is a number that
    differs from the computed sum. *)
Lemma check_final_score_run (parsed : JS.value) (sum : JS.num) (r : bool) :
  let disagrees := provided_disagrees StringToNumber parsed sum in
  exists ws,
    check_final parsed sum r empty_log =
      (r || disagrees, {| log_errors := []; log_warnings := ws |}) /\
    Forall (fun w => warn_field w = "final_score") ws /\
    (disagrees = true ->
       has_warning "final_score"
         "Provided final_score doesn't match sum of individual scores" ws).
Proof.
  intros disagrees. unfold check_final_score_total.
  unfold disagrees, provided_disagrees, has_warning, bind, ret, push_warning,
    empty_log.
  destruct (JS.get parsed "final_score");
    try (rewrite orb_false_r; eexists; split; [reflexivity|];
         split; [constructor | discriminate]).
  all: match goal with
       | |- context [JS.isNaN ?x] => destruct (JS.isNaN x)
       end; cbn [andb negb];
       try (rewrite orb_false_r; eexists; split; [reflexivity|];
            split; [constructor | discriminate]).
  all: match goal with
       | |- context [JS.strict_eq ?x ?y] => destruct (JS.strict_eq x y)
       end; cbn [andb negb log_errors log_warnings app];
       try (rewrite orb_false_r; eexists; split; [reflexivity|];
            split; [constructor | discriminate]).
  all: rewrite orb_true_r; eexists; (split; [reflexivity|]);
       (split; [repeat constructor|]); intros _;
       eexists; split; [left; reflexivity | split; reflexivity].
Qed.

End FieldFacts.

(* ===================================================================== *)
(** ** Conversions that throw                                             *)
(* ===================================================================== *)

Lemma ex_comm_and {A : Type} (P : Prop) (Q : A -> Prop) :
  P /\ (exists d, Q d) -> exists d, P /\ Q d.
Proof. intros [H [d Hd]]. exists d. split; assumption. Qed.

Section ValidatorThrows.

Variable StringToNumber : string -> JS.num.
Variable NumberToString : JS.num -> string.
Variable JSON_parse : string -> option JS.value.

(** A value whose conversion throws reads as [NaN]. *)
Lemma number_of_not_convertible :
  forall v, JS.convertible v = false -> JS.number_of StringToNumber v = JS.NaN.
Proof.
  fix IH 1. intros v. destruct v as [| | b | n | s | items | props];
    try discriminate; [|reflexivity].
  destruct items as [|x [|y rest]]; [discriminate | | reflexivity].
  pose proof (IH x) as IHx.
  destruct x as [| | b | n | s | items' | props']; try discriminate.
  - intros H. change (JS.number_of StringToNumber (JS.VArr items') = JS.NaN).
    apply IHx.
    cbn [JS.convertible forallb] in H. rewrite andb_true_r in H. exact H.
  - reflexivity.
Qed.

Lemma numeric_convertible (v : JS.value) :
  numeric StringToNumber v = true -> JS.convertible v = true.
Proof.
  unfold numeric. intros H. apply andb_true_iff in H. destruct H as [_ H].
  destruct (JS.convertible v) eqn:E; [reflexivity|].
  rewrite (number_of_not_convertible v E) in H. discriminate.
Qed.

Lemma nullish_convertible (v : JS.value) :
  JS.nullish v = true -> JS.convertible v = true.
Proof. destruct v; try discriminate; reflexivity. Qed.

(** [validateAndRepairScore] throws exactly on a value that does not
    convert, and otherwise returns what the run without exception does. *)
Lemma validateAndRepairScore_completes (v : JS.value) (f : ScoreField) (l : Log) :
  validateAndRepairScore StringToNumber NumberToString v f l =
    if JS.convertible v
    then Returned (validateAndRepairScore_total StringToNumber NumberToString v f l)
    else Threw ToPrimitive.
Proof.
  unfold validateAndRepairScore, validateAndRepairScore_total.
  destruct (JS.nullish v) eqn:En.
  { rewrite (nullish_convertible v En). reflexivity. }
  assert (E : converted match v with
                        | JS.VNum n => Some n
                        | _ => JS.ToNumber StringToNumber v
                        end l =
              if JS.convertible v
              then Returned (match v with
                             | JS.VNum n => n
                             | _ => JS.number_of StringToNumber v
                             end, l)
              else Threw ToPrimitive).
  { unfold converted, JS.ToNumber. destruct v; try reflexivity;
      destruct (JS.convertible _); reflexivity. }
  unfold vbind at 1. rewrite E. clear E.
  destruct (JS.convertible v); [|reflexivity].
  set (n := match v with JS.VNum n => n | _ => JS.number_of StringToNumber v end).
  destruct (JS.isNaN n); [reflexivity|].
  unfold vbind, bind, vret, ret, warnings_push, push_warning.
  destruct (negb (JS.isInteger n)); cbn [score];
    repeat match goal with
           | |- context [if ?b then _ else _] => destruct b; cbn [score]
           end; reflexivity.
Qed.

Lemma validateStringField_completes (v : JS.value) (field : string)
  (maxLength : nat) (l : Log) :
  validateStringField NumberToString v field maxLength l =
    if JS.convertible v
    then Returned (validateStringField_total NumberToString v field maxLength l)
    else Threw ToPrimitive.
Proof.
  unfold validateStringField, validateStringField_total.
  destruct (JS.nullish v) eqn:En.
  { rewrite (nullish_convertible v En). reflexivity. }
  unfold vbind at 1. unfold converted, JS.ToString.
  destruct (JS.convertible v); [|reflexivity].
  unfold vbind, bind, vret, ret, warnings_push, push_warning.
  destruct (String.length (JS.text_of NumberToString v) =? 0)%nat; cbn [text];
    repeat match goal with
           | |- context [if ?b then _ else _] => destruct b; cbn [text]
           end; reflexivity.
Qed.

Lemma check_final_score_completes (parsed : JS.value) (sum : JS.num)
  (repaired : bool) (l : Log) :
  check_final_score StringToNumber NumberToString parsed sum repaired l =
    if JS.convertible (JS.get parsed "final_score")
    then Returned (check_final_score_total StringToNumber NumberToString
                     parsed sum repaired l)
    else Threw ToPrimitive.
Proof.
  unfold check_final_score, check_final_score_total.
  destruct (JS.get parsed "final_score") as [| | b | n | s | items | props] eqn:Eg;
    try reflexivity;
    unfold vbind at 1; unfold converted, JS.ToNumber;
    match goal with
    | |- context [JS.convertible ?v] => destruct (JS.convertible v)
    end; try reflexivity;
    match goal with
    | |- context [if ?b then _ else _] => destruct b
    end; reflexivity.
Qed.

Lemma fields_convert_unfold (parsed : JS.value) :
  fields_convert parsed =
    JS.convertible (JS.get parsed "concept_accuracy") &&
    (JS.convertible (JS.get parsed "example_usage") &&
    (JS.convertible (JS.get parsed "edge_cases") &&
    (JS.convertible (JS.get parsed "clarity") &&
    (JS.convertible (JS.get parsed "final_score") &&
    (JS.convertible (JS.get parsed "overall_feedback") &&
    (JS.convertible (JS.get parsed "improvement_tips") && true)))))).
Proof. reflexivity. Qed.

(** The body of the validator throws exactly when one of the seven fields
    does not convert. *)
Lemma validate_fields_completes (parsed : JS.value) (l : Log) :
  validate_fields StringToNumber NumberToString parsed l =
    if fields_convert parsed
    then Returned (validate_fields_total StringToNumber NumberToString parsed l)
    else Threw ToPrimitive.
Proof.
  rewrite fields_convert_unfold.
  unfold validate_fields, validate_fields_total.
  unfold vbind at 1. unfold bind at 1.
  rewrite validateAndRepairScore_completes.
  destruct (JS.convertible (JS.get parsed "concept_accuracy")); [|reflexivity].
  destruct (validateAndRepairScore_total _ _ _ F_concept_accuracy l) as [c lc].
  unfold vbind at 1. unfold bind at 1.
  rewrite validateAndRepairScore_completes.
  destruct (JS.convertible (JS.get parsed "example_usage")); [|reflexivity].
  destruct (validateAndRepairScore_total _ _ _ F_example_usage lc) as [e le].
  unfold vbind at 1. unfold bind at 1.
  rewrite validateAndRepairScore_completes.
  destruct (JS.convertible (JS.get parsed "edge_cases")); [|reflexivity].
  destruct (validateAndRepairScore_total _ _ _ F_edge_cases le) as [g lg].
  unfold vbind at 1. unfold bind at 1.
  rewrite validateAndRepairScore_completes.
  destruct (JS.convertible (JS.get parsed "clarity")); [|reflexivity].
  destruct (validateAndRepairScore_total _ _ _ F_clarity lg) as [k lk].
  cbv zeta.
  unfold vbind at 1. unfold bind at 1.
  rewrite check_final_score_completes.
  destruct (JS.convertible (JS.get parsed "final_score")); [|reflexivity].
  destruct (check_final_score_total _ _ _ _ _ lk) as [w lw].
  unfold vbind at 1. unfold bind at 1.
  rewrite validateStringField_completes.
  destruct (JS.convertible (JS.get parsed "overall_feedback")); [|reflexivity].
  destruct (validateStringField_total _ _ "overall_feedback" _ lw) as [fb lfb].
  unfold vbind at 1. unfold bind at 1.
  rewrite validateStringField_completes.
  destruct (JS.convertible (JS.get parsed "improvement_tips")); [|reflexivity].
  destruct (validateStringField_total _ _ "improvement_tips" _ lfb) as [tp ltp].
  reflexivity.
Qed.

Local Abbreviation validate :=
  (validateEvaluationResult StringToNumber NumberToString JSON_parse).
Local Abbreviation validate_total :=
  (validateEvaluationResult_total StringToNumber NumberToString JSON_parse).
Local Abbreviation recover := (parseEvaluationResponse JSON_parse).

Lemma validate_completes (raw : string) (rubric : option EvaluationRubricInput) :
  validate raw rubric =
    if reaches_throw JSON_parse raw then Threw ToPrimitive
    else Returned (validate_total raw rubric).
Proof.
  unfold validateEvaluationResult, validateEvaluationResult_total, reaches_throw.
  destruct (recover raw) as [parsed|err]; [|reflexivity].
  destruct (JS.truthy parsed); [|reflexivity]. cbn [negb andb].
  rewrite validate_fields_completes.
  destruct (fields_convert parsed); [|reflexivity]. cbn [negb].
  destruct (validate_fields_total _ _ _ _) as [[d rep] log]. reflexivity.
Qed.

Lemma validate_returns (raw : string) (rubric : option EvaluationRubricInput)
  (parsed : JS.value) :
  recover raw = ParseOk parsed ->
  fields_convert parsed = true ->
  validate raw rubric = Returned (validate_total raw rubric).
Proof.
  intros Hp Hc. rewrite validate_completes. unfold reaches_throw.
  rewrite Hp, Hc, andb_false_r. reflexivity.
Qed.

Lemma validate_returns_unparsed (raw : string)
  (rubric : option EvaluationRubricInput) :
  (forall parsed, recover raw = ParseOk parsed -> JS.truthy parsed = false) ->
  validate raw rubric = Returned (validate_total raw rubric).
Proof.
  intros H. rewrite validate_completes. unfold reaches_throw.
  destruct (recover raw) as [parsed|err]; [|reflexivity].
  rewrite (H parsed eq_refl). reflexivity.
Qed.

Lemma validate_returned (raw : string) (rubric : option EvaluationRubricInput)
  (v : ValidationResult) :
  validate raw rubric = Returned v -> v = validate_total raw rubric.
Proof.
  rewrite validate_completes. destruct (reaches_throw JSON_parse raw); [discriminate|].
  intros H. injection H as <-. reflexivity.
Qed.

End ValidatorThrows.

(* ===================================================================== *)
(** ** The validator, step by step                                        *)
(* ===================================================================== *)

Section ValidatorRun.

Variable StringToNumber : string -> JS.num.
Variable NumberToString : JS.num -> string.
Variable JSON_parse : string -> option JS.value.

Local Abbreviation repair := (validateAndRepairScore_total StringToNumber NumberToString).
Local Abbreviation check_text := (validateStringField_total NumberToString).
Local Abbreviation check_final := (check_final_score_total StringToNumber NumberToString).
Local Abbreviation validate :=
  (validateEvaluationResult StringToNumber NumberToString JSON_parse).
Local Abbreviation validate_total :=
  (validateEvaluationResult_total StringToNumber NumberToString JSON_parse).
Local Abbreviation recover := (parseEvaluationResponse JSON_parse).

(** The body of the validator, as the seven steps run one after the
    other, each from empty arrays. *)
Lemma validate_fields_run (parsed : JS.value) :
  let c := repair (JS.get parsed "concept_accuracy") F_concept_accuracy empty_log in
  let e := repair (JS.get parsed "example_usage") F_example_usage empty_log in
  let g := repair (JS.get parsed "edge_cases") F_edge_cases empty_log in
  let k := repair (JS.get parsed "clarity") F_clarity empty_log in
  let rep1 := false || scoreRepaired (fst c) || scoreRepaired (fst e) ||
              scoreRepaired (fst g) || scoreRepaired (fst k) in
  let sum := JS.add (JS.add (JS.add (score (fst c)) (score (fst e)))
                            (score (fst g))) (score (fst k)) in
  let f := check_final parsed sum rep1 empty_log in
  let fb := check_text (JS.get parsed "overall_feedback") "overall_feedback"
                       1000 empty_log in
  let tp := check_text (JS.get parsed "improvement_tips") "improvement_tips"
                       1000 empty_log in
  validate_fields_total StringToNumber NumberToString parsed empty_log =
    ({| concept_accuracy := score (fst c);
        example_usage := score (fst e);
        edge_cases := score (fst g);
        clarity := score (fst k);
        final_score := sum;
        overall_feedback := text (fst fb);
        improvement_tips := text (fst tp) |},
     fst f || textRepaired (fst fb) || textRepaired (fst tp),
     log_app (snd c) (log_app (snd e) (log_app (snd g) (log_app (snd k)
       (log_app (snd f) (log_app (snd fb) (snd tp))))))).
Proof.
  intros c e g k rep1 sum f fb tp.
  unfold validate_fields_total, bind.
  fold c. destruct c as [c1 lc] eqn:Ec.
  rewrite (validateAndRepairScore_appends StringToNumber NumberToString _ _ lc).
  fold e. destruct e as [e1 le] eqn:Ee. cbn [fst snd].
  rewrite (validateAndRepairScore_appends StringToNumber NumberToString _ _
             (log_app lc le)).
  fold g. destruct g as [g1 lg] eqn:Eg. cbn [fst snd].
  rewrite (validateAndRepairScore_appends StringToNumber NumberToString _ _
             (log_app (log_app lc le) lg)).
  fold k. destruct k as [k1 lk] eqn:Ek. cbn [fst snd].
  cbn [fst snd] in rep1, sum.
  rewrite (check_final_score_appends StringToNumber NumberToString _ _ _
             (log_app (log_app (log_app lc le) lg) lk)).
  fold rep1 sum. fold f. destruct f as [f1 lf] eqn:Ef. cbn [fst snd].
  match goal with
  | |- context [validateStringField_total NumberToString ?v ?n ?m ?l] =>
      rewrite (validateStringField_appends NumberToString v n m l)
  end.
  fold fb. destruct fb as [fb1 lfb] eqn:Efb. cbn [fst snd].
  match goal with
  | |- context [validateStringField_total NumberToString ?v ?n ?m (log_app ?a ?b)] =>
      rewrite (validateStringField_appends NumberToString v n m (log_app a b))
  end.
  fold tp. destruct tp as [tp1 ltp] eqn:Etp. cbn [fst snd].
  unfold ret. rewrite !log_app_assoc. reflexivity.
Qed.

(** The result of the validator on a response that parses to a truthy
    value, in terms of the seven steps. *)
Lemma validate_explicit (raw : string) (rubric : option EvaluationRubricInput)
  (parsed : JS.value) :
  recover raw = ParseOk parsed ->
  JS.truthy parsed = true ->
  let c := repair (JS.get parsed "concept_accuracy") F_concept_accuracy empty_log in
  let e := repair (JS.get parsed "example_usage") F_example_usage empty_log in
  let g := repair (JS.get parsed "edge_cases") F_edge_cases empty_log in
  let k := repair (JS.get parsed "clarity") F_clarity empty_log in
  let rep1 := false || scoreRepaired (fst c) || scoreRepaired (fst e) ||
              scoreRepaired (fst g) || scoreRepaired (fst k) in
  let sum := JS.add (JS.add (JS.add (score (fst c)) (score (fst e)))
                            (score (fst g))) (score (fst k)) in
  let f := check_final parsed sum rep1 empty_log in
  let fb := check_text (JS.get parsed "overall_feedback") "overall_feedback"
                       1000 empty_log in
  let tp := check_text (JS.get parsed "improvement_tips") "improvement_tips"
                       1000 empty_log in
  let log := log_app (snd c) (log_app (snd e) (log_app (snd g) (log_app (snd k)
               (log_app (snd f) (log_app (snd fb) (snd tp)))))) in
  validate_total raw rubric =
    {| isValid := negb (existsb (fun x => includes critical_fields (err_field x))
                                (log_errors log));
       data := Some {| concept_accuracy := score (fst c);
                       example_usage := score (fst e);
                       edge_cases := score (fst g);
                       clarity := score (fst k);
                       final_score := sum;
                       overall_feedback := text (fst fb);
                       improvement_tips := text (fst tp) |};
       errors := log_errors log;
       warnings := log_warnings log;
       wasRepaired := fst f || textRepaired (fst fb) || textRepaired (fst tp) |}.
Proof.
  intros Hp Ht. cbv zeta.
  unfold validateEvaluationResult_total. rewrite Hp, Ht. cbn [negb].
  pose proof (validate_fields_run parsed) as H. cbv zeta in H. rewrite H.
  reflexivity.
Qed.

(** A response that does not parse, or parses to a falsy value, gives no
    data and the single error on [response]. *)
Lemma validate_no_object (raw : string) (rubric : option EvaluationRubricInput) :
  (forall parsed, recover raw = ParseOk parsed -> JS.truthy parsed = false) ->
  exists message,
    validate_total raw rubric = parse_failure message raw /\ message <> EmptyString.
Proof.
  intros H. unfold validateEvaluationResult_total.
  destruct (recover raw) as [parsed|err] eqn:E.
  - rewrite (H parsed eq_refl). cbn [negb]. eexists. split; [reflexivity|].
    discriminate.
  - exists (str_or err "Invalid JSON"). split; [reflexivity|].
    unfold str_or. destruct (String.eqb err EmptyString) eqn:Ee; [discriminate|].
    apply String.eqb_neq in Ee. exact Ee.
Qed.

Local Abbreviation is_numeric := (numeric StringToNumber).
Local Abbreviation to_number := (JS.number_of StringToNumber).
Local Abbreviation to_text := (JS.text_of NumberToString).

Lemma numeric_get_truthy (parsed : JS.value) (k : string) :
  is_numeric (JS.get parsed k) = true -> JS.truthy parsed = true.
Proof.
  unfold numeric. destruct parsed; simpl; try discriminate. reflexivity.
Qed.

(** What one score step returns and pushes, whatever the value. *)
Lemma repair_summary (v : JS.value) (f : ScoreField) :
  exists r es ws,
    repair v f empty_log = (r, {| log_errors := es; log_warnings := ws |}) /\
    score r = (if is_numeric v then repaired_score f (to_number v) else JS.of_Z 0) /\
    Forall (fun e => err_field e = field_name f) es /\
    Forall (fun w => warn_field w = field_name f) ws /\
    existsb (fun e => includes critical_fields (err_field e)) es =
      negb (is_numeric v) && is_criterion f.
Proof.
  destruct (is_numeric v) eqn:E.
  - destruct (validateAndRepairScore_numeric StringToNumber NumberToString v f E)
      as [ws [H1 [H2 _]]].
    eexists _, [], ws. split; [exact H1|]. repeat split; auto.
  - destruct (validateAndRepairScore_not_numeric StringToNumber NumberToString v f E)
      as [e [H1 [H2 _]]].
    eexists _, [e], []. split; [exact H1|]. repeat split; auto.
    cbn [existsb]. rewrite H2. destruct f; reflexivity.
Qed.

Lemma default_text_fits : (String.length default_text <= 1000)%nat.
Proof. apply Nat.leb_le. reflexivity. Qed.

(** What one text step returns and pushes: its entries carry its field
    name, which is none of the critical ones. *)
Lemma text_summary (v : JS.value) (field : string) :
  includes critical_fields field = false ->
  exists r es ws,
    check_text v field 1000 empty_log =
      (r, {| log_errors := es; log_warnings := ws |}) /\
    Forall (fun e => err_field e = field) es /\
    Forall (fun w => warn_field w = field) ws /\
    existsb (fun e => includes critical_fields (err_field e)) es = false.
Proof.
  intros Hf. destruct (JS.nullish v) eqn:E.
  - rewrite (validateStringField_missing NumberToString v field 1000 E).
    eexists _, _, _. split; [reflexivity|].
    split; [repeat constructor|]. split; [constructor|].
    cbn [existsb err_field]. rewrite Hf. reflexivity.
  - destruct (validateStringField_present NumberToString v field 1000 E
                default_text_fits) as [ws [H1 [H2 _]]].
    eexists _, [], ws. split; [exact H1|]. repeat split; auto.
Qed.

(** [isValid] is decided by the four criteria alone. *)
Lemma isValid_all_numeric (raw : string) (rubric : option EvaluationRubricInput)
  (parsed : JS.value) :
  recover raw = ParseOk parsed ->
  JS.truthy parsed = true ->
  isValid (validate_total raw rubric) = all_numeric StringToNumber parsed.
Proof.
  intros Hp Ht.
  pose proof (validate_explicit raw rubric parsed Hp Ht) as H. cbv zeta in H.
  rewrite H. clear H. cbn [isValid].
  destruct (repair_summary (JS.get parsed "concept_accuracy") F_concept_accuracy)
    as (rc & ec & wc & Hc & _ & _ & _ & Xc).
  destruct (repair_summary (JS.get parsed "example_usage") F_example_usage)
    as (re & ee & we & He & _ & _ & _ & Xe).
  destruct (repair_summary (JS.get parsed "edge_cases") F_edge_cases)
    as (rg & eg & wg & Hg & _ & _ & _ & Xg).
  destruct (repair_summary (JS.get parsed "clarity") F_clarity)
    as (rk & ek & wk & Hk & _ & _ & _ & Xk).
  destruct (text_summary (JS.get parsed "overall_feedback") "overall_feedback"
              eq_refl) as (rfb & efb & wfb & Hfb & _ & _ & Xfb).
  destruct (text_summary (JS.get parsed "improvement_tips") "improvement_tips"
              eq_refl) as (rtp & etp & wtp & Htp & _ & _ & Xtp).
  rewrite Hc, He, Hg, Hk, Hfb, Htp. cbn [fst snd score scoreRepaired].
  match goal with
  | |- context [check_final_score_total StringToNumber NumberToString ?p ?s ?r empty_log] =>
      destruct (check_final_score_run StringToNumber NumberToString p s r)
        as (wf & Hf & _ & _)
  end.
  cbv zeta in Hf. rewrite Hf.
  cbn [snd log_app log_errors log_warnings app].
  rewrite !existsb_app, Xc, Xe, Xg, Xk, Xfb, Xtp.
  unfold all_numeric. cbn [is_criterion].
  rewrite !andb_true_r, !orb_false_r.
  rewrite !negb_orb, !negb_involutive. rewrite !andb_assoc. reflexivity.
Qed.

(** The data of the validator on a truthy parsed value: each criterion is
    the repaired value of the field, or 0 where the field is missing or
    not a number, and the final score is the sum. *)
Lemma validate_data (raw : string) (rubric : option EvaluationRubricInput)
  (parsed : JS.value) :
  recover raw = ParseOk parsed ->
  JS.truthy parsed = true ->
  exists d,
    data (validate_total raw rubric) = Some d /\
    (forall f, is_criterion f = true ->
               score_in d f = criterion_score StringToNumber parsed f) /\
    final_score d = criteria_sum d.
Proof.
  intros Hp Ht.
  pose proof (validate_explicit raw rubric parsed Hp Ht) as H. cbv zeta in H.
  rewrite H. clear H. cbn [data].
  eexists. split; [reflexivity|]. split; [|reflexivity].
  intros f Hf. unfold criterion_score.
  destruct f; try discriminate; cbn [score_in concept_accuracy example_usage
    edge_cases clarity field_name];
  match goal with
  | |- score (fst (validateAndRepairScore_total _ _ ?v ?f empty_log)) = _ =>
      destruct (repair_summary v f) as (r & es & ws & Hr & Hs & _);
      rewrite Hr; exact Hs
  end.
Qed.

Lemma criterion_score_in_bounds (parsed : JS.value) (f : ScoreField) :
  int_in (bmin (SCORE_BOUNDS f)) (bmax (SCORE_BOUNDS f))
         (criterion_score StringToNumber parsed f).
Proof.
  unfold criterion_score.
  destruct (is_numeric (JS.get parsed (field_name f))) eqn:E.
  - apply repaired_score_in_bounds.
    unfold numeric in E. apply andb_true_iff in E. destruct E as [_ E].
    apply negb_true_iff in E. exact E.
  - exists 0%Z. split; [apply of_Z_is_int | apply bounds_ordered].
Qed.

(** Whatever the validator returns as data is well formed. *)
Lemma validate_data_well_formed (raw : string)
  (rubric : option EvaluationRubricInput) (d : EvaluationResult) :
  data (validate_total raw rubric) = Some d -> well_formed d.
Proof.
  intros Hd.
  destruct (recover raw) as [parsed|err] eqn:Hp.
  2:{ unfold validateEvaluationResult_total in Hd. rewrite Hp in Hd. discriminate. }
  destruct (JS.truthy parsed) eqn:Ht.
  2:{ unfold validateEvaluationResult_total in Hd. rewrite Hp, Ht in Hd. discriminate. }
  destruct (validate_data raw rubric parsed Hp Ht) as (d' & Hd' & Hs & Hf).
  rewrite Hd in Hd'. injection Hd' as <-.
  pose proof (Hs F_concept_accuracy eq_refl) as H1.
  pose proof (Hs F_example_usage eq_refl) as H2.
  pose proof (Hs F_edge_cases eq_refl) as H3.
  pose proof (Hs F_clarity eq_refl) as H4.
  cbn [score_in] in H1, H2, H3, H4.
  pose proof (criterion_score_in_bounds parsed F_concept_accuracy) as B1.
  pose proof (criterion_score_in_bounds parsed F_example_usage) as B2.
  pose proof (criterion_score_in_bounds parsed F_edge_cases) as B3.
  pose proof (criterion_score_in_bounds parsed F_clarity) as B4.
  rewrite <- H1 in B1. rewrite <- H2 in B2. rewrite <- H3 in B3. rewrite <- H4 in B4.
  cbn [SCORE_BOUNDS bmin bmax] in B1, B2, B3, B4.
  unfold well_formed. repeat (split; [assumption|]).
  rewrite Hf. unfold criteria_sum.
  change 0%Z with (0 + 0 + 0 + 0)%Z. change 10%Z with (4 + 3 + 2 + 1)%Z.
  repeat apply add_int_in; assumption.
Qed.

Lemma field_of_entry {A} (proj : A -> string) (nm : string) (l : list A) (x : A) :
  Forall (fun e => proj e = nm) l -> In x l -> proj x = nm.
Proof. intros H Hin. rewrite Forall_forall in H. apply H, Hin. Qed.

Ltac summarize_steps parsed :=
  destruct (repair_summary (JS.get parsed "concept_accuracy") F_concept_accuracy)
    as (rc & ec & wc & Hc & Sc & FEc & FWc & _);
  destruct (repair_summary (JS.get parsed "example_usage") F_example_usage)
    as (re & ee & we & He & Se & FEe & FWe & _);
  destruct (repair_summary (JS.get parsed "edge_cases") F_edge_cases)
    as (rg & eg & wg & Hg & Sg & FEg & FWg & _);
  destruct (repair_summary (JS.get parsed "clarity") F_clarity)
    as (rk & ek & wk & Hk & Sk & FEk & FWk & _);
  destruct (text_summary (JS.get parsed "overall_feedback") "overall_feedback"
              eq_refl) as (rfb & efb & wfb & Hfb & FEfb & FWfb & _);
  destruct (text_summary (JS.get parsed "improvement_tips") "improvement_tips"
              eq_refl) as (rtp & etp & wtp & Htp & FEtp & FWtp & _);
  cbn [field_name] in FEc, FWc, FEe, FWe, FEg, FWg, FEk, FWk.

Ltac other_field F x Hin Hx :=
  exfalso; pose proof (field_of_entry _ _ _ x F Hin) as Hother;
  rewrite Hx in Hother; discriminate Hother.

(** How the step of one criterion shows in the result of the validator:
    its score, its warnings, its repair flag, and every error that carries
    its field name. *)
Lemma score_step_in_result (raw : string) (rubric : option EvaluationRubricInput)
  (parsed : JS.value) (f : ScoreField) :
  recover raw = ParseOk parsed ->
  JS.truthy parsed = true ->
  is_criterion f = true ->
  let st := repair (JS.get parsed (field_name f)) f empty_log in
  let r := validate_total raw rubric in
  exists d,
    data r = Some d /\
    score_in d f = score (fst st) /\
    (forall w, In w (log_warnings (snd st)) -> In w (warnings r)) /\
    (forall w, In w (warnings r) -> warn_field w = field_name f ->
               In w (log_warnings (snd st))) /\
    (scoreRepaired (fst st) = true -> wasRepaired r = true) /\
    (forall e, In e (errors r) -> err_field e = field_name f ->
               In e (log_errors (snd st))).
Proof.
  intros Hp Ht Hf st r. subst st r.
  pose proof (validate_explicit raw rubric parsed Hp Ht) as H. cbv zeta in H.
  rewrite H. clear H. cbn [data errors warnings wasRepaired].
  eexists. split; [reflexivity|].
  summarize_steps parsed.
  match goal with
  | |- context [check_final_score_total StringToNumber NumberToString ?p ?s ?rr empty_log] =>
      destruct (check_final_score_run StringToNumber NumberToString p s rr)
        as (wf & Hfin & FWf & _); cbv zeta in Hfin; rewrite Hfin
  end.
  destruct f; try discriminate; cbn [field_name score_in concept_accuracy
    example_usage edge_cases clarity];
  rewrite Hc, He, Hg, Hk, Hfb, Htp;
  cbn [fst snd log_app log_errors log_warnings app];
  (split; [reflexivity|]);
  (split; [intros w Hw; rewrite !in_app_iff; tauto|]);
  (split; [intros w Hw Hx; rewrite !in_app_iff in Hw;
           repeat (destruct Hw as [Hw|Hw]); try exact Hw;
           match goal with
           | F : Forall _ ?l, Hw : In w ?l |- _ => other_field F w Hw Hx
           end|]);
  (split; [intros Hr; rewrite Hr; cbn [orb]; rewrite ?orb_true_r; reflexivity|]);
  intros e Hin Hx; rewrite !in_app_iff in Hin;
  repeat (destruct Hin as [Hin|Hin]); try exact Hin;
  match goal with
  | F : Forall _ ?l, Hin : In e ?l |- _ => other_field F e Hin Hx
  end.
Qed.

(** How the step of one text field shows in the result of the validator. *)
Lemma text_step_in_result (raw : string) (rubric : option EvaluationRubricInput)
  (parsed : JS.value) (field : string) :
  recover raw = ParseOk parsed ->
  JS.truthy parsed = true ->
  In field text_fields ->
  let st := check_text (JS.get parsed field) field 1000 empty_log in
  let r := validate_total raw rubric in
  exists d,
    data r = Some d /\
    text_in d field = text (fst st) /\
    (forall w, In w (log_warnings (snd st)) -> In w (warnings r)) /\
    (forall w, In w (warnings r) -> warn_field w = field ->
               In w (log_warnings (snd st))) /\
    (forall e, In e (log_errors (snd st)) -> In e (errors r)) /\
    (forall e, In e (errors r) -> err_field e = field ->
               In e (log_errors (snd st))) /\
    (textRepaired (fst st) = true -> wasRepaired r = true).
Proof.
  intros Hp Ht Hf st r. subst st r.
  pose proof (validate_explicit raw rubric parsed Hp Ht) as H. cbv zeta in H.
  rewrite H. clear H. cbn [data errors warnings wasRepaired].
  eexists. split; [reflexivity|].
  summarize_steps parsed.
  match goal with
  | |- context [check_final_score_total StringToNumber NumberToString ?p ?s ?rr empty_log] =>
      destruct (check_final_score_run StringToNumber NumberToString p s rr)
        as (wf & Hfin & FWf & _); cbv zeta in Hfin; rewrite Hfin
  end.
  destruct Hf as [<-|[<-|[]]]; unfold text_in;
  cbn [String.eqb Ascii.eqb Bool.eqb andb overall_feedback improvement_tips];
  rewrite Hc, He, Hg, Hk, Hfb, Htp;
  cbn [fst snd log_app log_errors log_warnings app];
  (split; [reflexivity|]);
  (split; [intros w Hw; rewrite !in_app_iff; tauto|]);
  (split; [intros w Hw Hx; rewrite !in_app_iff in Hw;
           repeat (destruct Hw as [Hw|Hw]); try exact Hw;
           match goal with
           | F : Forall _ ?l, Hw : In w ?l |- _ => other_field F w Hw Hx
           end|]);
  (split; [intros e Hin; rewrite !in_app_iff; tauto|]);
  (split; [intros e Hin Hx; rewrite !in_app_iff in Hin;
           repeat (destruct Hin as [Hin|Hin]); try exact Hin;
           match goal with
           | F : Forall _ ?l, Hin : In e ?l |- _ => other_field F e Hin Hx
           end|]);
  intros Hr; rewrite Hr; rewrite ?orb_true_r; reflexivity.
Qed.

(** The warning of the final score check reaches the result, and no
    error ever carries the field name [final_score]. *)
Lemma final_check_in_result (raw : string) (rubric : option EvaluationRubricInput)
  (parsed : JS.value) :
  recover raw = ParseOk parsed ->
  JS.truthy parsed = true ->
  let r := validate_total raw rubric in
  exists d,
    data r = Some d /\
    no_error_on "final_score" (errors r) /\
    (provided_disagrees StringToNumber parsed (criteria_sum d) = true ->
       has_warning "final_score"
         "Provided final_score doesn't match sum of individual scores"
         (warnings r) /\ wasRepaired r = true) /\
    (provided_disagrees StringToNumber parsed (criteria_sum d) = false ->
       no_warning_on "final_score" (warnings r)).
Proof.
  intros Hp Ht r. subst r.
  pose proof (validate_explicit raw rubric parsed Hp Ht) as H. cbv zeta in H.
  rewrite H. clear H. cbn [data errors warnings wasRepaired].
  eexists. split; [reflexivity|].
  unfold criteria_sum. cbn [concept_accuracy example_usage edge_cases clarity].
  summarize_steps parsed.
  match goal with
  | |- context [check_final_score_total StringToNumber NumberToString ?p ?s ?rr empty_log] =>
      destruct (check_final_score_run StringToNumber NumberToString p s rr)
        as (wf & Hfin & FWf & Hdis); cbv zeta in Hfin, Hdis; rewrite Hfin
  end.
  rewrite Hc, He, Hg, Hk, Hfb, Htp in *.
  cbn [fst snd log_app log_errors log_warnings app score] in *.
  split; [|split].
  - intros e Hin Hx. rewrite !in_app_iff in Hin.
    repeat (destruct Hin as [Hin|Hin]);
    match goal with
    | F : Forall _ ?l, Hin : In e ?l |- _ =>
        pose proof (field_of_entry _ _ _ e F Hin) as Ho; rewrite Hx in Ho;
        discriminate Ho
    end.
  - intros Hd. rewrite Hd. split; [|rewrite orb_true_r; reflexivity].
    destruct (Hdis Hd) as (w & Hw & Hw1 & Hw2).
    exists w. split; [|split; assumption]. rewrite !in_app_iff. tauto.
  - intros Hd w Hin Hx. rewrite !in_app_iff in Hin.
    repeat (destruct Hin as [Hin|Hin]);
    try match goal with
    | F : Forall (fun w => warn_field w = ?nm) ?l, Hin : In w ?l |- _ =>
        lazymatch nm with
        | "final_score" => fail
        | _ => pose proof (field_of_entry _ _ _ w F Hin) as Ho; rewrite Hx in Ho;
               discriminate Ho
        end
    end.
    (* the warnings of the check itself: none, since nothing disagrees *)
    unfold check_final_score_total, provided_disagrees in *.
    destruct (JS.get parsed "final_score");
      try (rewrite Hd in Hfin); unfold ret, bind, empty_log in Hfin;
      injection Hfin as _ <-; destruct Hin.
Qed.

Lemma all_numeric_field (parsed : JS.value) (f : ScoreField) :
  all_numeric StringToNumber parsed = true ->
  is_criterion f = true ->
  is_numeric (JS.get parsed (field_name f)) = true.
Proof.
  unfold all_numeric. intros H Hf.
  apply andb_true_iff in H. destruct H as [H H4].
  apply andb_true_iff in H. destruct H as [H H3].
  apply andb_true_iff in H. destruct H as [H1 H2].
  destruct f; try discriminate; assumption.
Qed.

(** C1 (amended).  When the response parses to an object whose four
    criterion fields are present and coerce to numbers, and whose final
    score and two texts convert to a primitive, the validator returns; the
    result is valid, each criterion is the rounded and clamped value of its
    field, and the final score is the sum of the four repaired criteria
    whatever final score the response provides: a provided value that
    disagrees is answered by a warning on [final_score], never by an
    error. *)
Theorem final_score_is_recomputed (raw : string)
  (rubric : option EvaluationRubricInput) (parsed : JS.value) :
  recover raw = ParseOk parsed ->
  all_numeric StringToNumber parsed = true ->
  fields_convert parsed = true ->
  exists r,
    validate raw rubric = Returned r /\
    isValid r = true /\
    exists d,
      data r = Some d /\
      (forall f, is_criterion f = true ->
         score_in d f = repaired_score f (to_number (JS.get parsed (field_name f)))) /\
      final_score d = criteria_sum d /\
      no_error_on "final_score" (errors r) /\
      (provided_disagrees StringToNumber parsed (criteria_sum d) = true ->
         has_warning "final_score"
           "Provided final_score doesn't match sum of individual scores"
           (warnings r)).
Proof.
  intros Hp Hn Hconv.
  rewrite (validate_returns StringToNumber NumberToString JSON_parse
             raw rubric parsed Hp Hconv).
  eexists. split; [reflexivity|].
  set (r := validate_total raw rubric).
  assert (Ht : JS.truthy parsed = true).
  { apply (numeric_get_truthy parsed "concept_accuracy").
    apply (all_numeric_field parsed F_concept_accuracy Hn eq_refl). }
  split.
  { subst r. rewrite (isValid_all_numeric raw rubric parsed Hp Ht). exact Hn. }
  destruct (validate_data raw rubric parsed Hp Ht) as (d & Hd & Hs & Hf).
  destruct (final_check_in_result raw rubric parsed Hp Ht) as (d' & Hd' & He & Hw & _).
  fold r in Hd, Hd', He, Hw. rewrite Hd in Hd'. injection Hd' as <-.
  exists d. split; [exact Hd|]. split; [|split; [exact Hf|split; [exact He|]]].
  - intros f Hc. rewrite (Hs f Hc). unfold criterion_score.
    rewrite (all_numeric_field parsed f Hn Hc). reflexivity.
  - intros Hdis. apply Hw, Hdis.
Qed.

(** C10 (amended).  When the response parses to a truthy value whose
    seven fields convert to a primitive, the validator returns a data
    object even where the result is not valid: each of the four criteria is
    an integer within its fixed bounds (0 for a field that is missing or
    not a number), the final score is their sum, an integer between 0 and
    10, and the rubric argument plays no part. *)
Theorem validated_data_within_bounds (raw : string)
  (rubric : option EvaluationRubricInput) (parsed : JS.value) :
  recover raw = ParseOk parsed ->
  JS.truthy parsed = true ->
  fields_convert parsed = true ->
  exists r d,
    validate raw rubric = Returned r /\
    data r = Some d /\
    int_in 0 4 (concept_accuracy d) /\
    int_in 0 3 (example_usage d) /\
    int_in 0 2 (edge_cases d) /\
    int_in 0 1 (clarity d) /\
    final_score d = criteria_sum d /\
    int_in 0 10 (final_score d) /\
    (forall f, is_criterion f = true ->
       score_in d f = criterion_score StringToNumber parsed f) /\
    validate raw rubric = validate raw None.
Proof.
  intros Hp Ht Hconv.
  rewrite !(validate_returns StringToNumber NumberToString JSON_parse
              raw _ parsed Hp Hconv).
  eexists. apply ex_comm_and. split; [reflexivity|].
  destruct (validate_data raw rubric parsed Hp Ht) as (d & Hd & Hs & Hf).
  exists d. split; [exact Hd|].
  destruct (validate_data_well_formed raw rubric d Hd) as (A & B & C & D & E & F).
  repeat (split; [assumption|]). reflexivity.
Qed.

Lemma length_append (a b : string) :
  String.length (a ++ b) = (String.length a + String.length b)%nat.
Proof. induction a as [|c a IH]; simpl; [reflexivity | rewrite IH; reflexivity]. Qed.

Lemma length_take (n : nat) (s : string) :
  (n <= String.length s)%nat -> String.length (Text.take n s) = n.
Proof.
  unfold Text.take. revert s.
  induction n as [|n IH]; intros s H.
  - destruct s; reflexivity.
  - destruct s as [|c s]; simpl in *; [lia|].
    rewrite IH by lia. reflexivity.
Qed.

(** C5.  A criterion value that is present and numeric is rounded to the
    nearest integer and clamped into the bounds of its field:
    [validateAndRepairScore] returns that score with no error, and with
    [wasRepaired] set exactly when it rounded or clamped.  In a response
    whose other fields are in order, so that the validator returns, a value
    outside the bounds, or one that is not an integer, leaves a warning on
    the field and sets [wasRepaired]; no error is recorded on the field, so
    that [isValid] holds as soon as all four criteria are numeric.  In
    particular a concept accuracy of 7 becomes 4. *)
Theorem score_rounded_and_clamped (raw : string)
  (rubric : option EvaluationRubricInput) (parsed : JS.value) (f : ScoreField) :
  recover raw = ParseOk parsed ->
  is_criterion f = true ->
  is_numeric (JS.get parsed (field_name f)) = true ->
  let n := to_number (JS.get parsed (field_name f)) in
  (exists ws,
     validateAndRepairScore StringToNumber NumberToString
       (JS.get parsed (field_name f)) f empty_log =
       Returned ({| score := repaired_score f n;
                    scoreRepaired :=
                      negb (JS.isInteger n) || out_of_bounds f (nearest_integer n) |},
                 {| log_errors := []; log_warnings := ws |}) /\
     Forall (fun w => warn_field w = field_name f) ws /\
     (JS.isInteger n = false ->
        has_warning (field_name f) "Score was not an integer" ws) /\
     (out_of_bounds f (nearest_integer n) = true ->
        has_warning (field_name f) "Score below minimum" ws \/
        has_warning (field_name f) "Score above maximum" ws)) /\
  (fields_convert parsed = true ->
   exists r d,
    validate raw rubric = Returned r /\
    data r = Some d /\
    score_in d f = repaired_score f n /\
    int_in (bmin (SCORE_BOUNDS f)) (bmax (SCORE_BOUNDS f)) (score_in d f) /\
    no_error_on (field_name f) (errors r) /\
    isValid r = all_numeric StringToNumber parsed /\
    (out_of_bounds f n = true ->
       wasRepaired r = true /\
       exists w, In w (warnings r) /\ warn_field w = field_name f) /\
    (JS.isInteger n = false ->
       score_in d f = clamp (SCORE_BOUNDS f) (JS.round n) /\
       wasRepaired r = true /\
       has_warning (field_name f) "Score was not an integer" (warnings r)) /\
    (f = F_concept_accuracy -> n = JS.of_Z 7 ->
       concept_accuracy d = JS.of_Z 4 /\ wasRepaired r = true)).
Proof.
  intros Hp Hf Hn n.
  split.
  { destruct (validateAndRepairScore_numeric StringToNumber NumberToString _ f Hn)
      as (ws & Hst & Hall & Hround & Hclamp).
    exists ws. split; [|split; [exact Hall | split; [exact Hround | exact Hclamp]]].
    rewrite validateAndRepairScore_completes,
      (numeric_convertible StringToNumber _ Hn).
    cbv zeta in Hst. rewrite Hst. reflexivity. }
  intros Hconv.
  rewrite (validate_returns StringToNumber NumberToString JSON_parse
             raw rubric parsed Hp Hconv).
  eexists. apply ex_comm_and. split; [reflexivity|].
  set (r := validate_total raw rubric).
  assert (Ht : JS.truthy parsed = true) by (eapply numeric_get_truthy; eauto).
  destruct (score_step_in_result raw rubric parsed f Hp Ht Hf)
    as (d & Hd & Hs & Hw & _ & Hr & He).
  destruct (validateAndRepairScore_numeric StringToNumber NumberToString _ f Hn)
    as (ws & Hst & Hall & Hround & Hclamp).
  cbv zeta in Hs, Hw, Hr, He, Hst, Hround, Hclamp.
  rewrite Hst in Hs, Hw, Hr, He. cbn [fst snd score scoreRepaired log_errors
    log_warnings] in Hs, Hw, Hr, He.
  fold n in Hs, Hr, Hround, Hclamp. fold r in Hd, Hw, Hr, He.
  assert (Hout : out_of_bounds f n = true ->
                 negb (JS.isInteger n) || out_of_bounds f (nearest_integer n) = true).
  { intros Ho. unfold nearest_integer. destruct (JS.isInteger n); [|reflexivity].
    cbn [negb orb]. exact Ho. }
  assert (Hwarn : negb (JS.isInteger n) || out_of_bounds f (nearest_integer n) = true ->
                  exists w, In w (warnings r) /\ warn_field w = field_name f).
  { intros Ho. apply orb_true_iff in Ho. destruct Ho as [Ho|Ho].
    - apply negb_true_iff in Ho. destruct (Hround Ho) as (w & Hin & Hfw & _).
      exists w. split; [apply Hw, Hin | exact Hfw].
    - destruct (Hclamp Ho) as [(w & Hin & Hfw & _)|(w & Hin & Hfw & _)];
        exists w; (split; [apply Hw, Hin | exact Hfw]). }
  exists d. split; [exact Hd|]. split; [exact Hs|].
  split; [rewrite Hs; apply repaired_score_in_bounds;
          unfold numeric in Hn; apply andb_true_iff in Hn; destruct Hn as [_ Hn];
          apply negb_true_iff in Hn; exact Hn|].
  split; [intros e Hin Hx; destruct (He e Hin Hx)|].
  split; [apply isValid_all_numeric; assumption|].
  split; [intros Ho; split; [apply Hr, Hout, Ho | apply Hwarn, Hout, Ho]|].
  split.
  - intros Hi. split; [rewrite Hs; unfold repaired_score, nearest_integer;
                       rewrite Hi; reflexivity|].
    split; [apply Hr; rewrite Hi; reflexivity|].
    destruct (Hround Hi) as (w & Hin & Hfw & Hm).
    exists w. split; [apply Hw, Hin | split; assumption].
  - intros -> H7. cbn [score_in] in Hs. rewrite Hs, H7.
    split; [reflexivity|]. apply Hr. rewrite H7. reflexivity.
Qed.

(** C8 (amended).  For each of the two text fields of a response that
    parses to a truthy value whose seven fields convert to a primitive: a
    missing field takes the default text and records an error on the field
    (no warning); an empty text takes the default text and records a
    warning; a text longer than 1000 characters is cut to its first 1000
    characters followed by an ellipsis and records a warning; any other
    text is kept untouched.  None of this bears on [isValid], which is
    decided by the four criteria. *)
Theorem text_field_repairs (raw : string)
  (rubric : option EvaluationRubricInput) (parsed : JS.value) (field : string) :
  recover raw = ParseOk parsed ->
  JS.truthy parsed = true ->
  fields_convert parsed = true ->
  In field text_fields ->
  let v := JS.get parsed field in
  let s := to_text v in
  exists r d,
    validate raw rubric = Returned r /\
    data r = Some d /\
    isValid r = all_numeric StringToNumber parsed /\
    (JS.nullish v = true ->
       text_in d field = default_text /\
       has_error field "Missing required field" (errors r) /\
       no_warning_on field (warnings r) /\
       wasRepaired r = true) /\
    (JS.nullish v = false ->
       no_error_on field (errors r) /\
       (String.length s = 0%nat ->
          text_in d field = default_text /\
          has_warning field "Empty string" (warnings r) /\
          wasRepaired r = true) /\
       ((1000 < String.length s)%nat ->
          text_in d field = Text.take 1000 s ++ "..." /\
          String.length (text_in d field) = 1003%nat /\
          has_warning field "String exceeds maximum length" (warnings r) /\
          wasRepaired r = true) /\
       ((0 < String.length s <= 1000)%nat ->
          text_in d field = s /\ no_warning_on field (warnings r))).
Proof.
  intros Hp Ht Hconv Hf v s.
  rewrite (validate_returns StringToNumber NumberToString JSON_parse
             raw rubric parsed Hp Hconv).
  eexists. apply ex_comm_and. split; [reflexivity|].
  set (r := validate_total raw rubric).
  destruct (text_step_in_result raw rubric parsed field Hp Ht Hf)
    as (d & Hd & Htx & Hw & Hw' & He & He' & Hr).
  cbv zeta in Htx, Hw, Hw', He, He', Hr. fold v in Htx, Hw, Hw', He, He', Hr.
  fold r in Hd, Hw, Hw', He, He', Hr.
  exists d. split; [exact Hd|].
  split; [apply isValid_all_numeric; assumption|].
  split.
  - intros Hnull.
    rewrite (validateStringField_missing NumberToString v field 1000 Hnull)
      in Htx, Hw, Hw', He, He', Hr.
    cbn [fst snd text textRepaired log_errors log_warnings] in Htx, Hw, Hw', He, He', Hr.
    split; [exact Htx|].
    split; [eexists; split; [apply He; left; reflexivity | split; reflexivity]|].
    split; [intros w Hin Hx; destruct (Hw' w Hin Hx) | apply Hr; reflexivity].
  - intros Hnull.
    destruct (validateStringField_present NumberToString v field 1000 Hnull
                default_text_fits) as (ws & Hst & _ & Hempty & Hlong & Hnone).
    cbv zeta in Hst, Hempty, Hlong, Hnone. fold s in Hst, Hempty, Hlong, Hnone.
    rewrite Hst in Htx, Hw, Hw', He, He', Hr.
    cbn [fst snd text textRepaired log_errors log_warnings] in Htx, Hw, Hw', He, He', Hr.
    split; [intros e Hin Hx; destruct (He' e Hin Hx)|].
    split; [|split].
    + intros H0. apply Nat.eqb_eq in H0. rewrite H0 in Htx, Hr.
      split; [exact Htx|]. split; [|apply Hr; reflexivity].
      destruct (Hempty H0) as (w & Hin & Hx & Hm).
      exists w. split; [apply Hw, Hin | split; assumption].
    + intros Hl.
      assert (H0 : (String.length s =? 0)%nat = false) by (apply Nat.eqb_neq; lia).
      assert (H1 : (1000 <? String.length s)%nat = true) by (apply Nat.ltb_lt; lia).
      rewrite H0, H1 in Htx, Hr.
      split; [exact Htx|].
      split; [rewrite Htx, length_append, length_take by lia; reflexivity|].
      split; [|apply Hr; reflexivity].
      destruct (Hlong H1) as (w & Hin & Hx & Hm).
      exists w. split; [apply Hw, Hin | split; assumption].
    + intros [Hl1 Hl2].
      assert (H0 : (String.length s =? 0)%nat = false) by (apply Nat.eqb_neq; lia).
      assert (H1 : (1000 <? String.length s)%nat = false) by (apply Nat.ltb_ge; lia).
      rewrite H0, H1 in Htx. split; [exact Htx|].
      intros w Hin Hx. pose proof (Hw' w Hin Hx) as Hin'.
      rewrite (Hnone H0 H1) in Hin'. destruct Hin'.
Qed.
End ValidatorRun.

(* ===================================================================== *)
(** ** The recovery strategy                                              *)
(* ===================================================================== *)

(** C6.  Once the retry count has reached the selector's own maximum of
    2, a result that is not valid is answered by the default scores,
    whatever its errors are. *)
Theorem exhausted_retries_use_default (v : ValidationResult) (retryCount : nat) :
  isValid v = false ->
  (2 <= retryCount)%nat ->
  determineRecoveryStrategy v retryCount = USE_DEFAULT_SCORES.
Proof.
  intros Hv Hr. unfold determineRecoveryStrategy. rewrite Hv.
  assert (H : (retryCount <? 2)%nat = false) by (apply Nat.ltb_ge; exact Hr).
  rewrite H. destruct (existsb _ _); reflexivity.
Qed.

(* ===================================================================== *)
(** ** The evaluation loop                                                *)
(* ===================================================================== *)

Lemma default_result_well_formed (reason : string) :
  well_formed (getDefaultEvaluationResult reason).
Proof.
  unfold well_formed. cbn.
  repeat split; try (exists 0%Z; split; [reflexivity | lia]).
Qed.

Section LoopFacts.

Variable StringToNumber : string -> JS.num.
Variable NumberToString : JS.num -> string.
Variable JSON_parse : string -> option JS.value.
Variable TypeError_message : TypeErrorSite -> string.
Variable client : EvaluationClient.
Variable p : Found.
Variable input : EvaluationInput.

Local Abbreviation step :=
  (iteration StringToNumber NumberToString JSON_parse TypeError_message
     client p input).
Local Abbreviation run_loop :=
  (loop StringToNumber NumberToString JSON_parse TypeError_message
     client p input).
Local Abbreviation after_loop := (exhausted client).

Lemma exhausted_acceptable (st : LoopState) : acceptable client (after_loop st) st.
Proof.
  unfold acceptable, exhausted. cbn.
  split; [eexists; split; [reflexivity | apply default_result_well_formed]|].
  split; [reflexivity|]. split; [discriminate | reflexivity].
Qed.

(** One iteration: it returns an acceptable success, or breaks with the
    retry count unchanged, or continues with the retry count increased by
    one; in each case the prompt of this retry count has been sent. *)
Lemma iteration_cases (st : LoopState) :
  match step st with
  | Return r st' =>
      success r = true /\ acceptable client r st' /\
      retryCount st' = retryCount st /\
      prompts st' = (prompts st ++ [prompt_at input (retryCount st)])%list
  | Break st' =>
      retryCount st' = retryCount st /\ lastError st' = lastError st /\
      prompts st' = (prompts st ++ [prompt_at input (retryCount st)])%list
  | Continue st' =>
      retryCount st' = S (retryCount st) /\
      (exists m, lastError st' = Some m) /\
      prompts st' = (prompts st ++ [prompt_at input (retryCount st)])%list
  end.
Proof.
  unfold iteration, prompt_at.
  destruct (callWithTimeout _) as [resp|err].
  2:{ cbn. split; [reflexivity|]. split; [eexists; reflexivity | reflexivity]. }
  destruct (validateEvaluationResult _ _ _ _ _) as [v|site] eqn:Ev0.
  2:{ cbn. split; [reflexivity|]. split; [eexists; reflexivity | reflexivity]. }
  apply validate_returned in Ev0.
  destruct (isValid v) eqn:Ev.
  - destruct (data v) as [d|] eqn:Ed.
    + cbn. split; [reflexivity|]. split; [|split; reflexivity].
      unfold acceptable. cbn.
      split; [exists d; split; [reflexivity|]|].
      * eapply validate_data_well_formed. rewrite <- Ev0. exact Ed.
      * split; [reflexivity|]. split; [reflexivity | discriminate].
    + destruct (determineRecoveryStrategy _ _); cbn;
        (split; [reflexivity|]); (split; [try reflexivity; eexists; reflexivity
                                         | reflexivity]).
  - destruct (determineRecoveryStrategy _ _); cbn;
      (split; [reflexivity|]); (split; [try reflexivity; eexists; reflexivity
                                       | reflexivity]).
Qed.

(** With enough fuel the loop ends, and what it returns is acceptable;
    the prompts sent extend those sent before. *)
Lemma loop_terminates (fuel : nat) (st : LoopState) :
  (S (maxRetries client) - retryCount st <= fuel)%nat ->
  exists r st',
    run_loop fuel st = Some (r, st') /\ acceptable client r st' /\
    (retryCount st <= retryCount st')%nat.
Proof.
  revert st. induction fuel as [|fuel IH]; intros st Hfuel.
  - cbn. assert (H : (retryCount st <=? maxRetries client)%nat = false)
      by (apply Nat.leb_gt; lia).
    rewrite H. eexists _, _. split; [reflexivity|].
    split; [apply exhausted_acceptable | lia].
  - cbn. destruct (retryCount st <=? maxRetries client)%nat eqn:Hc.
    2:{ eexists _, _. split; [reflexivity|].
        split; [apply exhausted_acceptable | lia]. }
    pose proof (iteration_cases st) as Hi.
    destruct (step st) as [r st'|st'|st'].
    + destruct Hi as (_ & Ha & Hrc & _). eexists _, _.
      split; [reflexivity|]. split; [exact Ha | lia].
    + destruct Hi as (Hrc & _). eexists _, _. split; [reflexivity|].
      split; [apply exhausted_acceptable | lia].
    + destruct Hi as (Hrc & _).
      destruct (IH st') as (r & st'' & Hl & Ha & Hle); [lia|].
      exists r, st''. split; [exact Hl|]. split; [exact Ha | lia].
Qed.


Lemma prompts_upto_S (n : nat) :
  prompts_upto input (S n) = (prompts_upto input n ++ [prompt_at input n])%list.
Proof. unfold prompts_upto. rewrite seq_S, map_app. reflexivity. Qed.

(** The prompts sent by the loop: the full prompt at retry count 0, the
    fallback prompt at every later one, one prompt for each attempt. *)
Lemma loop_prompts (fuel : nat) (st : LoopState) (r : EvaluationResponse)
  (st' : LoopState) :
  run_loop fuel st = Some (r, st') ->
  prompts st = prompts_upto input (retryCount st) ->
  (retryCount st <= S (maxRetries client))%nat ->
  exists n, prompts st' = prompts_upto input n /\
            (n <= S (maxRetries client))%nat /\
            (retryCount st' <= n <= S (retryCount st'))%nat /\
            (success r = true -> n = S (retryCount st')).
Proof.
  revert st. induction fuel as [|fuel IH]; intros st Hl Hp Hb; cbn in Hl;
    destruct (retryCount st <=? maxRetries client)%nat eqn:Hc;
    try discriminate.
  - injection Hl as <- <-. exists (retryCount st).
    split; [exact Hp|]. split; [exact Hb|]. split; [lia | discriminate].
  - apply Nat.leb_le in Hc.
    pose proof (iteration_cases st) as Hi.
    destruct (step st) as [r0 st0|st0|st0].
    + injection Hl as <- <-. destruct Hi as (Hs & _ & Hrc & Hpr).
      exists (S (retryCount st)). rewrite prompts_upto_S, Hpr, Hp, Hrc.
      split; [reflexivity|]. split; [lia|]. split; [lia | reflexivity].
    + injection Hl as <- <-. destruct Hi as (Hrc & _ & Hpr).
      exists (S (retryCount st)). rewrite prompts_upto_S, Hpr, Hp, Hrc.
      split; [reflexivity|]. split; [lia|]. split; [lia | discriminate].
    + destruct Hi as (Hrc & _ & Hpr).
      apply (IH st0 Hl); [rewrite Hpr, Hp, Hrc, prompts_upto_S; reflexivity | lia].
  - injection Hl as <- <-. exists (retryCount st).
    split; [exact Hp|]. split; [exact Hb|]. split; [lia | discriminate].
Qed.

Lemma loop_S (fuel : nat) (st : LoopState) :
  run_loop (S fuel) st =
    if (retryCount st <=? maxRetries client)%nat then
      match step st with
      | Return r st' => Some (r, st')
      | Break st' => Some (after_loop st', st')
      | Continue st' => run_loop fuel st'
      end
    else Some (after_loop st, st).
Proof. reflexivity. Qed.

Lemma loop_stops (fuel : nat) (st : LoopState) :
  (maxRetries client < retryCount st)%nat ->
  run_loop fuel st = Some (after_loop st, st).
Proof.
  intros H. apply Nat.leb_gt in H. destruct fuel; cbn; rewrite H; reflexivity.
Qed.

(** An attempt whose call ends in the [catch] clause. *)
Lemma iteration_catch (st : LoopState) (e : Thrown) :
  callWithTimeout
    (provider_call TypeError_message p (List.length (prompts st))
       EVALUATION_SYSTEM_PROMPT (prompt_at input (retryCount st))
       (config client)) = inr e ->
  step st = Continue {| retryCount := S (retryCount st);
                        lastError := Some (message_of e);
                        tokenUsage := tokenUsage st;
                        prompts := (prompts st ++ [prompt_at input (retryCount st)])%list |}.
Proof.
  intros H. unfold iteration. fold (prompt_at input (retryCount st)).
  rewrite H. reflexivity.
Qed.

(** When every call of the provider ends in the [catch] clause, the loop
    runs until the retry count has passed [maxRetries] and gives up there. *)
Lemma loop_all_fail (fuel : nat) (st : LoopState) :
  always_fails TypeError_message p ->
  (retryCount st <= S (maxRetries client))%nat ->
  (S (maxRetries client) - retryCount st <= fuel)%nat ->
  exists st',
    run_loop fuel st = Some (after_loop st', st') /\
    retryCount st' = S (maxRetries client) /\
    tokenUsage st' = tokenUsage st /\
    ((retryCount st <= maxRetries client)%nat -> exists m, lastError st' = Some m).
Proof.
  intros Hf. revert st. induction fuel as [|fuel IH]; intros st Hb Hfuel.
  - exists st. rewrite loop_stops by lia.
    split; [reflexivity|]. split; [lia|]. split; [reflexivity | lia].
  - destruct (Nat.le_gt_cases (retryCount st) (maxRetries client)) as [Hc|Hc].
    2:{ exists st. rewrite loop_stops by lia.
        split; [reflexivity|]. split; [lia|]. split; [reflexivity | lia]. }
    rewrite loop_S. apply Nat.leb_le in Hc. rewrite Hc. apply Nat.leb_le in Hc.
    destruct (Hf (List.length (prompts st)) EVALUATION_SYSTEM_PROMPT
                (prompt_at input (retryCount st)) (config client)) as [e He].
    rewrite (iteration_catch st e He).
    set (st1 := {| retryCount := S (retryCount st);
                   lastError := Some (message_of e);
                   tokenUsage := tokenUsage st;
                   prompts := (prompts st ++ [prompt_at input (retryCount st)])%list |}).
    destruct (IH st1) as (st' & Hl & Hrc & Htu & Hm); [cbn; lia | cbn; lia |].
    exists st'. split; [exact Hl|]. split; [exact Hrc|]. split; [exact Htu|].
    intros _. destruct (Nat.le_gt_cases (S (retryCount st)) (maxRetries client))
      as [Hle|Hgt].
    + apply Hm. exact Hle.
    + rewrite loop_stops in Hl by (cbn; lia).
      apply (f_equal (option_map snd)) in Hl. cbn in Hl.
      injection Hl as <-. eexists. reflexivity.
Qed.

End LoopFacts.

(* ===================================================================== *)
(** ** [evaluate]                                                         *)
(* ===================================================================== *)



(** X12.  When every call of the provider ends in the [catch] clause,
    [evaluate] makes [maxRetries + 1] attempts and resolves with the failed
    response, whose retry count is [maxRetries + 1]. *)
Lemma evaluate_all_attempts_fail (StringToNumber : string -> JS.num)
  (NumberToString : JS.num -> string) (JSON_parse : string -> option JS.value)
  (TypeError_message : TypeErrorSite -> string)
  (providers : Registry) (client : EvaluationClient) (input : EvaluationInput)
  (p : Found) :
  getProvider providers (provider (config client)) = inl p ->
  always_fails TypeError_message p ->
  exists r reason,
    evaluate StringToNumber NumberToString JSON_parse TypeError_message providers client input =
      Some {| completion := Resolved r;
              sent := prompts_upto input (S (maxRetries client)) |} /\
    success r = false /\
    resp_data r = Some (getDefaultEvaluationResult reason) /\
    resp_metadata r =
      Some {| model_used := provider (config client);
              model_version := model (config client);
              token_usage := None;
              retry_count := S (maxRetries client) |}.
Proof.
  intros Hp Hf. unfold evaluate. rewrite Hp.
  destruct (loop_all_fail StringToNumber NumberToString JSON_parse TypeError_message client p input
              (S (maxRetries client)) initial_state Hf)
    as (st & Hl & Hrc & Htu & _); [cbn; lia | cbn; lia |].
  destruct (loop_prompts StringToNumber NumberToString JSON_parse TypeError_message client p input
              _ _ _ _ Hl eq_refl) as (n & Hn & Hle & Hbetween & _); [cbn; lia|].
  rewrite Hl. assert (n = S (maxRetries client)) as -> by lia.
  rewrite Hn. eexists _, _. split; [reflexivity|]. cbn.
  split; [reflexivity|]. split; [reflexivity|].
  unfold metadata_at. rewrite Hrc, Htu. reflexivity.
Qed.

(** X13.  The prompts of a run: the full prompt first, the fallback prompt on
    every later attempt, at most [maxRetries + 1] prompts in all; a
    success reports as retry count the number of attempts before it. *)
Lemma evaluate_prompts (StringToNumber : string -> JS.num)
  (NumberToString : JS.num -> string) (JSON_parse : string -> option JS.value)
  (TypeError_message : TypeErrorSite -> string)
  (providers : Registry) (client : EvaluationClient) (input : EvaluationInput)
  (r : EvaluationResponse) (trace : list UserPrompt) :
  evaluate StringToNumber NumberToString JSON_parse TypeError_message providers client input =
    Some {| completion := Resolved r; sent := trace |} ->
  exists n, trace = prompts_upto input n /\ (n <= S (maxRetries client))%nat /\
    (success r = true ->
       exists m, resp_metadata r = Some m /\ n = S (retry_count m)).
Proof.
  unfold evaluate. destruct (getProvider _ _) as [p|e]; [|discriminate].
  destruct (loop _ _ _ _ _ _ _ _ _) as [[r' st]|] eqn:Hl; [|discriminate].
  intros H. injection H as <- <-.
  destruct (loop_prompts _ _ _ _ _ _ _ _ _ _ _ Hl eq_refl) as (n & Hn & Hle & _ & Hs);
    [cbn; lia|].
  exists n. split; [exact Hn|]. split; [exact Hle|].
  intros Hok.
  destruct (loop_terminates StringToNumber NumberToString JSON_parse TypeError_message client p input
              (S (maxRetries client)) initial_state) as (r2 & st2 & Hl2 & Ha & _);
    [cbn; lia|].
  rewrite Hl in Hl2. injection Hl2 as <- <-.
  destruct Ha as (_ & Hm & _). eexists. split; [exact Hm|]. cbn. apply Hs, Hok.
Qed.

(* ===================================================================== *)
(** ** Scenarios                                                          *)
(* ===================================================================== *)

(** C3.  With the default client ([maxRetries = 2]) and a provider whose
    every call runs into the deadline, [evaluate] makes three attempts and
    resolves with the failed response and the all-zero default result; the
    retry count it reports is 3. *)
Theorem timeouts_report_three_retries (StringToNumber : string -> JS.num)
  (NumberToString : JS.num -> string) (JSON_parse : string -> option JS.value)
  (TypeError_message : TypeErrorSite -> string)
  (input : EvaluationInput) :
  evaluate StringToNumber NumberToString JSON_parse TypeError_message
           [("openai", constant_provider DeadlineFirst)] default_client input =
    Some {| completion :=
              Resolved
                {| success := false;
                   resp_data := Some (getDefaultEvaluationResult "Request timeout");
                   resp_metadata :=
                     Some {| model_used := "openai";
                             model_version := "gpt-4o-mini";
                             token_usage := None;
                             retry_count := 3 |};
                   resp_error :=
                     Some {| code := "EVALUATION_FAILED";
                             error_message := "Request timeout" |} |};
            sent := [buildEvaluationPrompt input; buildFallbackPrompt input;
                     buildFallbackPrompt input] |}.
Proof. reflexivity. Qed.

(** C4.  A response that no recovery step can parse, met at retry count
    0: the selector answers [RETRY_SAME_PROMPT], and yet the next attempt
    of [evaluate] is made with the fallback prompt, as is the one after. *)
Theorem retry_after_parse_failure_uses_fallback
  (StringToNumber : string -> JS.num) (NumberToString : JS.num -> string)
  (TypeError_message : TypeErrorSite -> string)
  (input : EvaluationInput) :
  let raw := "I cannot do that" in
  parseEvaluationResponse Json.parse raw =
    ParseFail "Failed to parse response as JSON after all recovery attempts" /\
  (exists validation,
     validateEvaluationResult StringToNumber NumberToString Json.parse raw None =
       Returned validation /\
     determineRecoveryStrategy validation 0 = RETRY_SAME_PROMPT) /\
  option_map sent
    (evaluate StringToNumber NumberToString Json.parse TypeError_message
              [("openai", constant_provider (text_response raw))]
              default_client input) =
    Some [buildEvaluationPrompt input; buildFallbackPrompt input;
          buildFallbackPrompt input].
Proof.
  cbv zeta. split; [vm_compute; reflexivity|].
  split; [eexists; split|]; vm_compute; reflexivity.
Qed.

(** C7.  The recoverer parses the sample response in its three encodings
    (bare, inside a fenced block within prose, with single quotes and a
    trailing comma), and the three parsed objects are the same. *)
Theorem three_encodings_parse_alike :
  parseEvaluationResponse Json.parse sample_bare = ParseOk sample_object /\
  parseEvaluationResponse Json.parse sample_fenced = ParseOk sample_object /\
  parseEvaluationResponse Json.parse sample_sloppy = ParseOk sample_object.
Proof. repeat split; vm_compute; reflexivity. Qed.

(** C9.  The weighted score of the edge function leaves the range of 0 to
    10: with the rubric of a question in the shape the repository gives it
    each weight is an object and the score is [NaN]; with the default
    weights a negative criterion gives a negative score. *)
Theorem weighted_score_leaves_range (StringToNumber : string -> JS.num) :
  finalScore StringToNumber sample_weighted sample_rubric = Some JS.NaN /\
  finalScore StringToNumber sample_negative JS.VNull = Some (JS.of_Z (-20)) /\
  ~ (exists n, finalScore StringToNumber sample_weighted sample_rubric = Some n /\
               int_in 0 10 n) /\
  ~ (exists n, finalScore StringToNumber sample_negative JS.VNull = Some n /\
               int_in 0 10 n).
Proof.
  assert (H1 : finalScore StringToNumber sample_weighted sample_rubric = Some JS.NaN)
    by (vm_compute; reflexivity).
  assert (H2 : finalScore StringToNumber sample_negative JS.VNull =
               Some (JS.of_Z (-20)))
    by (vm_compute; reflexivity).
  split; [exact H1|]. split; [exact H2|]. rewrite H1, H2. split.
  - intros (n & Hn & z & Hz & _). injection Hn as <-. exact Hz.
  - intros (n & Hn & z & Hz & Hr). injection Hn as <-.
    unfold is_int, JS.of_Z in Hz.
    apply (proj1 (inject_Z_injective _ _)) in Hz. lia.
Qed.

(** C8, as stated, fails: a missing text field is recorded as an error
    on the field, and no warning is recorded for it. *)
Lemma missing_text_is_recorded_as_error :
  exists r,
    validateEvaluationResult sample_StringToNumber sample_NumberToString
      Json.parse sample_no_feedback None = Returned r /\
    has_error "overall_feedback" "Missing required field" (errors r) /\
    no_warning_on "overall_feedback" (warnings r).
Proof.
  assert (H : validateEvaluationResult sample_StringToNumber sample_NumberToString
                Json.parse sample_no_feedback None =
              Returned
              {| isValid := true;
                 data := Some {| concept_accuracy := JS.of_Z 3;
                                 example_usage := JS.of_Z 2;
                                 edge_cases := JS.of_Z 1;
                                 clarity := JS.of_Z 1;
                                 final_score := JS.of_Z 7;
                                 overall_feedback := default_text;
                                 improvement_tips := "ok" |};
                 errors := [ {| err_field := "overall_feedback";
                                err_message := "Missing required field";
                                err_received := JS.VUndefined;
                                err_expected := "non-empty string" |} ];
                 warnings := [];
                 wasRepaired := true |}) by (vm_compute; reflexivity).
  eexists. split; [exact H|]. split.
  - eexists. split; [left; reflexivity | split; reflexivity].
  - intros w [].
Qed.

(** C10, as stated, fails: the text [null] parses, to the value [null],
    and the validator returns no data for it. *)
Lemma null_response_has_no_data :
  parseEvaluationResponse Json.parse "null" = ParseOk JS.VNull /\
  exists r,
    validateEvaluationResult sample_StringToNumber sample_NumberToString
      Json.parse "null" None = Returned r /\
    data r = None.
Proof.
  split; [vm_compute; reflexivity|].
  eexists. split; vm_compute; reflexivity.
Qed.

(** C1, as stated, fails: the four criteria of this response are numbers,
    and the final score it provides is an object with a property
    [toString]; [Number] throws on it, and so does the validator. *)
Lemma provided_final_score_can_throw :
  exists parsed,
    parseEvaluationResponse Json.parse sample_final_object = ParseOk parsed /\
    all_numeric sample_StringToNumber parsed = true /\
    validateEvaluationResult sample_StringToNumber sample_NumberToString
      Json.parse sample_final_object None = Threw ToPrimitive.
Proof.
  eexists. split; [vm_compute; reflexivity|].
  split; vm_compute; reflexivity.
Qed.

(* ===================================================================== *)
(** ** The theorems at the sample inputs                                  *)
(* ===================================================================== *)

Lemma sample_over_parses :
  parseEvaluationResponse Json.parse sample_over = ParseOk
    (JS.VObj [("concept_accuracy", JS.VNum (JS.of_Z 7));
              ("example_usage", JS.VNum (JS.of_Z 2));
              ("edge_cases", JS.VNum (JS.of_Z 1));
              ("clarity", JS.VNum (JS.of_Z 1));
              ("final_score", JS.VNum (JS.of_Z 11));
              ("overall_feedback", JS.VStr "ok");
              ("improvement_tips", JS.VStr "ok")]).
Proof. vm_compute. reflexivity. Qed.

Lemma sample_bare_parses :
  parseEvaluationResponse Json.parse sample_bare = ParseOk sample_object.
Proof. vm_compute. reflexivity. Qed.

Lemma final_score_is_recomputed_witness :
  exists parsed,
    parseEvaluationResponse Json.parse sample_over = ParseOk parsed /\
    all_numeric sample_StringToNumber parsed = true /\
    fields_convert parsed = true /\
    exists r,
      validateEvaluationResult sample_StringToNumber sample_NumberToString
        Json.parse sample_over None = Returned r /\
      isValid r = true.
Proof.
  eexists. split; [exact sample_over_parses|].
  split; [reflexivity|]. split; [reflexivity|].
  destruct (final_score_is_recomputed sample_StringToNumber
              sample_NumberToString Json.parse sample_over None _
              sample_over_parses eq_refl eq_refl) as (r & Hr & Hv & _).
  exists r. split; [exact Hr | exact Hv].
Defined.

Lemma score_rounded_and_clamped_witness :
  exists parsed,
    parseEvaluationResponse Json.parse sample_over = ParseOk parsed /\
    is_criterion F_concept_accuracy = true /\
    numeric sample_StringToNumber (JS.get parsed "concept_accuracy") = true /\
    fields_convert parsed = true /\
    exists r d,
      validateEvaluationResult sample_StringToNumber sample_NumberToString
        Json.parse sample_over None = Returned r /\
      data r = Some d /\ concept_accuracy d = JS.of_Z 4 /\
      wasRepaired r = true /\ isValid r = true.
Proof.
  eexists. split; [exact sample_over_parses|].
  split; [reflexivity|]. split; [reflexivity|]. split; [reflexivity|].
  destruct (proj2 (score_rounded_and_clamped sample_StringToNumber
                     sample_NumberToString Json.parse sample_over None _
                     F_concept_accuracy sample_over_parses eq_refl eq_refl)
              eq_refl)
    as (r & d & Hr & Hd & _ & _ & _ & Hv & _ & _ & H7).
  destruct (H7 eq_refl eq_refl) as [H4 Hrep].
  exists r, d. split; [exact Hr|]. split; [exact Hd|]. split; [exact H4|].
  split; [exact Hrep|]. rewrite Hv. reflexivity.
Defined.

Lemma exhausted_retries_use_default_witness :
  isValid (parse_failure "Invalid JSON" "null") = false /\ (2 <= 2)%nat /\
  determineRecoveryStrategy (parse_failure "Invalid JSON" "null") 2 =
    USE_DEFAULT_SCORES.
Proof.
  split; [reflexivity|]. split; [lia|].
  apply exhausted_retries_use_default; [reflexivity | lia].
Defined.

Lemma text_field_repairs_witness :
  parseEvaluationResponse Json.parse sample_bare = ParseOk sample_object /\
  JS.truthy sample_object = true /\
  fields_convert sample_object = true /\
  In "overall_feedback" text_fields /\
  exists r d,
    validateEvaluationResult sample_StringToNumber sample_NumberToString
      Json.parse sample_bare None = Returned r /\
    data r = Some d /\
    isValid r = all_numeric sample_StringToNumber sample_object.
Proof.
  split; [exact sample_bare_parses|]. split; [reflexivity|].
  split; [reflexivity|]. split; [left; reflexivity|].
  destruct (text_field_repairs sample_StringToNumber sample_NumberToString
              Json.parse sample_bare None sample_object "overall_feedback"
              sample_bare_parses eq_refl eq_refl (or_introl eq_refl))
    as (r & d & Hr & Hd & Hv & _).
  exists r, d. split; [exact Hr|]. split; [exact Hd | exact Hv].
Defined.

Lemma validated_data_within_bounds_witness :
  parseEvaluationResponse Json.parse sample_bare = ParseOk sample_object /\
  JS.truthy sample_object = true /\
  fields_convert sample_object = true /\
  exists r d,
    validateEvaluationResult sample_StringToNumber sample_NumberToString
      Json.parse sample_bare None = Returned r /\
    data r = Some d /\
    int_in 0 10 (final_score d).
Proof.
  split; [exact sample_bare_parses|]. split; [reflexivity|].
  split; [reflexivity|].
  destruct (validated_data_within_bounds sample_StringToNumber sample_NumberToString
              Json.parse sample_bare None sample_object sample_bare_parses
              eq_refl eq_refl)
    as (r & d & Hr & Hd & _ & _ & _ & _ & _ & Hf & _).
  exists r, d. split; [exact Hr|]. split; [exact Hd | exact Hf].
Defined.


(* ===================================================================== *)
(** ** Further properties of the recovery strategy and the registry       *)
(* ===================================================================== *)

(** X1.  The selector never answers [FAIL]; it answers [USE_DEFAULT_SCORES]
    exactly for a result that is not valid at a retry count of 2 or more;
    below 2, a parse failure is retried with the same prompt at retry
    count 0 and with the simplified one at 1, and field errors are retried
    with the simplified prompt. *)
Theorem strategy_table (v : ValidationResult) (retryCount : nat) :
  let s := determineRecoveryStrategy v retryCount in
  let parse_failed :=
    existsb (fun e => String.eqb (err_field e) "response") (errors v) in
  s <> FAIL /\
  (s = USE_DEFAULT_SCORES <-> isValid v = false /\ (2 <= retryCount)%nat) /\
  (s = RETRY_SIMPLIFIED <->
     isValid v = false /\
     (retryCount = 1%nat \/ (retryCount = 0%nat /\ parse_failed = false))) /\
  (s = RETRY_SAME_PROMPT <->
     isValid v = true \/ (retryCount = 0%nat /\ parse_failed = true)).
Proof.
  cbv zeta. unfold determineRecoveryStrategy.
  destruct (isValid v); [repeat split; try discriminate; try tauto;
                         intros [[=] _]|].
  destruct (existsb _ _);
    (destruct retryCount as [|[|n]]; cbn;
     [ | | assert (H : (S (S n) <? 2)%nat = false) by (apply Nat.ltb_ge; lia);
           try rewrite H ]);
    repeat split; try discriminate; try tauto; try lia;
    try (intros [_ ?]; lia);
    try (intros [_ [?|[? ?]]]; try lia; try discriminate);
    try (intros [?|[? ?]]; try lia; try discriminate);
    try (intros _; split; [reflexivity | lia]);
    try (intros _; split; [reflexivity | auto]);
    auto.
Qed.

(** X2.  A provider registered under its name is the one [getProvider] finds
    for that name, replacing any earlier one and hiding an inherited
    member of that name; every other name is looked up as before.  (The
    name [__proto__] makes no entry.) *)
Theorem register_then_get (p : LLMProvider) (providers : Registry) (nm : string) :
  name p <> "__proto__" ->
  exists providers',
    registerProvider p providers = Some providers' /\
    getProvider providers' (name p) = inl (Registered p) /\
    (nm <> name p -> getProvider providers' nm = getProvider providers nm).
Proof.
  intros Hn. apply String.eqb_neq in Hn.
  unfold registerProvider. rewrite Hn. eexists. split; [reflexivity|].
  unfold getProvider. cbn [own_property]. rewrite String.eqb_refl.
  split; [reflexivity|]. intros H. apply String.eqb_neq in H. rewrite H.
  reflexivity.
Qed.

Lemma register_then_get_witness :
  name (constant_provider DeadlineFirst) <> "__proto__" /\
  exists providers',
    registerProvider (constant_provider DeadlineFirst) [] = Some providers' /\
    getProvider providers' "openai" =
      inl (Registered (constant_provider DeadlineFirst)).
Proof.
  assert (H : name (constant_provider DeadlineFirst) <> "__proto__")
    by discriminate.
  split; [exact H|].
  destruct (register_then_get (constant_provider DeadlineFirst) [] "openai" H)
    as (providers' & Hr & Hg & _).
  exists providers'. split; [exact Hr | exact Hg].
Defined.

Lemma own_property_absent (providers : Registry) (nm : string) :
  (forall k q, In (k, q) providers -> k <> nm) ->
  own_property providers nm = None.
Proof.
  intros H. induction providers as [|[k q] rest IH]; [reflexivity|].
  cbn [own_property].
  assert (Hk : String.eqb nm k = false).
  { apply String.eqb_neq. intros E. apply (H k q); [left; reflexivity | auto]. }
  rewrite Hk. apply IH. intros k' q' Hin. apply (H k' q'). right. exact Hin.
Qed.

(** X3.  When the registry has no provider under the configured name, and
    the name is not one that the registry object inherits, [evaluate]
    rejects with the error of [getProvider] and calls no provider. *)
Theorem unknown_provider_rejects (StringToNumber : string -> JS.num)
  (NumberToString : JS.num -> string) (JSON_parse : string -> option JS.value)
  (TypeError_message : TypeErrorSite -> string)
  (providers : Registry) (client : EvaluationClient) (input : EvaluationInput) :
  (forall k q, In (k, q) providers -> k <> provider (config client)) ->
  ~ In (provider (config client)) Object_prototype_members ->
  evaluate StringToNumber NumberToString JSON_parse TypeError_message
    providers client input =
    Some {| completion :=
              Rejected (ErrorObject ("Unknown LLM provider: " ++
                                     provider (config client)));
            sent := [] |}.
Proof.
  intros H Hm. unfold evaluate, getProvider.
  rewrite (own_property_absent providers _ H).
  destruct (existsb _ Object_prototype_members) eqn:E; [|reflexivity].
  apply existsb_exists in E. destruct E as (m & Hin & Heq).
  apply String.eqb_eq in Heq. subst m. destruct (Hm Hin).
Qed.

Lemma unknown_provider_rejects_witness :
  evaluate sample_StringToNumber sample_NumberToString Json.parse
      sample_TypeError_message
    [("openai", constant_provider DeadlineFirst)]
    (new_EvaluationClient
       {| opt_config := Some {| provider := "google"; model := "gemini";
                                temperature := JS.Fin (1 # 10);
                                max_tokens := JS.of_Z 1024 |};
          opt_maxRetries := None; opt_timeoutMs := None |})
    sample_input =
  Some {| completion := Rejected (ErrorObject "Unknown LLM provider: google");
          sent := [] |}.
Proof.
  apply (unknown_provider_rejects sample_StringToNumber sample_NumberToString
           Json.parse sample_TypeError_message).
  - intros k q [H|[]]. injection H as <- _. discriminate.
  - cbn. intros H.
    repeat match type of H with
           | _ \/ _ => destruct H as [H|H]; [discriminate|]
           end.
    exact H.
Defined.

(** X21.  When the configured name is no key of the registry but the name
    of a member that the registry object inherits (as [toString] or
    [constructor]), [getProvider] does not throw: [evaluate] makes
    [maxRetries + 1] attempts, each of which ends in the [catch] clause,
    and resolves with the failed response and the default result. *)
Theorem inherited_member_exhausts_retries (StringToNumber : string -> JS.num)
  (NumberToString : JS.num -> string) (JSON_parse : string -> option JS.value)
  (TypeError_message : TypeErrorSite -> string)
  (providers : Registry) (client : EvaluationClient) (input : EvaluationInput) :
  (forall k q, In (k, q) providers -> k <> provider (config client)) ->
  In (provider (config client)) Object_prototype_members ->
  getProvider providers (provider (config client)) =
    inl (Inherited (provider (config client))) /\
  exists r,
    evaluate StringToNumber NumberToString JSON_parse TypeError_message
      providers client input =
      Some {| completion := Resolved r;
              sent := prompts_upto input (S (maxRetries client)) |} /\
    success r = false /\
    resp_data r =
      Some (getDefaultEvaluationResult
              (str_or (TypeError_message
                         (InheritedMember (provider (config client))))
                      "Evaluation failed")) /\
    resp_metadata r =
      Some {| model_used := provider (config client);
              model_version := model (config client);
              token_usage := None;
              retry_count := S (maxRetries client) |}.
Proof.
  intros H Hm.
  assert (Hg : getProvider providers (provider (config client)) =
               inl (Inherited (provider (config client)))).
  { unfold getProvider. rewrite (own_property_absent providers _ H).
    assert (E : existsb (String.eqb (provider (config client)))
                  Object_prototype_members = true).
    { apply existsb_exists. eexists. split; [exact Hm | apply String.eqb_refl]. }
    rewrite E. reflexivity. }
  split; [exact Hg|].
  unfold evaluate. rewrite Hg.
  set (p := Inherited (provider (config client))).
  assert (Hf : always_fails TypeError_message p).
  { intros k sys up cfg. eexists. reflexivity. }
  assert (Hlast : forall fuel st,
            (retryCount st <= maxRetries client)%nat ->
            (S (maxRetries client) - retryCount st <= fuel)%nat ->
            exists st',
              loop StringToNumber NumberToString JSON_parse TypeError_message
                client p input fuel st = Some (exhausted client st', st') /\
              lastError st' =
                Some (TypeError_message
                        (InheritedMember (provider (config client)))) /\
              retryCount st' = S (maxRetries client) /\
              tokenUsage st' = tokenUsage st).
  { induction fuel as [|fuel IH]; intros st Hb Hfuel; [lia|].
    rewrite loop_S. apply Nat.leb_le in Hb. rewrite Hb. apply Nat.leb_le in Hb.
    rewrite (iteration_catch StringToNumber NumberToString JSON_parse
               TypeError_message client p input st _ eq_refl).
    cbn [message_of].
    destruct (Nat.le_gt_cases (S (retryCount st)) (maxRetries client)) as [Hle|Hgt].
    - match goal with
      | |- context [loop _ _ _ _ _ _ _ fuel ?s] =>
          destruct (IH s) as (st' & Hl & He & Hrc & Htu); [exact Hle | cbn; lia |]
      end.
      exists st'. split; [exact Hl|]. split; [exact He|]. split; [exact Hrc|].
      exact Htu.
    - rewrite loop_stops by (cbn; lia).
      eexists. split; [reflexivity|]. cbn. split; [reflexivity|].
      split; [lia | reflexivity]. }
  destruct (Hlast (S (maxRetries client)) initial_state) as (st & Hl & He & Hrc & Htu);
    [cbn; lia | cbn; lia |].
  destruct (loop_prompts StringToNumber NumberToString JSON_parse TypeError_message
              client p input _ _ _ _ Hl eq_refl) as (n & Hn & Hle & Hbetween & _);
    [cbn; lia|].
  rewrite Hl. assert (n = S (maxRetries client)) as -> by lia.
  rewrite Hn. eexists. split; [reflexivity|]. cbn.
  split; [reflexivity|]. rewrite He. split; [reflexivity|].
  unfold metadata_at. rewrite Hrc, Htu. reflexivity.
Qed.

Lemma inherited_member_exhausts_retries_witness :
  let client :=
    new_EvaluationClient
      {| opt_config := Some {| provider := "toString"; model := "gpt-4o-mini";
                               temperature := JS.Fin (1 # 10);
                               max_tokens := JS.of_Z 1024 |};
         opt_maxRetries := None; opt_timeoutMs := None |} in
  exists r,
    evaluate sample_StringToNumber sample_NumberToString Json.parse
      sample_TypeError_message
      [("openai", constant_provider DeadlineFirst)] client sample_input =
      Some {| completion := Resolved r;
              sent := prompts_upto sample_input 3 |} /\
    success r = false.
Proof.
  cbv zeta.
  destruct (inherited_member_exhausts_retries sample_StringToNumber
              sample_NumberToString Json.parse sample_TypeError_message
              [("openai", constant_provider DeadlineFirst)]
              (new_EvaluationClient
                 {| opt_config := Some {| provider := "toString";
                                          model := "gpt-4o-mini";
                                          temperature := JS.Fin (1 # 10);
                                          max_tokens := JS.of_Z 1024 |};
                    opt_maxRetries := None; opt_timeoutMs := None |})
              sample_input) as (_ & r & Hr & Hs & _).
  - intros k q [H|[]]. injection H as <- _. discriminate.
  - cbn. tauto.
  - exists r. split; [exact Hr | exact Hs].
Defined.

(* ===================================================================== *)
(** ** The frame counters of the face analysis helper                     *)
(* ===================================================================== *)

Lemma onResults_keeps (r : Face.Results) (c : Face.Counters) :
  (Face.centeredFrames c <= Face.faceDetectedFrames c)%nat ->
  Face.faceDetectedFrames c = Face.stableFrames c ->
  (Face.faceDetectedFrames c <= Face.totalFrames c)%nat ->
  let c' := Face.onResults r c in
  (Face.centeredFrames c' <= Face.faceDetectedFrames c')%nat /\
  Face.faceDetectedFrames c' = Face.stableFrames c' /\
  (Face.faceDetectedFrames c' <= Face.totalFrames c')%nat /\
  Face.totalFrames c' = S (Face.totalFrames c).
Proof.
  intros H1 H2 H3. unfold Face.onResults.
  destruct (Face.detections r) as [|box rest]; cbn; [lia|].
  match goal with |- context [if ?b then _ else _] => destruct b end; lia.
Qed.

(** X4.  Starting from zero, after any sequence of frames the counters count
    every frame, the frames with a face are the stable frames, and the
    centered frames are among them. *)
Theorem frame_counters_invariant (frames : list Face.Results) :
  let c := Face.after_frames frames Face.initial in
  Face.totalFrames c = List.length frames /\
  Face.faceDetectedFrames c = Face.stableFrames c /\
  (Face.centeredFrames c <= Face.faceDetectedFrames c <= Face.totalFrames c)%nat /\
  Face.faceDetectedFrames c =
    List.length (filter (fun r => match Face.detections r with
                                  | [] => false
                                  | _ => true
                                  end) frames).
Proof.
  cbv zeta. unfold Face.after_frames.
  assert (G : forall fs c,
    (Face.centeredFrames c <= Face.faceDetectedFrames c)%nat ->
    Face.faceDetectedFrames c = Face.stableFrames c ->
    (Face.faceDetectedFrames c <= Face.totalFrames c)%nat ->
    let c' := fold_left (fun acc r => Face.onResults r acc) fs c in
    Face.totalFrames c' = (Face.totalFrames c + List.length fs)%nat /\
    Face.faceDetectedFrames c' = Face.stableFrames c' /\
    (Face.centeredFrames c' <= Face.faceDetectedFrames c' <= Face.totalFrames c')%nat /\
    Face.faceDetectedFrames c' =
      (Face.faceDetectedFrames c +
       List.length (filter (fun r => match Face.detections r with
                                     | [] => false
                                     | _ => true
                                     end) fs))%nat).
  { induction fs as [|r fs IH]; intros c H1 H2 H3; cbn.
    - repeat split; lia.
    - destruct (onResults_keeps r c H1 H2 H3) as (K1 & K2 & K3 & K4).
      destruct (IH (Face.onResults r c) K1 K2 K3) as (J1 & J2 & J3 & J4).
      cbv zeta in J1, J2, J3, J4.
      split; [rewrite J1, K4; lia|]. split; [exact J2|]. split; [exact J3|].
      rewrite J4. unfold Face.onResults.
      destruct (Face.detections r); cbn; lia. }
  destruct (G frames Face.initial) as (A & B & C & D); cbn; try lia.
  cbv zeta in A, B, C, D. cbn in A, D. repeat split; try assumption; lia.
Qed.

(* ===================================================================== *)
(** ** Further properties of the validator                                *)
(* ===================================================================== *)

Section ValidatorMore.

Variable StringToNumber : string -> JS.num.
Variable NumberToString : JS.num -> string.
Variable JSON_parse : string -> option JS.value.

Local Abbreviation repair := (validateAndRepairScore_total StringToNumber NumberToString).
Local Abbreviation check_text := (validateStringField_total NumberToString).
Local Abbreviation check_final := (check_final_score_total StringToNumber NumberToString).
Local Abbreviation validate :=
  (validateEvaluationResult StringToNumber NumberToString JSON_parse).
Local Abbreviation validate_total :=
  (validateEvaluationResult_total StringToNumber NumberToString JSON_parse).
Local Abbreviation recover := (parseEvaluationResponse JSON_parse).
Local Abbreviation is_numeric := (numeric StringToNumber).
Local Abbreviation to_number := (JS.number_of StringToNumber).
Local Abbreviation to_text := (JS.text_of NumberToString).

(** X5.  A response that does not parse, or parses to a falsy value: the
    result is not valid, has no data, no warning and is not repaired; its
    single error is on [response] and shows the first 200 characters; the
    selector retries it with the same prompt at retry count 0 and with the
    simplified prompt at 1. *)
Theorem unparsed_response_result (raw : string)
  (rubric : option EvaluationRubricInput) :
  (forall parsed, recover raw = ParseOk parsed -> JS.truthy parsed = false) ->
  exists r,
    validate raw rubric = Returned r /\
    isValid r = false /\ data r = None /\ warnings r = [] /\
    wasRepaired r = false /\
    (exists e, errors r = [e] /\ err_field e = "response" /\
               err_message e <> EmptyString /\
               err_received e = JS.VStr (Text.take 200 raw)) /\
    determineRecoveryStrategy r 0 = RETRY_SAME_PROMPT /\
    determineRecoveryStrategy r 1 = RETRY_SIMPLIFIED /\
    determineRecoveryStrategy r 2 = USE_DEFAULT_SCORES.
Proof.
  intros H.
  rewrite (validate_returns_unparsed StringToNumber NumberToString JSON_parse
             raw rubric H).
  eexists. split; [reflexivity|].
  set (r := validate_total raw rubric).
  destruct (validate_no_object StringToNumber NumberToString JSON_parse raw rubric H)
    as (m & Hr & Hm).
  subst r. rewrite Hr. cbn.
  repeat split; try reflexivity.
  eexists. split; [reflexivity|]. cbn. repeat split; auto.
Qed.

(** The messages of the two errors of a score step. *)
Lemma validateAndRepairScore_error_message (v : JS.value) (f : ScoreField) :
  is_numeric v = false ->
  exists e,
    repair v f empty_log =
      ({| score := JS.of_Z 0; scoreRepaired := true |},
       {| log_errors := [e]; log_warnings := [] |}) /\
    err_field e = field_name f /\ err_received e = v /\
    err_message e = if JS.nullish v then "Missing required field"
                    else "Invalid number".
Proof.
  unfold numeric, validateAndRepairScore_total. intros H.
  rewrite coercion_is_number_of.
  destruct (JS.nullish v) eqn:En.
  - eexists. split; [reflexivity|]. cbn. auto.
  - cbn in H. apply negb_false_iff in H. rewrite H.
    eexists. split; [reflexivity|]. cbn. auto.
Qed.

(** The entries pushed by the step of a criterion are entries of the
    result. *)
Lemma score_step_entries_in_result (raw : string)
  (rubric : option EvaluationRubricInput) (parsed : JS.value) (f : ScoreField) :
  recover raw = ParseOk parsed ->
  JS.truthy parsed = true ->
  is_criterion f = true ->
  let st := repair (JS.get parsed (field_name f)) f empty_log in
  forall e, In e (log_errors (snd st)) -> In e (errors (validate_total raw rubric)).
Proof.
  intros Hp Ht Hf st e. subst st.
  pose proof (validate_explicit StringToNumber NumberToString JSON_parse
                raw rubric parsed Hp Ht) as H.
  cbv zeta in H. rewrite H. clear H. cbn [errors].
  destruct f; try discriminate; cbn [field_name log_app log_errors];
    rewrite !in_app_iff; tauto.
Qed.

(** X6.  In a response whose seven fields convert to a primitive, a
    criterion that is missing or converts to [NaN]: the validator returns,
    the result is not valid, the criterion is 0, and the error on its field
    tells which of the two it was. *)
Theorem bad_criterion_recorded (raw : string)
  (rubric : option EvaluationRubricInput) (parsed : JS.value) (f : ScoreField) :
  recover raw = ParseOk parsed ->
  JS.truthy parsed = true ->
  fields_convert parsed = true ->
  is_criterion f = true ->
  is_numeric (JS.get parsed (field_name f)) = false ->
  let v := JS.get parsed (field_name f) in
  exists r,
    validate raw rubric = Returned r /\
    isValid r = false /\
    wasRepaired r = true /\
    no_warning_on (field_name f) (warnings r) /\
    has_error (field_name f)
      (if JS.nullish v then "Missing required field" else "Invalid number")
      (errors r) /\
    exists d, data r = Some d /\ score_in d f = JS.of_Z 0.
Proof.
  intros Hp Ht Hconv Hf Hn v.
  rewrite (validate_returns StringToNumber NumberToString JSON_parse
             raw rubric parsed Hp Hconv).
  eexists. split; [reflexivity|].
  set (r := validate_total raw rubric).
  destruct (score_step_in_result StringToNumber NumberToString JSON_parse
              raw rubric parsed f Hp Ht Hf) as (d & Hd & Hs & _ & Hw' & Hr & _).
  pose proof (score_step_entries_in_result raw rubric parsed f Hp Ht Hf) as He.
  destruct (validateAndRepairScore_error_message _ f Hn) as (e & Hst & E1 & _ & E3).
  cbv zeta in Hs, Hw', Hr, He. rewrite Hst in Hs, Hw', Hr, He.
  cbn [fst snd score scoreRepaired log_errors log_warnings] in Hs, Hw', Hr, He.
  fold r in Hd, Hw', Hr, He.
  split.
  { subst r. rewrite (isValid_all_numeric StringToNumber NumberToString JSON_parse
                        raw rubric parsed Hp Ht).
    unfold all_numeric. destruct f; try discriminate; cbn [field_name] in Hn;
      rewrite Hn; rewrite ?andb_false_r; reflexivity. }
  split; [apply Hr; reflexivity|].
  split; [intros w Hin Hx; destruct (Hw' w Hin Hx)|].
  split; [exists e; split; [apply He; left; reflexivity | split; assumption]|].
  exists d. split; [exact Hd | exact Hs].
Qed.

(** A score step on an integer within the bounds returns it untouched
    and pushes nothing. *)
Lemma validateAndRepairScore_clean (n : JS.num) (f : ScoreField) :
  JS.isInteger n = true ->
  out_of_bounds f n = false ->
  repair (JS.VNum n) f empty_log =
    ({| score := n; scoreRepaired := false |}, empty_log).
Proof.
  intros Hi Ho. unfold out_of_bounds in Ho. apply orb_false_iff in Ho.
  destruct Ho as [Hlo Hhi].
  unfold validateAndRepairScore_total, bind, ret. cbn [JS.nullish].
  assert (Hn : JS.isNaN n = false) by (destruct n; try discriminate; reflexivity).
  rewrite Hn, Hi. cbn [negb score]. rewrite Hlo. cbn [score]. rewrite Hhi.
  reflexivity.
Qed.

Lemma validateStringField_clean (s field : string) :
  (0 < String.length s <= 1000)%nat ->
  check_text (JS.VStr s) field 1000 empty_log =
    ({| text := s; textRepaired := false |}, empty_log).
Proof.
  intros [H0 H1]. unfold validateStringField_total, bind, ret. cbn [JS.nullish JS.text_of].
  assert (E0 : (String.length s =? 0)%nat = false) by (apply Nat.eqb_neq; lia).
  assert (E1 : (1000 <? String.length s)%nat = false) by (apply Nat.ltb_ge; lia).
  rewrite E0. cbn [text]. rewrite E1. reflexivity.
Qed.

(** X7.  A response that is already in order comes back as it is: four integer
    criteria within their bounds, a final score that is absent or converts
    to their sum (or to [NaN]), and two texts of 1 to 1000 characters
    give a valid result with no error, no warning, [wasRepaired] false and
    the very values of the response. *)
Theorem clean_response_unchanged (raw : string)
  (rubric : option EvaluationRubricInput) (parsed : JS.value)
  (c e g k : JS.num) (fb tp : string) :
  recover raw = ParseOk parsed ->
  JS.get parsed "concept_accuracy" = JS.VNum c ->
  JS.get parsed "example_usage" = JS.VNum e ->
  JS.get parsed "edge_cases" = JS.VNum g ->
  JS.get parsed "clarity" = JS.VNum k ->
  JS.get parsed "overall_feedback" = JS.VStr fb ->
  JS.get parsed "improvement_tips" = JS.VStr tp ->
  JS.isInteger c && JS.isInteger e && JS.isInteger g && JS.isInteger k = true ->
  out_of_bounds F_concept_accuracy c || out_of_bounds F_example_usage e ||
    out_of_bounds F_edge_cases g || out_of_bounds F_clarity k = false ->
  JS.convertible (JS.get parsed "final_score") = true ->
  provided_disagrees StringToNumber parsed
    (JS.add (JS.add (JS.add c e) g) k) = false ->
  (0 < String.length fb <= 1000)%nat ->
  (0 < String.length tp <= 1000)%nat ->
  validate raw rubric =
    Returned
    {| isValid := true;
       data := Some {| concept_accuracy := c; example_usage := e;
                       edge_cases := g; clarity := k;
                       final_score := JS.add (JS.add (JS.add c e) g) k;
                       overall_feedback := fb; improvement_tips := tp |};
       errors := []; warnings := []; wasRepaired := false |}.
Proof.
  intros Hp Hc He Hg Hk Hfb Htp Hint Hout Hfin Hdis Lfb Ltp.
  assert (Hconv : fields_convert parsed = true).
  { rewrite fields_convert_unfold, Hc, He, Hg, Hk, Hfb, Htp, Hfin. reflexivity. }
  rewrite (validate_returns StringToNumber NumberToString JSON_parse
             raw rubric parsed Hp Hconv).
  f_equal.
  assert (Ht : JS.truthy parsed = true).
  { destruct parsed; cbn in Hc; try discriminate. reflexivity. }
  apply andb_true_iff in Hint. destruct Hint as [Hint Ik].
  apply andb_true_iff in Hint. destruct Hint as [Hint Ig].
  apply andb_true_iff in Hint. destruct Hint as [Ic Ie].
  apply orb_false_iff in Hout. destruct Hout as [Hout Ok].
  apply orb_false_iff in Hout. destruct Hout as [Hout Og].
  apply orb_false_iff in Hout. destruct Hout as [Oc Oe].
  pose proof (validate_explicit StringToNumber NumberToString JSON_parse
                raw rubric parsed Hp Ht) as H.
  cbv zeta in H. rewrite H. clear H.
  rewrite Hc, He, Hg, Hk, Hfb, Htp.
  rewrite (validateAndRepairScore_clean c F_concept_accuracy Ic Oc),
          (validateAndRepairScore_clean e F_example_usage Ie Oe),
          (validateAndRepairScore_clean g F_edge_cases Ig Og),
          (validateAndRepairScore_clean k F_clarity Ik Ok),
          (validateStringField_clean fb _ Lfb),
          (validateStringField_clean tp _ Ltp).
  cbn [fst snd score scoreRepaired text textRepaired orb].
  destruct (check_final_score_run StringToNumber NumberToString parsed
              (JS.add (JS.add (JS.add c e) g) k) false) as (ws & Hf & _ & _).
  cbv zeta in Hf. rewrite Hdis in Hf.
  assert (Hws : ws = []).
  { unfold check_final_score_total, provided_disagrees in Hf, Hdis.
    destruct (JS.get parsed "final_score");
      try (rewrite Hdis in Hf); unfold ret in Hf; injection Hf as <-; reflexivity. }
  rewrite Hf, Hws. reflexivity.
Qed.

Lemma any_entry_app {A} (a b : list A) :
  any_entry (a ++ b) = any_entry a || any_entry b.
Proof. destruct a; reflexivity. Qed.

(** A score step sets its flag exactly when it pushes an entry. *)
Lemma repair_flag (v : JS.value) (f : ScoreField) :
  let st := repair v f empty_log in
  scoreRepaired (fst st) =
    any_entry (log_errors (snd st)) || any_entry (log_warnings (snd st)).
Proof.
  cbv zeta. destruct (is_numeric v) eqn:E.
  2:{ destruct (validateAndRepairScore_error_message v f E) as (e & H & _).
      rewrite H. reflexivity. }
  unfold numeric in E. apply andb_true_iff in E. destruct E as [Hp Hn].
  apply negb_true_iff in Hp, Hn.
  unfold validateAndRepairScore_total. rewrite coercion_is_number_of, Hp, Hn.
  pose proof (bounds_ordered f) as Hb.
  assert (Hmm : JS.gt (JS.of_Z (bmin (SCORE_BOUNDS f)))
                      (JS.of_Z (bmax (SCORE_BOUNDS f))) = false)
    by (apply gt_of_Z_of_Z; lia).
  unfold bind, ret, push_warning, empty_log.
  destruct (JS.isInteger (to_number v)) eqn:Ei; cbn [negb score scoreRepaired];
    (match goal with
     | |- context [JS.lt ?a (JS.of_Z (bmin (SCORE_BOUNDS f)))] =>
         destruct (JS.lt a (JS.of_Z (bmin (SCORE_BOUNDS f)))) eqn:Elo
     end;
     cbn [score scoreRepaired log_errors log_warnings app];
     [ rewrite Hmm; reflexivity
     | match goal with
       | |- context [JS.gt ?a (JS.of_Z (bmax (SCORE_BOUNDS f)))] =>
           destruct (JS.gt a (JS.of_Z (bmax (SCORE_BOUNDS f)))) eqn:Ehi
       end; reflexivity ]).
Qed.

(** A text step sets its flag exactly when it pushes an entry. *)
Lemma text_flag (v : JS.value) (field : string) :
  let st := check_text v field 1000 empty_log in
  textRepaired (fst st) =
    any_entry (log_errors (snd st)) || any_entry (log_warnings (snd st)).
Proof.
  cbv zeta. destruct (JS.nullish v) eqn:E.
  { rewrite (validateStringField_missing NumberToString v field 1000 E).
    reflexivity. }
  unfold validateStringField_total. rewrite E.
  unfold bind, ret, push_warning, empty_log.
  destruct (String.length (to_text v) =? 0)%nat eqn:E0;
    cbn [text textRepaired log_errors log_warnings app].
  - assert (Hdt : (1000 <? String.length default_text)%nat = false)
      by (apply Nat.ltb_ge, default_text_fits).
    rewrite Hdt. reflexivity.
  - destruct (1000 <? String.length (to_text v))%nat; reflexivity.
Qed.

(** The final score check: no error; its flag is the flag it was given,
    or set when it pushes its warning. *)
Lemma final_flag (parsed : JS.value) (sum : JS.num) (r0 : bool) :
  let st := check_final parsed sum r0 empty_log in
  log_errors (snd st) = [] /\
  fst st = r0 || any_entry (log_warnings (snd st)).
Proof.
  cbv zeta. unfold check_final_score_total, bind, ret, push_warning, empty_log.
  destruct (JS.get parsed "final_score"); cbn [fst snd log_errors log_warnings];
    try (split; [reflexivity | rewrite orb_false_r; reflexivity]);
    match goal with
    | |- context [if ?b then _ else _] => destruct b
    end; cbn [fst snd log_errors log_warnings app any_entry];
    (split; [reflexivity | rewrite ?orb_false_r, ?orb_true_r; reflexivity]).
Qed.

(** X8.  When the validator returns data, [wasRepaired] is set exactly when
    it records an error or a warning. *)
Theorem wasRepaired_iff_recorded (raw : string)
  (rubric : option EvaluationRubricInput) (parsed : JS.value) :
  recover raw = ParseOk parsed ->
  JS.truthy parsed = true ->
  fields_convert parsed = true ->
  exists r,
    validate raw rubric = Returned r /\
    wasRepaired r = any_entry (errors r) || any_entry (warnings r).
Proof.
  intros Hp Ht Hconv.
  rewrite (validate_returns StringToNumber NumberToString JSON_parse
             raw rubric parsed Hp Hconv).
  eexists. split; [reflexivity|].
  pose proof (validate_explicit StringToNumber NumberToString JSON_parse
                raw rubric parsed Hp Ht) as H.
  cbv zeta in H. rewrite H. clear H. cbn [wasRepaired errors warnings].
  match goal with
  | |- context [check_final_score_total StringToNumber NumberToString ?p ?s ?r0 empty_log] =>
      destruct (final_flag p s r0) as [Hfe Hff]; cbv zeta in Hfe, Hff;
      rewrite Hff
  end.
  cbn [log_app log_errors log_warnings]. rewrite Hfe.
  rewrite !any_entry_app. cbn [any_entry app].
  rewrite (repair_flag (JS.get parsed "concept_accuracy") F_concept_accuracy),
          (repair_flag (JS.get parsed "example_usage") F_example_usage),
          (repair_flag (JS.get parsed "edge_cases") F_edge_cases),
          (repair_flag (JS.get parsed "clarity") F_clarity),
          (text_flag (JS.get parsed "overall_feedback") "overall_feedback"),
          (text_flag (JS.get parsed "improvement_tips") "improvement_tips").
  btauto.
Qed.

(** X9.  The two texts of the data are never empty and never longer than 1003
    characters. *)
Theorem texts_are_bounded (raw : string)
  (rubric : option EvaluationRubricInput) (r : ValidationResult)
  (d : EvaluationResult) :
  validate raw rubric = Returned r ->
  data r = Some d ->
  (0 < String.length (overall_feedback d) <= 1003)%nat /\
  (0 < String.length (improvement_tips d) <= 1003)%nat.
Proof.
  intros Hr Hd.
  apply validate_returned in Hr. subst r.
  destruct (recover raw) as [parsed|err] eqn:Hp.
  2:{ unfold validateEvaluationResult_total in Hd. rewrite Hp in Hd. discriminate. }
  destruct (JS.truthy parsed) eqn:Ht.
  2:{ unfold validateEvaluationResult_total in Hd. rewrite Hp, Ht in Hd. discriminate. }
  assert (G : forall field, In field text_fields ->
                (0 < String.length (text_in d field) <= 1003)%nat).
  { intros field Hf.
    destruct (text_step_in_result StringToNumber NumberToString JSON_parse
                raw rubric parsed field Hp Ht Hf) as (d' & Hd' & Htx & _).
    rewrite Hd in Hd'. injection Hd' as <-. cbv zeta in Htx. rewrite Htx.
    assert (Ldef : String.length default_text = 21%nat) by reflexivity.
    destruct (JS.nullish (JS.get parsed field)) eqn:En.
    - rewrite (validateStringField_missing NumberToString _ field 1000 En).
      cbn [fst text]. rewrite Ldef. lia.
    - destruct (validateStringField_present NumberToString _ field 1000 En
                  default_text_fits) as (ws & Hst & _).
      cbv zeta in Hst. rewrite Hst. cbn [fst text].
      destruct (String.length (to_text (JS.get parsed field)) =? 0)%nat eqn:E0;
        [rewrite Ldef; lia|].
      apply Nat.eqb_neq in E0.
      destruct (1000 <? String.length (to_text (JS.get parsed field)))%nat eqn:E1.
      + apply Nat.ltb_lt in E1.
        rewrite length_append, length_take by lia. cbn. lia.
      + apply Nat.ltb_ge in E1. lia. }
  split.
  - apply (G "overall_feedback"). left. reflexivity.
  - apply (G "improvement_tips"). right. left. reflexivity.
Qed.
End ValidatorMore.

(** For a result that is not valid the selector answers the default
    scores from a retry count of 2 on, and something else below. *)
Lemma strategy_cases (v : ValidationResult) (retryCount : nat) :
  isValid v = false ->
  ((retryCount <? 2)%nat = true /\
   determineRecoveryStrategy v retryCount <> USE_DEFAULT_SCORES) \/
  ((retryCount <? 2)%nat = false /\
   determineRecoveryStrategy v retryCount = USE_DEFAULT_SCORES).
Proof.
  intros Hv. unfold determineRecoveryStrategy. rewrite Hv.
  destruct (retryCount <? 2)%nat eqn:E; [left | right]; (split; [reflexivity|]).
  - destruct (existsb _ _); [destruct (retryCount =? 0)%nat|]; discriminate.
  - destruct (existsb _ _); reflexivity.
Qed.

(* ===================================================================== *)
(** ** Further properties of [evaluate]                                   *)
(* ===================================================================== *)

Section EvaluateMore.

Variable StringToNumber : string -> JS.num.
Variable NumberToString : JS.num -> string.
Variable JSON_parse : string -> option JS.value.
Variable TypeError_message : TypeErrorSite -> string.
Variable providers : Registry.
Variable client : EvaluationClient.
Variable input : EvaluationInput.
Variable p : LLMProvider.

Local Abbreviation validate :=
  (validateEvaluationResult StringToNumber NumberToString JSON_parse).
Local Abbreviation step :=
  (iteration StringToNumber NumberToString JSON_parse TypeError_message
     client (Registered p) input).
Local Abbreviation run_loop :=
  (loop StringToNumber NumberToString JSON_parse TypeError_message
     client (Registered p) input).
Local Abbreviation run_evaluate :=
  (evaluate StringToNumber NumberToString JSON_parse TypeError_message providers client input).

(** X10.  Scenario A.  When the first call of the provider resolves with a text
    that the validator accepts, [evaluate] resolves at once: success, the
    validated data, the usage of that response, retry count 0, and the full
    prompt as the only prompt sent. *)
Theorem first_valid_response_accepted (resp : LLMProviderResponse)
  (v : ValidationResult) (d : EvaluationResult) :
  getProvider providers (provider (config client)) = inl (Registered p) ->
  call p 0 EVALUATION_SYSTEM_PROMPT (buildEvaluationPrompt input) (config client) =
    Responds resp ->
  validate (content resp) None = Returned v ->
  isValid v = true ->
  data v = Some d ->
  run_evaluate =
    Some {| completion :=
              Resolved {| success := true;
                          resp_data := Some d;
                          resp_metadata :=
                            Some {| model_used := provider (config client);
                                    model_version := model (config client);
                                    token_usage := usage resp;
                                    retry_count := 0 |};
                          resp_error := None |};
            sent := [buildEvaluationPrompt input] |}.
Proof.
  intros Hp Hc Hr Hv Hd. unfold evaluate. rewrite Hp.
  rewrite loop_S. cbn [initial_state retryCount Nat.leb].
  unfold iteration, provider_call.
  cbn [retryCount prompts Nat.eqb List.length initial_state].
  rewrite Hc. cbn [callWithTimeout content]. rewrite Hr, Hv, Hd. reflexivity.
Qed.

(** An attempt whose response the validator does not accept: below a
    retry count of 2 the loop continues, from 2 on it breaks. *)
Lemma iteration_invalid (st : LoopState) (resp : LLMProviderResponse)
  (v : ValidationResult) :
  call p (List.length (prompts st)) EVALUATION_SYSTEM_PROMPT
       (prompt_at input (retryCount st)) (config client) = Responds resp ->
  validate (content resp) None = Returned v ->
  isValid v = false ->
  exists m,
    step st =
      if (retryCount st <? 2)%nat then
        Continue {| retryCount := S (retryCount st);
                    lastError := Some m;
                    tokenUsage := usage resp;
                    prompts := (prompts st ++ [prompt_at input (retryCount st)])%list |}
      else
        Break {| retryCount := retryCount st;
                 lastError := lastError st;
                 tokenUsage := usage resp;
                 prompts := (prompts st ++ [prompt_at input (retryCount st)])%list |}.
Proof.
  intros Hc Hr Hv. unfold iteration, provider_call.
  fold (prompt_at input (retryCount st)).
  rewrite Hc. cbn [callWithTimeout content]. rewrite Hr, Hv.
  destruct (strategy_cases v (retryCount st) Hv) as [[Hlt Hs]|[Hge Hs]].
  - rewrite Hlt. eexists.
    destruct (determineRecoveryStrategy _ _); try reflexivity.
    exfalso. apply Hs. reflexivity.
  - rewrite Hge, Hs. exists EmptyString. reflexivity.
Qed.

(** The step of the loop on a provider whose responses are never
    accepted. *)
Lemma iteration_always_invalid (st : LoopState) :
  always_invalid StringToNumber NumberToString JSON_parse p ->
  exists m usage',
    step st =
      if (retryCount st <? 2)%nat then
        Continue {| retryCount := S (retryCount st);
                    lastError := Some m;
                    tokenUsage := usage';
                    prompts := (prompts st ++ [prompt_at input (retryCount st)])%list |}
      else
        Break {| retryCount := retryCount st;
                 lastError := lastError st;
                 tokenUsage := usage';
                 prompts := (prompts st ++ [prompt_at input (retryCount st)])%list |}.
Proof.
  intros H.
  destruct (H (List.length (prompts st)) EVALUATION_SYSTEM_PROMPT
              (prompt_at input (retryCount st)) (config client))
    as (resp & v & Hc & Hr & Hv).
  destruct (iteration_invalid st resp v Hc Hr Hv) as (m & Hm).
  exists m, (usage resp). exact Hm.
Qed.

(** X11.  When no response of the provider is ever accepted, the selector's own
    maximum of 2 ends the loop, whatever [maxRetries] allows beyond it:
    [evaluate] makes at most three attempts, resolves with the failed
    response and the default result, and reports a retry count of 2 (or
    [maxRetries + 1] if that is smaller). *)
Theorem invalid_responses_stop_at_two :
  getProvider providers (provider (config client)) = inl (Registered p) ->
  always_invalid StringToNumber NumberToString JSON_parse p ->
  exists r m reason,
    run_evaluate =
      Some {| completion := Resolved r;
              sent := prompts_upto input (Nat.min 3 (S (maxRetries client))) |} /\
    success r = false /\
    resp_data r = Some (getDefaultEvaluationResult reason) /\
    resp_metadata r = Some m /\
    retry_count m = Nat.min 2 (S (maxRetries client)).
Proof.
  intros Hp Hinv. unfold evaluate. rewrite Hp.
  destruct (iteration_always_invalid initial_state Hinv) as (m0 & u0 & H0).
  cbn [initial_state retryCount prompts Nat.ltb Nat.leb app] in H0.
  set (st1 := {| retryCount := 1; lastError := Some m0; tokenUsage := u0;
                 prompts := [prompt_at input 0] |}) in H0.
  destruct (iteration_always_invalid st1 Hinv) as (m1 & u1 & H1).
  cbn [st1 retryCount prompts Nat.ltb Nat.leb app] in H1.
  set (st2 := {| retryCount := 2; lastError := Some m1; tokenUsage := u1;
                 prompts := [prompt_at input 0; prompt_at input 1] |}) in H1.
  destruct (iteration_always_invalid st2 Hinv) as (m2 & u2 & H2).
  cbn [st2 retryCount prompts lastError Nat.ltb Nat.leb app] in H2.
  rewrite loop_S. cbn [initial_state retryCount Nat.leb].
  fold initial_state. rewrite H0.
  destruct (maxRetries client) as [|[|n]] eqn:Hmax.
  - rewrite loop_stops by (cbn; lia).
    eexists _, _, _. split; [reflexivity|]. cbn.
    repeat split; reflexivity.
  - rewrite loop_S. rewrite Hmax. cbn [st1 retryCount Nat.leb].
    fold st1. rewrite H1.
    rewrite loop_stops by (cbn; lia).
    eexists _, _, _. split; [reflexivity|]. cbn.
    repeat split; reflexivity.
  - rewrite loop_S. rewrite Hmax. cbn [st1 retryCount Nat.leb].
    fold st1. rewrite H1.
    rewrite loop_S. rewrite Hmax. cbn [st2 retryCount Nat.leb].
    fold st2. rewrite H2.
    eexists _, _, _. split; [reflexivity|]. cbn.
    repeat split; reflexivity.
Qed.

(** An attempt whose response makes the validator throw ends in the
    [catch] clause, after [tokenUsage] took the usage of the response. *)
Lemma iteration_validator_throws (st : LoopState) (resp : LLMProviderResponse) :
  call p (List.length (prompts st)) EVALUATION_SYSTEM_PROMPT
       (prompt_at input (retryCount st)) (config client) = Responds resp ->
  reaches_throw JSON_parse (content resp) = true ->
  step st =
    Continue {| retryCount := S (retryCount st);
                lastError := Some (TypeError_message ToPrimitive);
                tokenUsage := usage resp;
                prompts := (prompts st ++ [prompt_at input (retryCount st)])%list |}.
Proof.
  intros Hc Hr. unfold iteration, provider_call.
  fold (prompt_at input (retryCount st)).
  rewrite Hc. cbn [callWithTimeout content].
  rewrite validate_completes, Hr. reflexivity.
Qed.

(** X22.  When every response of the provider has the validator throw (it
    parses to an object one of whose fields is an object with a property
    [toString]), the attempts end in the [catch] clause like a failed call:
    the selector is not asked, [evaluate] makes all [maxRetries + 1]
    attempts and resolves with the failed response, whose reason is the
    message of the [TypeError] and whose retry count is [maxRetries + 1]. *)
Theorem throwing_responses_exhaust_retries :
  getProvider providers (provider (config client)) = inl (Registered p) ->
  (forall k sys up cfg, exists resp,
     call p k sys up cfg = Responds resp /\
     reaches_throw JSON_parse (content resp) = true) ->
  exists r m,
    run_evaluate =
      Some {| completion := Resolved r;
              sent := prompts_upto input (S (maxRetries client)) |} /\
    success r = false /\
    resp_data r =
      Some (getDefaultEvaluationResult
              (str_or (TypeError_message ToPrimitive) "Evaluation failed")) /\
    resp_metadata r = Some m /\
    retry_count m = S (maxRetries client).
Proof.
  intros Hp Hall. unfold evaluate. rewrite Hp.
  assert (Hlast : forall fuel st,
            (retryCount st <= maxRetries client)%nat ->
            (S (maxRetries client) - retryCount st <= fuel)%nat ->
            exists st',
              run_loop fuel st = Some (exhausted client st', st') /\
              lastError st' = Some (TypeError_message ToPrimitive) /\
              retryCount st' = S (maxRetries client)).
  { induction fuel as [|fuel IH]; intros st Hb Hfuel; [lia|].
    rewrite loop_S. apply Nat.leb_le in Hb. rewrite Hb. apply Nat.leb_le in Hb.
    destruct (Hall (List.length (prompts st)) EVALUATION_SYSTEM_PROMPT
                (prompt_at input (retryCount st)) (config client))
      as (resp & Hc & Hr).
    rewrite (iteration_validator_throws st resp Hc Hr).
    destruct (Nat.le_gt_cases (S (retryCount st)) (maxRetries client)) as [Hle|Hgt].
    - match goal with
      | |- context [loop _ _ _ _ _ _ _ fuel ?s] =>
          destruct (IH s) as (st' & Hl & He & Hrc); [exact Hle | cbn; lia |]
      end.
      exists st'. split; [exact Hl|]. split; [exact He | exact Hrc].
    - rewrite loop_stops by (cbn; lia).
      eexists. split; [reflexivity|]. cbn. split; [reflexivity | lia]. }
  destruct (Hlast (S (maxRetries client)) initial_state) as (st & Hl & He & Hrc);
    [cbn; lia | cbn; lia |].
  destruct (loop_prompts StringToNumber NumberToString JSON_parse TypeError_message
              client (Registered p) input _ _ _ _ Hl eq_refl)
    as (n & Hn & Hle & Hbetween & _); [cbn; lia|].
  rewrite Hl. assert (n = S (maxRetries client)) as -> by lia.
  rewrite Hn. eexists _, _. split; [reflexivity|]. cbn.
  split; [reflexivity|]. rewrite He. split; [reflexivity|].
  split; [reflexivity | exact Hrc].
Qed.

End EvaluateMore.

(* ===================================================================== *)
(** ** The weighted score: exceptions and doubles                         *)
(* ===================================================================== *)

Section WeightedScore.

Variable StringToNumber : string -> JS.num.

Local Abbreviation score_of := (finalScore StringToNumber).

(** X23.  The scoring block of the edge function throws exactly when the
    parsed response is [null], or one of the four criteria or of the four
    weights is an object with a property [toString] (or an array that
    holds one); otherwise it computes a score. *)
Theorem scoring_block_throws (parsed rubric : JS.value) :
  match score_of parsed rubric with
  | None => true
  | Some _ => false
  end = JS.nullish parsed || negb (scoring_converts parsed rubric).
Proof.
  unfold finalScore, rawScore, criterion_of, times, scoring_converts, JS.ToNumber.
  cbn [forallb critical_fields].
  destruct (JS.nullish parsed); [reflexivity|]. cbn [orb].
  assert (W : forall k d d', JS.convertible (weight_of rubric k d) =
                             JS.convertible (weight_of rubric k d')).
  { intros k d d'. unfold weight_of, JS.coalesce.
    destruct (JS.nullish _); reflexivity. }
  rewrite (W "concept_accuracy" (JS.Fin (4 # 10)) (JS.of_Z 0)),
          (W "clarity" (JS.Fin (3 # 10)) (JS.of_Z 0)),
          (W "example_usage" (JS.Fin (2 # 10)) (JS.of_Z 0)),
          (W "edge_cases" (JS.Fin (1 # 10)) (JS.of_Z 0)).
  destruct (JS.convertible (JS.get parsed "concept_accuracy"));
    destruct (JS.convertible (JS.get parsed "clarity"));
    destruct (JS.convertible (JS.get parsed "example_usage"));
    destruct (JS.convertible (JS.get parsed "edge_cases"));
    try reflexivity;
    destruct (JS.convertible (weight_of rubric "concept_accuracy" (JS.of_Z 0)));
    destruct (JS.convertible (weight_of rubric "clarity" (JS.of_Z 0)));
    destruct (JS.convertible (weight_of rubric "example_usage" (JS.of_Z 0)));
    destruct (JS.convertible (weight_of rubric "edge_cases" (JS.of_Z 0)));
    reflexivity.
Qed.

(** X24.  The score is computed in doubles.  With the default weights the
    criteria 0, 0.5, 0.35 and 0.3 (concept, clarity, example, edge) have a
    weighted sum of exactly one quarter, which would round to 3; the sum
    of the doubles falls just below, and the score is 2.  A response
    [null] makes the block throw. *)
Theorem weighted_score_in_doubles :
  score_of sample_quarter JS.VNull = Some (JS.of_Z 2) /\
  JS.round (JS.Fin ((0 * (4 # 10) + (5 # 10) * (3 # 10) + (35 # 100) * (2 # 10) +
                     (3 # 10) * (1 # 10)) * inject_Z 10)) = JS.of_Z 3 /\
  score_of JS.VNull JS.VNull = None.
Proof. repeat split; vm_compute; reflexivity. Qed.

End WeightedScore.

(* ===================================================================== *)
(** ** The scanning functions of the recoverer                            *)
(* ===================================================================== *)

Lemma occurs_append (c : ascii) (a b : string) :
  occurs c (a ++ b) <-> occurs c a \/ occurs c b.
Proof.
  induction a as [|d a IH]; cbn; [tauto|]. rewrite IH. tauto.
Qed.

Lemma occurs_skip_spaces (c : ascii) (s : string) :
  occurs c (Text.skip_spaces s) -> occurs c s.
Proof.
  induction s as [|d s IH]; cbn; [tauto|].
  destruct (Text.is_space d); cbn; tauto.
Qed.

Lemma occurs_trim_right (c : ascii) (s : string) :
  occurs c (Text.trim_right s) -> occurs c s.
Proof.
  induction s as [|d s IH]; cbn; [tauto|].
  destruct (Text.trim_right s) eqn:E.
  - destruct (Text.is_space d); cbn; tauto.
  - cbn. cbn in IH. tauto.
Qed.

Lemma occurs_trim (c : ascii) (s : string) :
  occurs c (Text.trim s) -> occurs c s.
Proof.
  intros H. apply occurs_skip_spaces, occurs_trim_right, H.
Qed.

Lemma occurs_filter_chars (keep : ascii -> bool) (c : ascii) (s : string) :
  occurs c (Text.filter_chars keep s) -> keep c = true /\ occurs c s.
Proof.
  induction s as [|d s IH]; cbn; [tauto|].
  destruct (keep d) eqn:E; cbn.
  - intros [->|H]; [tauto|]. destruct (IH H). tauto.
  - intros H. destruct (IH H). tauto.
Qed.

Lemma occurs_map_chars (f : ascii -> ascii) (c : ascii) (s : string) :
  occurs c (Text.map_chars f s) -> exists d, occurs d s /\ c = f d.
Proof.
  induction s as [|d s IH]; cbn; [tauto|].
  intros [<-|H].
  - exists d. tauto.
  - destruct (IH H) as (d' & Hd & ->). exists d'. tauto.
Qed.

Lemma occurs_replace_comma_before (close c : ascii) (fuel : nat) (s : string) :
  occurs c (Text.replace_comma_before close fuel s) -> occurs c s.
Proof.
  revert s. induction fuel as [|fuel IH]; intros s; cbn; [tauto|].
  destruct s as [|d s]; cbn; [tauto|].
  destruct (Ascii.eqb d ",") eqn:Ed.
  - destruct (Text.skip_spaces s) as [|d' rest] eqn:Es.
    + cbn. intros [H|H]; [tauto|]. right. apply IH, H.
    + destruct (Ascii.eqb d' close) eqn:Ec; cbn.
      * apply Ascii.eqb_eq in Ec. subst d'.
        intros [H|H]; right; apply occurs_skip_spaces; rewrite Es; cbn;
          [tauto|]. right. apply IH, H.
      * intros [H|H]; [tauto|]. right. apply IH, H.
  - intros [H|H]; [tauto|]. right. apply IH, H.
Qed.

(** X16.  What the sanitizing step leaves: no control character and no single
    quote; every character of the result is a character of the response,
    or the double quote that replaces a single quote of the response. *)
Theorem sanitize_leaves_no_quote_or_control (rawResponse : string) (c : ascii) :
  occurs c (Text.sanitize rawResponse) ->
  Text.is_control c = false /\ c <> "'"%char /\
  (occurs c rawResponse \/ (c = Text.dquote /\ occurs "'"%char rawResponse)).
Proof.
  unfold Text.sanitize. intros H.
  apply occurs_trim, occurs_map_chars in H. destruct H as (d & Hd & ->).
  apply occurs_replace_comma_before, occurs_replace_comma_before,
    occurs_filter_chars in Hd.
  destruct Hd as [Hk Hd]. apply negb_true_iff in Hk.
  destruct (Ascii.eqb d "'") eqn:E.
  - apply Ascii.eqb_eq in E. subst d.
    split; [reflexivity|]. split; [discriminate|]. right. split; [reflexivity | exact Hd].
  - apply Ascii.eqb_neq in E. split; [exact Hk|]. split; [exact E|]. left. exact Hd.
Qed.

Lemma from_first_span (c : ascii) (s t : string) :
  Text.from_first c s = Some t ->
  exists pre t', s = pre ++ t /\ t = String c t' /\ ~ occurs c pre.
Proof.
  revert t. induction s as [|d s IH]; intros t; cbn; [discriminate|].
  destruct (Ascii.eqb d c) eqn:E.
  - intros [= <-]. apply Ascii.eqb_eq in E. subst d.
    exists EmptyString, s. cbn. tauto.
  - intros H. destruct (IH t H) as (pre & t' & -> & -> & Hn).
    exists (String d pre), t'. cbn. apply Ascii.eqb_neq in E.
    repeat split; try reflexivity. tauto.
Qed.

Lemma from_first_none (c : ascii) (s : string) :
  Text.from_first c s = None -> ~ occurs c s.
Proof.
  induction s as [|d s IH]; cbn; [tauto|].
  destruct (Ascii.eqb d c) eqn:E; [discriminate|].
  apply Ascii.eqb_neq in E. intros H [?|?]; [tauto | exact (IH H H0)].
Qed.

Lemma upto_last_span (c : ascii) (s m : string) :
  Text.upto_last c s = Some m ->
  exists m' post, s = m ++ post /\ m = m' ++ String c EmptyString /\ ~ occurs c post.
Proof.
  revert m. induction s as [|d s IH]; intros m; cbn; [discriminate|].
  destruct (Text.upto_last c s) as [t|] eqn:E.
  - intros [= <-]. destruct (IH t eq_refl) as (m' & post & -> & -> & Hn).
    exists (String d m'), post. cbn. tauto.
  - destruct (Ascii.eqb d c) eqn:Ed; [|discriminate].
    intros [= <-]. apply Ascii.eqb_eq in Ed. subst d.
    exists EmptyString, s. cbn. repeat split; try reflexivity.
    clear IH. revert E. induction s as [|d s IHs]; cbn; [tauto|].
    destruct (Text.upto_last c s); [discriminate|].
    destruct (Ascii.eqb d c) eqn:Ed; [discriminate|].
    apply Ascii.eqb_neq in Ed. intros _ [?|?]; [tauto | exact (IHs eq_refl H)].
Qed.

(** X17.  The object pattern takes the text from the first opening brace to
    the last closing brace: nothing before it holds an opening brace,
    nothing after it a closing one. *)
Theorem match_object_span (s m : string) :
  Text.match_object s = Some m ->
  exists pre inner post,
    s = pre ++ m ++ post /\
    m = String "{"%char (inner ++ String "}"%char EmptyString) /\
    ~ occurs "{"%char pre /\ ~ occurs "}"%char post.
Proof.
  unfold Text.match_object.
  destruct (Text.from_first "{" s) as [t|] eqn:E; [|discriminate].
  intros H.
  destruct (from_first_span _ _ _ E) as (pre & t' & -> & -> & Hpre).
  destruct (upto_last_span _ _ _ H) as (m' & post & Ht & -> & Hpost).
  destruct m' as [|d m'].
  - cbn in Ht. discriminate.
  - cbn in Ht. injection Ht as <- Ht.
    exists pre, m', post. cbn. rewrite Ht. repeat split; auto.
Qed.

Lemma occurs_from_first (c : ascii) (s t : string) :
  Text.from_first c s = Some t -> occurs c s.
Proof.
  intros H. destruct (from_first_span _ _ _ H) as (pre & t' & -> & -> & _).
  apply occurs_append. right. left. reflexivity.
Qed.

Lemma occurs_prefix (a : ascii) (p s : string) :
  prefix (String a p) s = true -> occurs a s.
Proof.
  destruct s as [|d s]; cbn; [discriminate|].
  destruct (ascii_dec a d) as [->|]; [tauto | discriminate].
Qed.

Lemma occurs_split_at_first (a : ascii) (p s : string) (r : string * string) :
  Text.split_at_first (String a p) s = Some r -> occurs a s.
Proof.
  revert r. induction s as [|d s IH]; intros r.
  - cbn. discriminate.
  - unfold Text.split_at_first. fold Text.split_at_first.
    destruct (prefix (String a p) (String d s)) eqn:E.
    + intros _. apply (occurs_prefix a p). exact E.
    + destruct (Text.split_at_first (String a p) s) as [[b a']|] eqn:Es;
        [|discriminate].
      intros _. right. apply (IH _ eq_refl).
Qed.

(** X18.  A text that is not JSON and holds neither a backtick nor an opening
    brace is a terminal parse failure, whatever [JSON.parse] accepts
    elsewhere. *)
Theorem plain_text_is_parse_failure (JSON_parse : string -> option JS.value)
  (rawResponse : string) :
  JSON_parse rawResponse = None ->
  ~ occurs "`"%char rawResponse ->
  ~ occurs "{"%char rawResponse ->
  parseEvaluationResponse JSON_parse rawResponse =
    ParseFail "Failed to parse response as JSON after all recovery attempts".
Proof.
  intros Hj Hq Hb. unfold parseEvaluationResponse. rewrite Hj.
  assert (H2 : Text.match_code_block rawResponse = None).
  { unfold Text.match_code_block, Text.fence.
    destruct (Text.split_at_first _ rawResponse) as [[b a]|] eqn:E; [|reflexivity].
    exfalso. apply Hq. eapply occurs_split_at_first. exact E. }
  assert (H3 : Text.match_object rawResponse = None).
  { unfold Text.match_object.
    destruct (Text.from_first "{" rawResponse) eqn:E; [|reflexivity].
    exfalso. apply Hb. eapply occurs_from_first. exact E. }
  assert (H4 : Text.match_object (Text.sanitize rawResponse) = None).
  { unfold Text.match_object.
    destruct (Text.from_first "{" (Text.sanitize rawResponse)) eqn:E; [|reflexivity].
    exfalso. apply occurs_from_first in E. unfold Text.sanitize in E.
    apply occurs_trim, occurs_map_chars in E. destruct E as (d & Hd & Hf).
    apply occurs_replace_comma_before, occurs_replace_comma_before,
      occurs_filter_chars in Hd.
    destruct Hd as [_ Hd].
    destruct (Ascii.eqb d "'") eqn:Ed; [discriminate|].
    subst d. exact (Hb Hd). }
  rewrite H2, H3, H4. reflexivity.
Qed.

(* ===================================================================== *)
(** ** Token estimate                                                     *)
(* ===================================================================== *)

(** X19.  The token estimate is the least integer whose fourfold covers the
    length of the text. *)
Theorem estimateTokenCount_bounds (text : string) :
  exists z,
    is_int (estimateTokenCount text) z /\
    (Z.of_nat (String.length text) <= 4 * z < Z.of_nat (String.length text) + 4)%Z.
Proof.
  unfold estimateTokenCount, JS.of_nat, JS.of_Z.
  set (n := Z.of_nat (String.length text)).
  cbn [JS.div]. change (Qeq_bool (inject_Z 4) 0) with false. cbn [JS.ceil].
  exists (Qceiling (inject_Z n / inject_Z 4)). split; [reflexivity|].
  pose proof (Qle_ceiling (inject_Z n / inject_Z 4)) as H1.
  pose proof (Qceiling_lt (inject_Z n / inject_Z 4)) as H2.
  set (z := Qceiling (inject_Z n / inject_Z 4)) in *.
  assert (E : inject_Z n / inject_Z 4 == inject_Z n * (1 # 4)) by (unfold inject_Z; field).
  rewrite E in H1, H2.
  split.
  - rewrite Zle_Qle, inject_Z_mult. unfold inject_Z in *. lra.
  - rewrite Zlt_Qlt, inject_Z_plus, inject_Z_mult.
    replace (z - 1)%Z with (z + -1)%Z in H2 by lia.
    rewrite inject_Z_plus in H2. unfold inject_Z in *. lra.
Qed.

(* ===================================================================== *)
(** ** The quick pre-check                                                *)
(* ===================================================================== *)

Lemma every_in_object (props : list (string * JS.value)) (fields : list string) :
  every_in (JS.VObj props) fields =
    Some (forallb (fun k => match JS.lookup k props with
                            | Some _ => true
                            | None => false
                            end) fields).
Proof.
  induction fields as [|k fields IH]; [reflexivity|].
  cbn. destruct (JS.lookup k props); [exact IH | reflexivity].
Qed.

(** X20.  [quickValidate] answers [true] exactly for a response that parses to
    an object carrying all seven fields, and it throws exactly for a
    response that parses to a truthy value that is no object: a number
    other than 0, a non-empty string, or [true]. *)
Theorem quickValidate_outcomes (JSON_parse : string -> option JS.value)
  (rawResponse : string) :
  let recovered := parseEvaluationResponse JSON_parse rawResponse in
  (quickValidate JSON_parse rawResponse = Some true <->
     exists props,
       recovered = ParseOk (JS.VObj props) /\
       forall k, In k requiredFields -> JS.lookup k props <> None) /\
  (quickValidate JSON_parse rawResponse = None <->
     exists parsed,
       recovered = ParseOk parsed /\ JS.truthy parsed = true /\
       is_object_like parsed = false).
Proof.
  cbv zeta. unfold quickValidate.
  destruct (parseEvaluationResponse JSON_parse rawResponse) as [parsed|err].
  2:{ split; split; try discriminate; intros (? & ? & _); discriminate. }
  destruct (JS.truthy parsed) eqn:Ht; cbn [negb].
  2:{ split; split; try discriminate.
      - intros (props & [= ->] & _). discriminate.
      - intros (v & [= <-] & Hv & _). rewrite Ht in Hv. discriminate. }
  destruct parsed as [| |b|n|s|items|props]; try discriminate.
  1-3: (split;
        [ split; [discriminate | intros (props & [=] & _)]
        | split; [intros _; eexists; repeat split; eauto
                 | intros _; reflexivity] ]).
  - (* an array *)
    split; split; try discriminate.
    + intros (props & [=] & _).
    + intros (v & [= <-] & _ & Hv). discriminate.
  - (* an object *)
    rewrite every_in_object. generalize requiredFields. intros fields.
    split; split.
    + intros [= H]. exists props. split; [reflexivity|].
      intros k Hk. rewrite forallb_forall in H. specialize (H k Hk).
      destruct (JS.lookup k props); [discriminate | discriminate].
    + intros (props' & [= <-] & H). f_equal. apply forallb_forall.
      intros k Hk. specialize (H k Hk).
      destruct (JS.lookup k props); [reflexivity | contradiction].
    + discriminate.
    + intros (v & [= <-] & _ & Hv). discriminate.
Qed.

(* ===================================================================== *)
(** ** The further properties at the sample inputs                        *)
(* ===================================================================== *)

Lemma unparsed_response_result_witness :
  exists r,
    validateEvaluationResult sample_StringToNumber sample_NumberToString
      Json.parse "I cannot do that" None = Returned r /\
    isValid r = false /\ data r = None.
Proof.
  assert (H : forall parsed,
            parseEvaluationResponse Json.parse "I cannot do that" = ParseOk parsed ->
            JS.truthy parsed = false).
  { intros parsed Hp. vm_compute in Hp. discriminate Hp. }
  destruct (unparsed_response_result sample_StringToNumber sample_NumberToString
              Json.parse "I cannot do that" None H) as (r & Hr & A & B & _).
  exists r. split; [exact Hr|]. split; [exact A | exact B].
Defined.

Lemma sample_no_clarity_parses :
  parseEvaluationResponse Json.parse sample_no_clarity =
    ParseOk (JS.VObj [("concept_accuracy", JS.VNum (JS.of_Z 3));
                      ("example_usage", JS.VNum (JS.of_Z 2));
                      ("edge_cases", JS.VNum (JS.of_Z 1));
                      ("final_score", JS.VNum (JS.of_Z 6));
                      ("overall_feedback", JS.VStr "ok");
                      ("improvement_tips", JS.VStr "ok")]).
Proof. vm_compute. reflexivity. Qed.

Lemma bad_criterion_recorded_witness :
  exists r,
    validateEvaluationResult sample_StringToNumber sample_NumberToString
      Json.parse sample_no_clarity None = Returned r /\
    isValid r = false /\
    has_error "clarity" "Missing required field" (errors r).
Proof.
  destruct (bad_criterion_recorded sample_StringToNumber sample_NumberToString
              Json.parse sample_no_clarity None _ F_clarity
              sample_no_clarity_parses eq_refl eq_refl eq_refl eq_refl)
    as (r & Hr & A & _ & _ & B & _).
  exists r. split; [exact Hr|]. split; [exact A | exact B].
Defined.

Lemma clean_response_unchanged_witness :
  validateEvaluationResult sample_StringToNumber sample_NumberToString
    Json.parse sample_bare None =
  Returned {| isValid := true; data := Some sample_result;
              errors := []; warnings := []; wasRepaired := false |}.
Proof.
  apply (clean_response_unchanged sample_StringToNumber sample_NumberToString
           Json.parse sample_bare None sample_object
           (JS.of_Z 3) (JS.of_Z 2) (JS.of_Z 1) (JS.of_Z 1) "ok" "ok"
           sample_bare_parses);
    try reflexivity; cbn; lia.
Defined.

Lemma wasRepaired_iff_recorded_witness :
  exists r,
    validateEvaluationResult sample_StringToNumber sample_NumberToString
      Json.parse sample_no_clarity None = Returned r /\
    wasRepaired r = any_entry (errors r) || any_entry (warnings r).
Proof.
  exact (wasRepaired_iff_recorded sample_StringToNumber sample_NumberToString
           Json.parse sample_no_clarity None _ sample_no_clarity_parses
           eq_refl eq_refl).
Defined.

Lemma sample_bare_validates :
  validateEvaluationResult sample_StringToNumber sample_NumberToString
    Json.parse sample_bare None =
  Returned {| isValid := true; data := Some sample_result;
              errors := []; warnings := []; wasRepaired := false |}.
Proof. vm_compute. reflexivity. Qed.

Lemma texts_are_bounded_witness :
  (0 < String.length (overall_feedback sample_result) <= 1003)%nat /\
  (0 < String.length (improvement_tips sample_result) <= 1003)%nat.
Proof.
  exact (texts_are_bounded sample_StringToNumber sample_NumberToString
           Json.parse sample_bare None _ sample_result sample_bare_validates
           eq_refl).
Defined.

Lemma first_valid_response_accepted_witness :
  exists r,
    evaluate sample_StringToNumber sample_NumberToString Json.parse
      sample_TypeError_message
      [("openai", constant_provider (text_response sample_bare))]
      default_client sample_input =
    Some {| completion := Resolved r;
            sent := [buildEvaluationPrompt sample_input] |} /\
    success r = true /\ resp_data r = Some sample_result.
Proof.
  eexists. split.
  - apply (first_valid_response_accepted sample_StringToNumber
             sample_NumberToString Json.parse sample_TypeError_message
             [("openai", constant_provider (text_response sample_bare))]
             default_client sample_input
             (constant_provider (text_response sample_bare))
             {| content := sample_bare; usage := None; finishReason := None |}
             _ sample_result eq_refl eq_refl sample_bare_validates
             eq_refl eq_refl).
  - split; reflexivity.
Defined.

Lemma throwing_responses_exhaust_retries_witness :
  exists r m,
    evaluate sample_StringToNumber sample_NumberToString Json.parse
      sample_TypeError_message
      [("openai", constant_provider (text_response sample_final_object))]
      default_client sample_input =
    Some {| completion := Resolved r; sent := prompts_upto sample_input 3 |} /\
    success r = false /\
    resp_metadata r = Some m /\ retry_count m = 3%nat.
Proof.
  destruct (throwing_responses_exhaust_retries sample_StringToNumber
              sample_NumberToString Json.parse sample_TypeError_message
              [("openai", constant_provider (text_response sample_final_object))]
              default_client sample_input
              (constant_provider (text_response sample_final_object)) eq_refl)
    as (r & m & H & Hs & _ & Hm & Hc).
  { intros k sys up cfg. eexists. split; [reflexivity|]. vm_compute. reflexivity. }
  exists r, m. split; [exact H|]. split; [exact Hs|]. split; [exact Hm | exact Hc].
Defined.

Lemma invalid_responses_stop_at_two_witness :
  exists r m,
    evaluate sample_StringToNumber sample_NumberToString Json.parse
      sample_TypeError_message
      [("openai", constant_provider (text_response "I cannot do that"))]
      (new_EvaluationClient {| opt_config := None; opt_maxRetries := Some 5%nat;
                               opt_timeoutMs := None |})
      sample_input =
    Some {| completion := Resolved r; sent := prompts_upto sample_input 3 |} /\
    resp_metadata r = Some m /\ retry_count m = 2%nat.
Proof.
  destruct (invalid_responses_stop_at_two sample_StringToNumber
              sample_NumberToString Json.parse sample_TypeError_message
              [("openai", constant_provider (text_response "I cannot do that"))]
              (new_EvaluationClient {| opt_config := None;
                                       opt_maxRetries := Some 5%nat;
                                       opt_timeoutMs := None |})
              sample_input
              (constant_provider (text_response "I cannot do that")) eq_refl)
    as (r & m & reason & H & _ & _ & Hm & Hc).
  { intros k sys up cfg. eexists _, _. split; [reflexivity|].
    split; vm_compute; reflexivity. }
  exists r, m. split; [exact H|]. split; [exact Hm | exact Hc].
Defined.

Lemma evaluate_all_attempts_fail_witness :
  exists r,
    evaluate sample_StringToNumber sample_NumberToString Json.parse
      sample_TypeError_message
      [("openai", constant_provider (Throws OtherThrown))]
      default_client sample_input =
    Some {| completion := Resolved r; sent := prompts_upto sample_input 3 |} /\
    success r = false.
Proof.
  destruct (evaluate_all_attempts_fail sample_StringToNumber sample_NumberToString
              Json.parse sample_TypeError_message
              [("openai", constant_provider (Throws OtherThrown))]
              default_client sample_input
              (Registered (constant_provider (Throws OtherThrown))) eq_refl)
    as (r & reason & H & Hs & _).
  { intros k sys up cfg. eexists. reflexivity. }
  exists r. split; [exact H | exact Hs].
Defined.

Lemma evaluate_prompts_witness :
  exists n,
    [buildEvaluationPrompt sample_input] = prompts_upto sample_input n /\
    (n <= 3)%nat.
Proof.
  destruct (evaluate_prompts sample_StringToNumber sample_NumberToString
              Json.parse sample_TypeError_message
              [("openai", constant_provider (text_response sample_bare))]
              default_client sample_input
              {| success := true;
                 resp_data := Some sample_result;
                 resp_metadata :=
                   Some {| model_used := "openai"; model_version := "gpt-4o-mini";
                           token_usage := None; retry_count := 0 |};
                 resp_error := None |}
              [buildEvaluationPrompt sample_input])
    as (n & Hn & Hle & _).
  { vm_compute. reflexivity. }
  exists n. split; [exact Hn | exact Hle].
Defined.

Lemma sanitize_leaves_no_quote_or_control_witness :
  Text.is_control Text.dquote = false /\ Text.dquote <> "'"%char.
Proof.
  destruct (sanitize_leaves_no_quote_or_control sample_sloppy Text.dquote)
    as (A & B & _).
  { vm_compute. right. left. reflexivity. }
  split; [exact A | exact B].
Defined.

Lemma match_object_span_witness :
  exists pre inner post,
    "Here: {'a':1} done" = pre ++ "{'a':1}" ++ post /\
    "{'a':1}" = String "{"%char (inner ++ String "}"%char EmptyString).
Proof.
  destruct (match_object_span "Here: {'a':1} done" "{'a':1}" eq_refl)
    as (pre & inner & post & A & B & _).
  exists pre, inner, post. split; [exact A | exact B].
Defined.

Lemma plain_text_is_parse_failure_witness :
  parseEvaluationResponse Json.parse "I cannot do that" =
    ParseFail "Failed to parse response as JSON after all recovery attempts".
Proof.
  apply plain_text_is_parse_failure.
  - vm_compute. reflexivity.
  - cbn. intros H. repeat (destruct H as [H|H]; [discriminate H|]). exact H.
  - cbn. intros H. repeat (destruct H as [H|H]; [discriminate H|]). exact H.
Defined.
